(** * orm-dao-simplified: a shallow embedding and its verified properties

    The development follows the layout of the TypeScript sources:

    - [JS]                 the fragment of the JavaScript runtime the library
                           relies on (values, objects, strings, [Date], [JSON]);
    - [Types]              [utils/types] and [utils/type-decorators]
                           (conditions, joins, options, errors, conversion kinds);
    - [EntityModel]        [src/entity.model.ts];
    - [DAO]                [src/GenericDAO.ts];
    - [TransactionManager] [TransactionManager] (runInTransaction);
    - [AddShebang]         the build script that puts the shebang line in
                           front of the compiled model generator;
    - [Fixtures]           concrete entities and collaborators for examples.

    Definitions come first; the statements about them form the second half.

    Objects are association lists in enumeration order, the order
    [Object.keys] and [for ... in] follow and the order the column lists
    of the generated statements depend on. *)

From Stdlib Require Import ZArith String Ascii Bool Lia Arith List.
From Stdlib Require Import DecimalString DecimalZ DecimalN.
Import ListNotations.

Set Warnings "-register-all".

Open Scope string_scope.
Open Scope list_scope.

Infix "+++" := String.append (right associativity, at level 60).

(** ** The JavaScript runtime fragment *)

Module JS.

(** JavaScript values.  [VNum n] is the number [n], an integer-valued
    double (every integer up to [2^53] in magnitude is one; arithmetic on
    numbers rounds, see [Number_round]); numbers with a fraction and
    non-finite numbers are outside the model.  Strings are sequences of
    8-bit code units.  A [Date] carries its time value in milliseconds
    since the epoch, [None] being the invalid date (time value NaN).
    [VBuffer] is a Node.js [Buffer].  [VBeyond json] is an object or an
    array that [JSON.parse] has read and that holds a number or a
    character the model does not hold: it is known by the text [json]
    that [JSON.stringify] gives for it. *)
Inductive Value : Type :=
| VUndefined
| VNull
| VBool (b : bool)
| VNum (n : Z)
| VStr (s : string)
| VArr (elems : list Value)
| VObj (props : list (string * Value))
| VDate (t : option Z)
| VBuffer (bytes : list Z)
| VBeyond (json : string).

(** A plain object: own enumerable properties in enumeration order. *)
Definition Obj : Type := list (string * Value).

(** [typeof v === "object"] *)
Definition typeof_object (v : Value) : bool :=
  match v with
  | VNull | VArr _ | VObj _ | VDate _ | VBuffer _ | VBeyond _ => true
  | _ => false
  end.

(** [typeof v === "string"] *)
Definition typeof_string (v : Value) : bool :=
  match v with VStr _ => true | _ => false end.

Definition is_null (v : Value) : bool :=
  match v with VNull => true | _ => false end.

Definition is_undefined (v : Value) : bool :=
  match v with VUndefined => true | _ => false end.

(** [v instanceof Date], [v instanceof Buffer] *)
Definition instanceof_Date (v : Value) : bool :=
  match v with VDate _ => true | _ => false end.

Definition instanceof_Buffer (v : Value) : bool :=
  match v with VBuffer _ => true | _ => false end.

(** *** Property access on plain objects *)

(** [Object.prototype.hasOwnProperty.call(o, k)] *)
Fixpoint hasOwnProperty (o : Obj) (k : string) : bool :=
  match o with
  | [] => false
  | (k', _) :: o' => if String.eqb k' k then true else hasOwnProperty o' k
  end.

Fixpoint lookup (o : Obj) (k : string) : option Value :=
  match o with
  | [] => None
  | (k', v) :: o' => if String.eqb k' k then Some v else lookup o' k
  end.

(** [o[k]]: a missing property reads as [undefined]. *)
Definition get (o : Obj) (k : string) : Value :=
  match lookup o k with Some v => v | None => VUndefined end.

(** [o[k] = v]: an existing property keeps its position, a new one is
    appended. *)
Fixpoint set (o : Obj) (k : string) (v : Value) : Obj :=
  match o with
  | [] => [(k, v)]
  | (k', v') :: o' =>
      if String.eqb k' k then (k', v) :: o' else (k', v') :: set o' k v
  end.

(** [delete o[k]] *)
Fixpoint delete (o : Obj) (k : string) : Obj :=
  match o with
  | [] => []
  | (k', v') :: o' =>
      if String.eqb k' k then delete o' k else (k', v') :: delete o' k
  end.

(** [Object.keys(o)] *)
Definition keys (o : Obj) : list string := map fst o.

(** *** Strings *)

(** [parts.join(sep)] *)
Definition join (sep : string) (parts : list string) : string :=
  String.concat sep parts.

(** [s.startsWith(p)] *)
Fixpoint startsWith (p s : string) : bool :=
  match p, s with
  | EmptyString, _ => true
  | String a p', String b s' => if Ascii.eqb a b then startsWith p' s' else false
  | String _ _, EmptyString => false
  end.

(** [s.includes(p)] *)
Fixpoint includes (s p : string) : bool :=
  if startsWith p s then true
  else match s with
       | EmptyString => false
       | String _ s' => includes s' p
       end.

(** [s.slice(0, n)] for [0 <= n] *)
Fixpoint slice0 (n : nat) (s : string) : string :=
  match n, s with
  | S n', String a s' => String a (slice0 n' s')
  | _, _ => EmptyString
  end.

(** [s.replace(a, b)] for one-character strings [a], [b]: the first
    occurrence only. *)
Fixpoint replace1 (a b : ascii) (s : string) : string :=
  match s with
  | EmptyString => EmptyString
  | String c s' => if Ascii.eqb c a then String b s' else String c (replace1 a b s')
  end.

(** *** Numbers *)

(** [Number.MAX_SAFE_INTEGER], [2^53 - 1]. *)
Definition MAX_SAFE_INTEGER : Z := 9007199254740991.

Definition is_safe_integer (n : Z) : bool := (Z.abs n <=? MAX_SAFE_INTEGER)%Z.

(** The decimal digits of an integer. *)
Definition decimal (n : Z) : string := NilZero.string_of_int (Z.to_int n).

(** The double nearest to the rational [num / den], for [0 < num] and
    [0 < den], ties to even: the significand [m] and the exponent [p] of
    the value [m * 2^p], with [m <= 2^53] and [-1074 <= p].  [e] is the
    exponent of the power of two at or below the rational; below [2^-1022]
    the spacing of the doubles no longer shrinks.  A value of [2^1024] or
    more stands for Infinity. *)
Definition round_to_double (num den : Z) : Z * Z :=
  (let e0 := Z.log2 num - Z.log2 den in
   let e :=
     if (if 0 <=? e0 then den * 2 ^ e0 <=? num else den <=? num * 2 ^ (- e0))
     then e0 else e0 - 1 in
   let p := Z.max e (-1022) - 52 in
   let n := if 0 <=? p then num else num * 2 ^ (- p) in
   let d := if 0 <=? p then den * 2 ^ p else den in
   let m := n / d in
   let r := n mod d in
   if (d <? 2 * r) || ((d =? 2 * r) && Z.odd m) then (m + 1, p) else (m, p))%Z.

(** The integer that the double [m * 2^p] is, when it is one. *)
Definition integer_of_double (mp : Z * Z) : option Z :=
  (let (m, p) := mp in
   if 0 <=? p then Some (m * 2 ^ p)
   else if m mod 2 ^ (- p) =? 0 then Some (m / 2 ^ (- p))
   else None)%Z.

(** The number that the exact value [+- num / den] is read as, when that
    number is a safe integer of the model: negative zero is none. *)
Definition safe_integer_of_ratio (negative : bool) (num den : Z) : option Z :=
  (match (if num =? 0 then Some 0
          else integer_of_double (round_to_double num den)) with
   | Some n =>
       if n <=? MAX_SAFE_INTEGER then
         if negative then (if n =? 0 then None else Some (- n)) else Some n
       else None
   | None => None
   end)%Z.

(** The double nearest to the integer [z]: what arithmetic on numbers
    gives when its exact result is [z] (while that stays below [2^1024];
    a double that large is an integer). *)
Definition Number_round (z : Z) : Z :=
  (if z =? 0 then 0
   else let (m, p) := round_to_double (Z.abs z) 1 in
        Z.sgn z * (if 0 <=? p then m * 2 ^ p else m / 2 ^ (- p)))%Z.

(** [a - b] and [a * b] on numbers. *)
Definition Number_sub (a b : Z) : Z := Number_round (a - b).
Definition Number_mul (a b : Z) : Z := Number_round (a * b).

(** [Number::toString] picks the decimal with the fewest significant
    digits that reads as the number, the closest one when there are
    several, the even one when two are as close.  For the integer double
    [x > 0] with [nd] digits: with [k] significant digits the candidates
    are the multiples of [10^(nd - k)] on either side of [x]. *)
Fixpoint shortest_decimal_from (ks : list Z) (nd x : Z) : Z :=
  (match ks with
   | [] => x
   | k :: ks' =>
       let e := nd - k in
       if e <=? 0 then x
       else
         let s := x / 10 ^ e in
         let lo := s * 10 ^ e in
         let hi := lo + 10 ^ e in
         let lo_reads := Number_round lo =? x in
         let hi_reads := Number_round hi =? x in
         if lo_reads && hi_reads then
           if x - lo <? hi - x then lo
           else if hi - x <? x - lo then hi
           else if Z.even s then lo else hi
         else if lo_reads then lo
         else if hi_reads then hi
         else shortest_decimal_from ks' nd x
   end)%Z.

Definition shortest_decimal (x : Z) : Z :=
  shortest_decimal_from
    [1; 2; 3; 4; 5; 6; 7; 8; 9; 10; 11; 12; 13; 14; 15; 16; 17]%Z
    (Z.of_nat (String.length (decimal x))) x.

(** Digits without the zeros at their end. *)
Fixpoint strip_zeros (s : string) : string :=
  match s with
  | EmptyString => EmptyString
  | String c s' =>
      match strip_zeros s' with
      | EmptyString => if Ascii.eqb c "0" then EmptyString else String c EmptyString
      | r => String c r
      end
  end.

(** The exponent form [d.ddde+x] of an integer of more than 21 digits. *)
Definition exponent_form (y : Z) : string :=
  let digits := decimal y in
  let x := decimal (Z.of_nat (String.length digits) - 1) in
  match strip_zeros digits with
  | String d EmptyString => String d ("e+" +++ x)
  | String d ds => String d ("." +++ ds +++ "e+" +++ x)
  | EmptyString => digits
  end.

(** [Number::toString] of an integer-valued number.  The digits of a safe
    integer are the shortest decimal that reads as it; a larger number is
    written by its shortest decimal, in exponent form from [10^21] on. *)
Definition Number_toString (n : Z) : string :=
  if is_safe_integer n then decimal n
  else
    let y := shortest_decimal (Z.abs n) in
    let text :=
      if (21 <? String.length (decimal y))%nat then exponent_form y
      else decimal y in
    if (n <? 0)%Z then String "-" text else text.


(** *** Date

    Time values are milliseconds since 1970-01-01T00:00:00Z; the
    definitions below are the ECMAScript abstract operations of the same
    names. *)

Definition msPerDay : Z := 86400000.
Definition msPerHour : Z := 3600000.
Definition msPerMinute : Z := 60000.
Definition msPerSecond : Z := 1000.

Definition Day (t : Z) : Z := (t / msPerDay)%Z.
Definition TimeWithinDay (t : Z) : Z := (t mod msPerDay)%Z.

Definition isLeapYear (y : Z) : bool :=
  ((y mod 4 =? 0) && negb (y mod 100 =? 0) || (y mod 400 =? 0))%Z.

Definition DayFromYear (y : Z) : Z :=
  (365 * (y - 1970) + (y - 1969) / 4 - (y - 1901) / 100 + (y - 1601) / 400)%Z.

(** The year whose first day is the last one not after day [d]: an
    estimate from the mean year length, corrected by at most one. *)
Definition YearFromDay (d : Z) : Z :=
  let y := (1970 + (d * 400) / 146097)%Z in
  if (d <? DayFromYear y)%Z then (y - 1)%Z
  else if (DayFromYear (y + 1) <=? d)%Z then (y + 1)%Z
  else y.

Definition YearFromTime (t : Z) : Z := YearFromDay (Day t).

Definition DayWithinYear (t : Z) : Z :=
  (Day t - DayFromYear (YearFromTime t))%Z.

Definition leapDays (y : Z) : Z := if isLeapYear y then 1%Z else 0%Z.

(** Day number, within a year with [l] leap days, of the first day of
    month [m] (January is month 0). *)
Definition monthStart (l m : Z) : Z :=
  (match m with
   | 0 => 0 | 1 => 31 | 2 => 59 + l | 3 => 90 + l | 4 => 120 + l
   | 5 => 151 + l | 6 => 181 + l | 7 => 212 + l | 8 => 243 + l
   | 9 => 273 + l | 10 => 304 + l | _ => 334 + l
   end)%Z.

Definition monthOfDay (l d : Z) : Z :=
  (if d <? 31 then 0 else if d <? 59 + l then 1 else if d <? 90 + l then 2
   else if d <? 120 + l then 3 else if d <? 151 + l then 4
   else if d <? 181 + l then 5 else if d <? 212 + l then 6
   else if d <? 243 + l then 7 else if d <? 273 + l then 8
   else if d <? 304 + l then 9 else if d <? 334 + l then 10 else 11)%Z.

Definition MonthFromTime (t : Z) : Z :=
  monthOfDay (leapDays (YearFromTime t)) (DayWithinYear t).

Definition DateFromTime (t : Z) : Z :=
  (DayWithinYear t
   - monthStart (leapDays (YearFromTime t)) (MonthFromTime t) + 1)%Z.

Definition HourFromTime (t : Z) : Z := ((t / msPerHour) mod 24)%Z.
Definition MinFromTime (t : Z) : Z := ((t / msPerMinute) mod 60)%Z.
Definition SecFromTime (t : Z) : Z := ((t / msPerSecond) mod 60)%Z.
Definition msFromTime (t : Z) : Z := (t mod msPerSecond)%Z.

Definition DaysInMonth (y m : Z) : Z :=
  (match m with
   | 0 => 31 | 1 => 28 + leapDays y | 2 => 31 | 3 => 30 | 4 => 31 | 5 => 30
   | 6 => 31 | 7 => 31 | 8 => 30 | 9 => 31 | 10 => 30 | _ => 31
   end)%Z.

(** [MakeDay] for a month in 0..11, [MakeTime], [MakeDate]. *)
Definition MakeDay (year month date : Z) : Z :=
  (DayFromYear year + monthStart (leapDays year) month + date - 1)%Z.
Definition MakeTime (h m s ms : Z) : Z :=
  (h * msPerHour + m * msPerMinute + s * msPerSecond + ms)%Z.
Definition MakeDate (day time : Z) : Z := (day * msPerDay + time)%Z.

(** [TimeClip] *)
Definition TimeClip (t : Z) : option Z :=
  if (Z.abs t <=? 8640000000000000)%Z then Some t else None.

(** Decimal digits. *)
Definition digit_char (d : Z) : ascii :=
  ascii_of_nat (48 + Z.to_nat d).

Definition digit_val (c : ascii) : option Z :=
  let n := nat_of_ascii c in
  if ((48 <=? n) && (n <=? 57))%nat then Some (Z.of_nat (n - 48)) else None.

(** [String(n).padStart(w, "0")] for [0 <= n < 10^w]. *)
Fixpoint pad (w : nat) (n : Z) : string :=
  match w with
  | O => EmptyString
  | S w' => pad w' (n / 10) +++ String (digit_char (n mod 10)) EmptyString
  end.

(** [Date.prototype.toISOString] of a valid time value. *)
Definition toISOString (t : Z) : string :=
  let y := YearFromTime t in
  (if ((0 <=? y) && (y <=? 9999))%Z then pad 4 y
   else (if (y <? 0)%Z then "-" else "+") +++ pad 6 (Z.abs y))
  +++ "-" +++ pad 2 (MonthFromTime t + 1)
  +++ "-" +++ pad 2 (DateFromTime t)
  +++ "T" +++ pad 2 (HourFromTime t)
  +++ ":" +++ pad 2 (MinFromTime t)
  +++ ":" +++ pad 2 (SecFromTime t)
  +++ "." +++ pad 3 (msFromTime t)
  +++ "Z".

(** Reading [w] decimal digits. *)
Fixpoint read_digits (w : nat) (acc : Z) (s : string) : option (Z * string) :=
  match w with
  | O => Some (acc, s)
  | S w' =>
      match s with
      | EmptyString => None
      | String c s' =>
          match digit_val c with
          | Some d => read_digits w' (10 * acc + d)%Z s'
          | None => None
          end
      end
  end.

Definition expect (c : ascii) (s : string) : option string :=
  match s with
  | String c' s' => if Ascii.eqb c' c then Some s' else None
  | EmptyString => None
  end.

(** The fields of a string of the form [YYYY-MM-DD HH:MM:SS]. *)
Definition read_sql_datetime (s : string)
  : option (Z * Z * Z * Z * Z * Z) :=
  match read_digits 4 0 s with Some (y, s) =>
  match expect "-" s with Some s =>
  match read_digits 2 0 s with Some (mo, s) =>
  match expect "-" s with Some s =>
  match read_digits 2 0 s with Some (d, s) =>
  match expect " " s with Some s =>
  match read_digits 2 0 s with Some (h, s) =>
  match expect ":" s with Some s =>
  match read_digits 2 0 s with Some (mi, s) =>
  match expect ":" s with Some s =>
  match read_digits 2 0 s with Some (se, s) =>
  match s with
  | EmptyString => Some (y, mo, d, h, mi, se)
  | _ => None
  end
  | None => None end | None => None end | None => None end | None => None end
  | None => None end | None => None end | None => None end | None => None end
  | None => None end | None => None end | None => None end.

(** Fields that are read as they stand: a day that exists in its month, a
    time of day, and a year of at least 100 (V8's fallback parser takes
    smaller years for two-digit years or for days). *)
Definition valid_civil (f : Z * Z * Z * Z * Z * Z) : bool :=
  let '(y, mo, d, h, mi, se) := f in
  ((100 <=? y) && (1 <=? mo) && (mo <=? 12) && (1 <=? d)
   && (d <=? DaysInMonth y (mo - 1))
   && (h <=? 23) && (mi <=? 59) && (se <=? 59))%Z.

(** What the host decides.  [LocalTZA] is the offset of local time from
    UTC in milliseconds.  [Date_parse_other] is the implementation-defined
    reading of every other date string.  [ToPrimitive_string] is the
    string an array, a plain object or a Buffer converts to when handed to
    [new Date].  [JSON_restringify] is the text [JSON.stringify] gives for
    what [JSON.parse] reads from a text that holds a number or a
    character outside the model. *)
Record Runtime : Type := {
  LocalTZA : Z;
  Date_parse_other : string -> option Z;
  ToPrimitive_string : Value -> string;
  JSON_restringify : string -> string
}.

(** [Date.parse]: a [YYYY-MM-DD HH:MM:SS] string, which has no zone
    designator and is not in the ISO form, is read as local time (V8). *)
Definition Date_parse (rt : Runtime) (s : string) : option Z :=
  match read_sql_datetime s with
  | Some (y, mo, d, h, mi, se) =>
      if valid_civil (y, mo, d, h, mi, se) then
        TimeClip (MakeDate (MakeDay y (mo - 1) d) (MakeTime h mi se 0)
                  - LocalTZA rt)
      else Date_parse_other rt s
  | None => Date_parse_other rt s
  end.

(** [new Date(v)] for a value [v] that is not itself a Date: the time
    value of the new object. *)
Definition new_Date (rt : Runtime) (v : Value) : option Z :=
  match v with
  | VUndefined => None
  | VNull => TimeClip 0
  | VBool b => TimeClip (if b then 1 else 0)
  | VNum n => TimeClip n
  | VStr s => Date_parse rt s
  | VDate t => t
  | VArr _ | VObj _ | VBuffer _ | VBeyond _ =>
      Date_parse rt (ToPrimitive_string rt v)
  end.

(** *** JSON *)

Definition dquote : ascii := "034"%char.
Definition backslash : ascii := "\"%char.

Definition hex_digit (n : nat) : ascii :=
  match n with
  | 0 => "0" | 1 => "1" | 2 => "2" | 3 => "3" | 4 => "4" | 5 => "5"
  | 6 => "6" | 7 => "7" | 8 => "8" | 9 => "9" | 10 => "a" | 11 => "b"
  | 12 => "c" | 13 => "d" | 14 => "e" | _ => "f"
  end%char%nat.

(** [QuoteJSONString]: one code unit. *)
Definition escape_char (c : ascii) : string :=
  if Ascii.eqb c dquote then String backslash (String dquote EmptyString)
  else if Ascii.eqb c backslash then String backslash (String backslash EmptyString)
  else if Ascii.eqb c "008" then String backslash "b"
  else if Ascii.eqb c "012" then String backslash "f"
  else if Ascii.eqb c "010" then String backslash "n"
  else if Ascii.eqb c "013" then String backslash "r"
  else if Ascii.eqb c "009" then String backslash "t"
  else if (nat_of_ascii c <? 32)%nat then
    String backslash
      (String "u" (String "0" (String "0"
         (String (hex_digit (nat_of_ascii c / 16))
            (String (hex_digit (nat_of_ascii c mod 16)) EmptyString)))))
  else String c EmptyString.

Fixpoint escape_chars (s : string) : string :=
  match s with
  | EmptyString => EmptyString
  | String c s' => escape_char c +++ escape_chars s'
  end.

Definition QuoteJSONString (s : string) : string :=
  String dquote (escape_chars s +++ String dquote EmptyString).

(** [JSON.stringify]'s [SerializeJSONProperty]: [None] is [undefined].
    A Date serializes through [toJSON] (its ISO string, or null when
    invalid), a Buffer through [toJSON] as [{type, data}]; undefined array
    elements become null and undefined properties are left out. *)
Fixpoint SerializeJSONProperty (v : Value) : option string :=
  match v with
  | VUndefined => None
  | VNull => Some "null"
  | VBool b => Some (if b then "true" else "false")
  | VNum n => Some (Number_toString n)
  | VStr s => Some (QuoteJSONString s)
  | VArr elems =>
      Some ("[" +++ join ","
              (map (fun e => match SerializeJSONProperty e with
                             | Some s => s
                             | None => "null"
                             end) elems) +++ "]")
  | VObj props =>
      Some ("{" +++ join ","
              (flat_map (fun kv => match SerializeJSONProperty (snd kv) with
                                   | Some s => [QuoteJSONString (fst kv) +++ ":" +++ s]
                                   | None => []
                                   end) props) +++ "}")
  | VDate (Some t) => Some (QuoteJSONString (toISOString t))
  | VDate None => Some "null"
  | VBuffer bytes =>
      Some ("{" +++ QuoteJSONString "type" +++ ":" +++ QuoteJSONString "Buffer"
            +++ "," +++ QuoteJSONString "data" +++ ":["
            +++ join "," (map Number_toString bytes) +++ "]}")
  | VBeyond json => Some json
  end.

(** [JSON.stringify(v)] *)
Definition JSON_stringify (v : Value) : Value :=
  match SerializeJSONProperty v with
  | Some s => VStr s
  | None => VUndefined
  end.

(** [JSON.parse].  The whole JSON grammar is read.  What is read is a
    value of the model, or it lies beyond the model: a number that is not
    a safe integer, a string with a code unit above 255, or an array or
    an object that holds one.  In the results below the outer [None] is a
    [SyntaxError], the inner [None] a value beyond the model. *)

Definition is_ws (c : ascii) : bool :=
  Ascii.eqb c " " || Ascii.eqb c "009" || Ascii.eqb c "010" || Ascii.eqb c "013".

Fixpoint skip_ws (s : string) : string :=
  match s with
  | String c s' => if is_ws c then skip_ws s' else s
  | EmptyString => s
  end.

Definition hex_val (c : ascii) : option nat :=
  let n := nat_of_ascii c in
  if ((48 <=? n) && (n <=? 57))%nat then Some (n - 48)%nat
  else if ((97 <=? n) && (n <=? 102))%nat then Some (n - 87)%nat
  else if ((65 <=? n) && (n <=? 70))%nat then Some (n - 55)%nat
  else None.

(** The code unit of [\uXXXX]. *)
Definition unicode_escape (h1 h2 h3 h4 : ascii) : option nat :=
  match hex_val h1, hex_val h2, hex_val h3, hex_val h4 with
  | Some a, Some b, Some c, Some d => Some (4096 * a + 256 * b + 16 * c + d)%nat
  | _, _, _, _ => None
  end.

(** A code unit as a character of the model, if it is one. *)
Definition char_of_code (code : nat) : option ascii :=
  if (code <? 256)%nat then Some (ascii_of_nat code) else None.

Definition simple_escape (e : ascii) : option ascii :=
  if Ascii.eqb e dquote then Some dquote
  else if Ascii.eqb e backslash then Some backslash
  else if Ascii.eqb e "/" then Some "/"%char
  else if Ascii.eqb e "b" then Some "008"%char
  else if Ascii.eqb e "f" then Some "012"%char
  else if Ascii.eqb e "n" then Some "010"%char
  else if Ascii.eqb e "r" then Some "013"%char
  else if Ascii.eqb e "t" then Some "009"%char
  else None.

(** One more character in front of what was read of a string: [c] is
    [None] for a character beyond the model. *)
Definition cons_char (c : option ascii) (r : option (option string * string))
  : option (option string * string) :=
  match r with
  | Some (Some s, rest) =>
      match c with
      | Some c => Some (Some (String c s), rest)
      | None => Some (None, rest)
      end
  | Some (None, rest) => Some (None, rest)
  | None => None
  end.

(** The characters of a string literal after its opening quote, and what
    follows the closing quote. *)
Fixpoint parse_string_body (s : string) : option (option string * string) :=
  match s with
  | EmptyString => None
  | String c s1 =>
      if Ascii.eqb c dquote then Some (Some EmptyString, s1)
      else if Ascii.eqb c backslash then
        match s1 with
        | EmptyString => None
        | String e s2 =>
            if Ascii.eqb e "u" then
              match s2 with
              | String h1 (String h2 (String h3 (String h4 s6))) =>
                  match unicode_escape h1 h2 h3 h4 with
                  | Some code => cons_char (char_of_code code) (parse_string_body s6)
                  | None => None
                  end
              | _ => None
              end
            else
              match simple_escape e with
              | Some c' => cons_char (Some c') (parse_string_body s2)
              | None => None
              end
        end
      else if (nat_of_ascii c <? 32)%nat then None
      else cons_char (Some c) (parse_string_body s1)
  end.

Definition is_digit (c : ascii) : bool :=
  ((48 <=? nat_of_ascii c) && (nat_of_ascii c <=? 57))%nat.

(** The longest prefix of decimal digits, and the rest. *)
Fixpoint span_digits (s : string) : string * string :=
  match s with
  | String c s' =>
      if is_digit c then let (ds, rest) := span_digits s' in (String c ds, rest)
      else (EmptyString, s)
  | EmptyString => (EmptyString, EmptyString)
  end.

(** The number a string of digits denotes. *)
Definition digits_value (ds : string) : Z :=
  match NilEmpty.uint_of_string ds with
  | Some u => Z.of_int (Decimal.Pos u)
  | None => 0%Z
  end.

(** The fraction of a number literal: the digits after a point, which must
    be there when the point is, and the rest. *)
Definition parse_fraction (s : string) : option (string * string) :=
  match s with
  | String c s' =>
      if Ascii.eqb c "." then
        match span_digits s' with
        | (EmptyString, _) => None
        | (ds, rest) => Some (ds, rest)
        end
      else Some (EmptyString, s)
  | EmptyString => Some (EmptyString, s)
  end.

(** The exponent of a number literal: [e] or [E], a sign or none, digits. *)
Definition parse_exponent (s : string) : option (Z * string) :=
  match s with
  | String c s' =>
      if Ascii.eqb c "e" || Ascii.eqb c "E" then
        let (negative, s1) :=
          match s' with
          | String g s'' =>
              if Ascii.eqb g "-" then (true, s'')
              else if Ascii.eqb g "+" then (false, s'')
              else (false, s')
          | EmptyString => (false, s')
          end in
        match span_digits s1 with
        | (EmptyString, _) => None
        | (ds, rest) =>
            Some (if negative then (- digits_value ds)%Z else digits_value ds, rest)
        end
      else Some (0%Z, s)
  | EmptyString => Some (0%Z, s)
  end.

(** A number literal after its sign: an integer part without a
    superfluous leading zero, a fraction or none, an exponent or none.
    The digits [i] and [f] of the integer part and of the fraction and the
    exponent [x] denote [if * 10^(x - |f|)]; the number read is the double
    nearest to that. *)
Definition parse_unsigned_number (negative : bool) (s : string)
  : option (option Z * string) :=
  let (ds, rest) := span_digits s in
  match ds with
  | EmptyString => None
  | String d ds' =>
      if Ascii.eqb d "0" && negb (String.eqb ds' EmptyString) then None
      else
        match parse_fraction rest with
        | None => None
        | Some (fs, rest1) =>
            match parse_exponent rest1 with
            | None => None
            | Some (x, rest2) =>
                let mantissa := digits_value (ds +++ fs) in
                let scale := (x - Z.of_nat (String.length fs))%Z in
                Some (if (0 <=? scale)%Z
                      then safe_integer_of_ratio negative
                             (mantissa * 10 ^ scale)%Z 1%Z
                      else safe_integer_of_ratio negative
                             mantissa (10 ^ (- scale))%Z,
                      rest2)
            end
        end
  end.

(** A number literal: a minus sign or none, and the rest. *)
Definition parse_number (s : string) : option (option Z * string) :=
  match s with
  | String c s' =>
      if Ascii.eqb c "-" then parse_unsigned_number true s'
      else parse_unsigned_number false s
  | EmptyString => parse_unsigned_number false s
  end.

(** What is left of [s] after the prefix [p], if [s] starts with [p]. *)
Fixpoint strip_prefix (p s : string) : option string :=
  match p, s with
  | EmptyString, _ => Some s
  | String a p', String b s' =>
      if Ascii.eqb a b then strip_prefix p' s' else None
  | String _ _, EmptyString => None
  end.

Definition parse_literal (lit : string) (v : Value) (s : string)
  : option (option Value * string) :=
  match strip_prefix lit s with
  | Some rest => Some (Some v, rest)
  | None => None
  end.

(** [CreateDataProperty] for each member in turn: a repeated key keeps its
    first position and takes the last value. *)
Definition object_of_members (ms : list (string * Value)) : Obj :=
  fold_left (fun o kv => set o (fst kv) (snd kv)) ms [].

(** One more element, or member, in front of those read. *)
Definition cons_read {A} (a : option A) (l : option (list A)) : option (list A) :=
  match a, l with
  | Some a, Some l => Some (a :: l)
  | _, _ => None
  end.

Definition member_read (k : option string) (v : option Value)
  : option (string * Value) :=
  match k, v with
  | Some k, Some v => Some (k, v)
  | _, _ => None
  end.

Fixpoint parse_value (fuel : nat) (s : string) : option (option Value * string) :=
  match fuel with
  | O => None
  | S fuel =>
      match skip_ws s with
      | EmptyString => None
      | String c rest =>
          if Ascii.eqb c "{" then
            match skip_ws rest with
            | EmptyString => None
            | String c' rest' =>
                if Ascii.eqb c' "}" then Some (Some (VObj []), rest')
                else match parse_members fuel rest with
                     | Some (ms, r) =>
                         Some (option_map (fun ms => VObj (object_of_members ms)) ms,
                               r)
                     | None => None
                     end
            end
          else if Ascii.eqb c "[" then
            match skip_ws rest with
            | EmptyString => None
            | String c' rest' =>
                if Ascii.eqb c' "]" then Some (Some (VArr []), rest')
                else match parse_elements fuel rest with
                     | Some (vs, r) => Some (option_map VArr vs, r)
                     | None => None
                     end
            end
          else if Ascii.eqb c dquote then
            match parse_string_body rest with
            | Some (str, r) => Some (option_map VStr str, r)
            | None => None
            end
          else if Ascii.eqb c "t" then parse_literal "true" (VBool true) (String c rest)
          else if Ascii.eqb c "f" then parse_literal "false" (VBool false) (String c rest)
          else if Ascii.eqb c "n" then parse_literal "null" VNull (String c rest)
          else match parse_number (String c rest) with
               | Some (n, r) => Some (option_map VNum n, r)
               | None => None
               end
      end
  end

with parse_elements (fuel : nat) (s : string)
  : option (option (list Value) * string) :=
  match fuel with
  | O => None
  | S fuel =>
      match parse_value fuel s with
      | None => None
      | Some (v, rest) =>
          match skip_ws rest with
          | EmptyString => None
          | String c rest' =>
              if Ascii.eqb c "," then
                match parse_elements fuel rest' with
                | Some (vs, r) => Some (cons_read v vs, r)
                | None => None
                end
              else if Ascii.eqb c "]" then Some (cons_read v (Some []), rest')
              else None
          end
      end
  end

with parse_members (fuel : nat) (s : string)
  : option (option (list (string * Value)) * string) :=
  match fuel with
  | O => None
  | S fuel =>
      match skip_ws s with
      | EmptyString => None
      | String q rest =>
          if Ascii.eqb q dquote then
            match parse_string_body rest with
            | None => None
            | Some (k, rest1) =>
                match skip_ws rest1 with
                | EmptyString => None
                | String c rest2 =>
                    if Ascii.eqb c ":" then
                      match parse_value fuel rest2 with
                      | None => None
                      | Some (v, rest3) =>
                          match skip_ws rest3 with
                          | EmptyString => None
                          | String c' rest4 =>
                              if Ascii.eqb c' "," then
                                match parse_members fuel rest4 with
                                | Some (ms, r) =>
                                    Some (cons_read (member_read k v) ms, r)
                                | None => None
                                end
                              else if Ascii.eqb c' "}" then
                                Some (cons_read (member_read k v) (Some []), rest4)
                              else None
                          end
                      end
                    else None
                end
            end
          else None
      end
  end.

(** Values of the model that [JSON.stringify] renders without loss: null,
    booleans, safe integers, strings, arrays of such values, and objects
    of such values under distinct keys. *)
Fixpoint distinct (ks : list string) : bool :=
  match ks with
  | [] => true
  | k :: ks' => negb (existsb (String.eqb k) ks') && distinct ks'
  end.

Fixpoint isJSON (v : Value) : bool :=
  match v with
  | VNull | VBool _ | VStr _ => true
  | VNum n => is_safe_integer n
  | VArr elems => forallb isJSON elems
  | VObj props =>
      distinct (map fst props) && forallb (fun kv => isJSON (snd kv)) props
  | VUndefined | VDate _ | VBuffer _ | VBeyond _ => false
  end.

(** What may follow a value inside a JSON text: nothing, a comma, or a
    closing bracket. *)
Definition delimited (rest : string) : Prop :=
  match rest with
  | EmptyString => True
  | String c _ => c = ","%char \/ c = "]"%char \/ c = "}"%char
  end.

(** Induction over values that reaches array elements and property
    values. *)
Section ValueInduction.
Variable P : Value -> Prop.
Hypothesis Hundefined : P VUndefined.
Hypothesis Hnull : P VNull.
Hypothesis Hbool : forall b, P (VBool b).
Hypothesis Hnum : forall n, P (VNum n).
Hypothesis Hstr : forall s, P (VStr s).
Hypothesis Harr : forall elems, Forall P elems -> P (VArr elems).
Hypothesis Hobj : forall props, Forall (fun kv => P (snd kv)) props -> P (VObj props).
Hypothesis Hdate : forall t, P (VDate t).
Hypothesis Hbuffer : forall bytes, P (VBuffer bytes).
Hypothesis Hbeyond : forall json, P (VBeyond json).

Fixpoint Value_nested_ind (v : Value) : P v :=
  match v with
  | VUndefined => Hundefined
  | VNull => Hnull
  | VBool b => Hbool b
  | VNum n => Hnum n
  | VStr s => Hstr s
  | VArr elems =>
      Harr elems
        ((fix all (l : list Value) : Forall P l :=
            match l with
            | [] => Forall_nil P
            | x :: l' => Forall_cons x (Value_nested_ind x) (all l')
            end) elems)
  | VObj props =>
      Hobj props
        ((fix all (l : list (string * Value)) : Forall (fun kv => P (snd kv)) l :=
            match l with
            | [] => Forall_nil _
            | kv :: l' => Forall_cons kv (Value_nested_ind (snd kv)) (all l')
            end) props)
  | VDate t => Hdate t
  | VBuffer bytes => Hbuffer bytes
  | VBeyond json => Hbeyond json
  end.
End ValueInduction.

(** The text of an array element: [undefined] is written as null. *)
Definition render_element (v : Value) : string :=
  match SerializeJSONProperty v with Some s => s | None => "null" end.

(** The text of an object member, if its value has one. *)
Definition render_member (kv : string * Value) : list string :=
  match SerializeJSONProperty (snd kv) with
  | Some s => [QuoteJSONString (fst kv) +++ ":" +++ s]
  | None => []
  end.

(** Reading back the text of [v], followed by anything that can follow a
    value, yields [v] and leaves what followed. *)
Definition parses_back (v : Value) : Prop :=
  isJSON v = true ->
  forall s, SerializeJSONProperty v = Some s ->
  forall fuel rest,
    (String.length s <= fuel)%nat -> delimited rest ->
    parse_value fuel (s +++ rest) = Some (Some v, rest).

(** What [JSON.parse(s)] does: it returns a value of the model, or a
    value beyond the model (an object or an array, or else a number or a
    string), or it throws a [SyntaxError]. *)
Inductive JSONText : Type :=
| Reads (v : Value)
| ReadsBeyond (object : bool)
| SyntaxError.

Definition starts_object (s : string) : bool :=
  match s with
  | String c _ => Ascii.eqb c "[" || Ascii.eqb c "{"
  | EmptyString => false
  end.

Definition JSON_parse (s : string) : JSONText :=
  match parse_value (String.length s) s with
  | Some (r, rest) =>
      match skip_ws rest with
      | EmptyString =>
          match r with
          | Some v => Reads v
          | None => ReadsBeyond (starts_object (skip_ws s))
          end
      | String _ _ => SyntaxError
      end
  | None => SyntaxError
  end.

End JS.

(** ** utils/types: conditions, joins, options *)

Module Types.
Import JS.

(** A reference to an entity class ([typeof Entity]): the table name it
    declares, the conversion kinds registered for its properties
    ([getPropertyType]) and its [validate] hook. *)
Inductive EntityPropertyType : Type := JSON | DATE.

Inductive ValidateResult : Type :=
| Valid                       (* [true] *)
| Invalid (message : string). (* an error message *)

Record EntityClass : Type := {
  EntityName : string;
  getPropertyType : string -> option EntityPropertyType;
  validate : Obj -> ValidateResult
}.

Inductive WhereOperator : Type :=
| OpEq | OpNe | OpGt | OpLt | OpGe | OpLe | OpLike | OpIn | OpIs.

Definition WhereOperator_str (op : WhereOperator) : string :=
  match op with
  | OpEq => "=" | OpNe => "!=" | OpGt => ">" | OpLt => "<"
  | OpGe => ">=" | OpLe => "<=" | OpLike => "LIKE" | OpIn => "IN"
  | OpIs => "IS"
  end.

Inductive Connector : Type := AND | OR.

Definition Connector_str (c : Connector) : string :=
  match c with AND => "AND" | OR => "OR" end.

(** [WhereExpression]: a [WhereCondition] (field, value, optional operator)
    or a [WhereComposite] (connectors, prepositions). *)
Inductive Where : Type :=
| WhereCondition (field : string) (value : Value) (operator : option WhereOperator)
| WhereComposite (connectors : Connector) (prepositions : list Where).

(** Induction over condition trees that reaches the prepositions of a
    composite. *)
Section WhereInduction.
Variable P : Where -> Prop.
Hypothesis Hcond : forall f v op, P (WhereCondition f v op).
Hypothesis Hcomp : forall c ps, Forall P ps -> P (WhereComposite c ps).

Fixpoint Where_nested_ind (w : Where) : P w :=
  match w with
  | WhereCondition f v op => Hcond f v op
  | WhereComposite c ps =>
      Hcomp c ps
        ((fix all (l : list Where) : Forall P l :=
            match l with
            | [] => Forall_nil P
            | x :: l' => Forall_cons x (Where_nested_ind x) (all l')
            end) ps)
  end.
End WhereInduction.

(** [SetCondition]: field, value, optional operator; [Set] is one
    condition or an array of them. *)
Inductive SetOperator : Type := SetAssign | SetIncrement | SetDecrement.

Record SetCondition : Type := {
  sc_field : string;
  sc_value : Value;
  sc_operator : option SetOperator
}.

Inductive SetClause : Type :=
| SetOne (cond : SetCondition)
| SetMany (conds : list SetCondition).

(** [JoinWhere = { targetTable? } & Where] *)
Record JoinWhere : Type := {
  targetTable : option EntityClass;
  jw_where : Where
}.

Inductive Direction : Type := ASC | DESC.

Definition Direction_str (d : Direction) : string :=
  match d with ASC => "ASC" | DESC => "DESC" end.

Record OrderBy : Type := {
  ob_table : option EntityClass;
  ob_field : string;
  direction : Direction
}.

Inductive JoinType : Type := LEFT | RIGHT | INNER.

Definition JoinType_str (t : JoinType) : string :=
  match t with LEFT => "LEFT" | RIGHT => "RIGHT" | INNER => "INNER" end.

Record Join : Type := {
  leftTable : option EntityClass;
  rightTable : EntityClass;
  on_left : string;
  on_right : string;
  j_fields : option (list string);
  j_type : option JoinType;
  j_where : option JoinWhere;
  j_orderBy : option (list OrderBy)
}.

(** [SelectOptions = { fields? } & Options] *)
Record SelectOptions : Type := {
  fields : option (list string);
  joins : option (list Join);
  limit : option Z;
  offset : option Z;
  orderBy : option (list OrderBy)
}.

(** Errors that travel through the library.  [EntityValidationError] is
    the library's own; [Error] is a plain [Error] with its message;
    [TypeError] is raised by the runtime; [ExecutionError] stands for
    whatever the connection rejects with. *)
Inductive JsError : Type :=
| EntityValidationError (message : string)
| Error (message : string)
| TypeError (message : string)
| ExecutionError (code : string).

(** [new EntityValidationError(msg)]: [super(msg ?? "...")] *)
Definition new_EntityValidationError (msg : option string) : JsError :=
  EntityValidationError
    (match msg with
     | Some m => m
     | None => "The entity's state failed the validation checks"
     end).

(** How an asynchronous call settles: resolved with a value or rejected
    with an error. *)
Inductive Outcome (A : Type) : Type :=
| Returned (a : A)
| Thrown (e : JsError).
Arguments Returned {A} a.
Arguments Thrown {A} e.

End Types.

(** ** src/entity.model.ts *)

Module EntityModel.
Import JS Types.

(** What a constructor call may do: return the new object or throw. *)
Inductive Construction : Type :=
| Constructed (e : Obj)
| Raised (err : JsError).

(** The value [init] assigns for property [prop] given the raw [value]
    ([finalValue] in the loop body). *)
Definition finalValue (rt : Runtime) (cls : EntityClass) (prop : string)
    (value : Value) : Value :=
  match getPropertyType cls prop, value with
  | Some JSON, VStr s =>
      match JSON_parse s with
      | Reads parsed =>
          if typeof_object parsed && negb (is_null parsed) then parsed else value
      | ReadsBeyond true => VBeyond (JSON_restringify rt s)
      | ReadsBeyond false => value
      | SyntaxError => value
      end
  | Some DATE, VStr s =>
      match new_Date rt value with
      | Some t => VDate (Some t)
      | None => value
      end
  | _, _ => value
  end.

(** [init(attributes)], started on the object [this]. *)
Definition init (rt : Runtime) (cls : EntityClass) (this : Obj)
    (attributes : Obj) : Obj :=
  fold_left
    (fun this prop =>
       if hasOwnProperty attributes prop
       then set this prop (finalValue rt cls prop (get attributes prop))
       else this)
    (keys attributes) this.

(** [new EntityClass(attributes)]: [init], then [validate]; anything but
    [true] from [validate] throws. *)
Definition construct (rt : Runtime) (cls : EntityClass) (attributes : Obj)
  : Construction :=
  let this := init rt cls [] attributes in
  match validate cls this with
  | Valid => Constructed this
  | Invalid validationResult =>
      Raised (new_EntityValidationError (Some validationResult))
  end.

(** [set(attributes)], the helper behind [update]. *)
Definition set_attributes (this : Obj) (attributes : Obj) : Obj :=
  fold_left
    (fun this prop =>
       if hasOwnProperty attributes prop
       then set this prop (get attributes prop)
       else this)
    (keys attributes) this.

(** [filterToEntity(obj, keys)]: the listed keys whose value in [obj] is
    not undefined, copied into a new object. *)
Definition filterToEntity (obj : Obj) (ks : list string) : Obj :=
  fold_left
    (fun result key =>
       if negb (is_undefined (get obj key))
       then set result key (get obj key)
       else result)
    ks [].

(** ['YYYY-MM-DD HH:MM:SS'] from a valid time value. *)
Definition formatDate (t : Z) : string :=
  replace1 "T" " " (slice0 19 (toISOString t)).

(** What the body of the loop of [toDBRecord] leaves in [record[key]]
    when it found [value] there. *)
Definition dbValue (rt : Runtime) (cls : EntityClass) (key : string)
    (value : Value) : Value :=
  if is_undefined value then VNull
  else
    match getPropertyType cls key with
    | Some JSON =>
        if typeof_object value && negb (is_null value)
        then JSON_stringify value
        else value
    | propertyType =>
        if (match propertyType with Some DATE => true | _ => false end)
           || instanceof_Date value
        then
          let dateObject :=
            match value with
            | VDate t => t
            | _ => new_Date rt value
            end in
          match dateObject with
          | Some t => VStr (formatDate t)
          | None => value
          end
        else if typeof_object value && negb (is_null value)
                && negb (instanceof_Buffer value)
        then JSON_stringify value
        else value
    end.

(** [toDBRecord()] on the entity [this]: the record starts as a shallow
    copy, every own key is visited once, [_joins] is deleted at the end. *)
Definition toDBRecord (rt : Runtime) (cls : EntityClass) (this : Obj) : Obj :=
  let record := this in
  let record :=
    fold_left
      (fun record key =>
         if hasOwnProperty record key
         then set record key (dbValue rt cls key (get record key))
         else record)
      (keys record) record in
  delete record "_joins".

(** *** Serializing and hydrating again *)

(** The object [init] fills from the record [toDBRecord] makes of [e]. *)
Definition hydrate_serialized (rt : Runtime) (cls : EntityClass) (e : Obj)
  : Obj :=
  init rt cls [] (toDBRecord rt cls e).

(** A Date cut to whole seconds; any other value as it is. *)
Definition truncated (v : Value) : Value :=
  match v with
  | VDate (Some t) => VDate (Some (t - t mod 1000)%Z)
  | _ => v
  end.

(** A string that [JSON.parse] reads as an object or an array. *)
Definition json_text_of_object (v : Value) : bool :=
  match v with
  | VStr s =>
      match JSON_parse s with
      | Reads parsed => typeof_object parsed && negb (is_null parsed)
      | ReadsBeyond object => object
      | SyntaxError => false
      end
  | _ => false
  end.

(** Field [k] of [e] survives serialization and hydration, up to the
    truncation of dates. *)
Definition round_trips (rt : Runtime) (cls : EntityClass) (e : Obj)
    (k : string) : Prop :=
  lookup (hydrate_serialized rt cls e) k = option_map truncated (lookup e k).

(** *** The same method on a store of objects

    Objects live in a store and are named by their position in it, so
    that the entity and the record built from it are two objects and
    every write names the one it goes to. *)

Definition Store : Type := list Obj.
Definition Ref : Type := nat.

Definition deref (st : Store) (r : Ref) : Obj := nth r st [].

Fixpoint modify (st : Store) (r : Ref) (f : Obj -> Obj) : Store :=
  match st, r with
  | [], _ => []
  | o :: st', O => f o :: st'
  | o :: st', S r' => o :: modify st' r' f
  end.

(** [{ ...obj }]: a new object with the own properties of [obj]. *)
Definition spread (st : Store) (r : Ref) : Ref * Store :=
  (length st, st ++ [deref st r]).

(** [obj[key] = v] and [delete obj[key]] *)
Definition assign (st : Store) (r : Ref) (key : string) (v : Value) : Store :=
  modify st r (fun o => set o key v).
Definition delete_property (st : Store) (r : Ref) (key : string) : Store :=
  modify st r (fun o => delete o key).

Definition toDBRecord_in (rt : Runtime) (cls : EntityClass) (st : Store)
    (this : Ref) : Ref * Store :=
  let (record, st) := spread st this in
  let st :=
    fold_left
      (fun st key =>
         if hasOwnProperty (deref st record) key
         then assign st record key
                (dbValue rt cls key (get (deref st record) key))
         else st)
      (keys (deref st record)) st in
  (record, delete_property st record "_joins").

End EntityModel.

(** ** src/GenericDAO.ts *)

Module DAO.
Import JS Types EntityModel.

(** *** The execution collaborator *)

(** A bound parameter: a JavaScript value, or an entity class object (the
    join ordering of [selectWhere] passes [join.leftTable] itself). *)
Inductive SqlParam : Type :=
| PVal (v : Value)
| PClass (c : EntityClass).

Definition PStr (s : string) : SqlParam := PVal (VStr s).
Definition PNum (n : Z) : SqlParam := PVal (VNum n).

Record Query : Type := { sql : string; params : list SqlParam }.

(** What [connection.query] resolves to (first component of the pair
    mysql2 returns): an array of rows or a result header object. *)
Inductive QueryResult : Type :=
| Rows (rows : list Obj)
| ResultSetHeader (header : Obj).

(** The connection ([Pool | Connection]) is a deterministic function of the
    statements issued so far and the statement at hand. *)
Record Connection : Type := {
  respond : list Query -> Query -> Outcome QueryResult
}.

(** The observable world of a DAO call: the statements handed to the
    execution layer, in order, and what was written with [console.error]. *)
Record World : Type := {
  issued : list Query;
  console : list (string * JsError)
}.

Definition M (A : Type) : Type := World -> Outcome A * World.

Definition ret {A} (a : A) : M A := fun w => (Returned a, w).
Definition throw {A} (e : JsError) : M A := fun w => (Thrown e, w).
Definition bind {A B} (m : M A) (k : A -> M B) : M B :=
  fun w => match m w with
           | (Returned a, w') => k a w'
           | (Thrown e, w') => (Thrown e, w')
           end.
(** [try { m } catch (error) { h error }] *)
Definition try_catch {A} (m : M A) (h : JsError -> M A) : M A :=
  fun w => match m w with
           | (Returned a, w') => (Returned a, w')
           | (Thrown e, w') => h e w'
           end.
Definition console_error (label : string) (e : JsError) : M unit :=
  fun w => (Returned tt, {| issued := issued w; console := console w ++ [(label, e)] |}).
(** [await connection.query(sql, params)] *)
Definition connection_query (c : Connection) (q : string) (ps : list SqlParam)
  : M QueryResult :=
  fun w =>
    let qu := {| sql := q; params := ps |} in
    (respond c (issued w) qu,
     {| issued := issued w ++ [qu]; console := console w |}).

Notation "x <- m ;; k" := (bind m (fun x => k))
  (at level 61, m at next level, right associativity).

(** Placeholders of a statement template, as the execution layer reads
    them: a maximal run of one question mark is a value placeholder, a run
    of two is an identifier placeholder, longer runs are left alone. *)
Definition close_run (run : nat) : nat :=
  match run with
  | 1 | 2 => 1
  | _ => 0
  end%nat.

Fixpoint scanPlaceholders (run : nat) (s : string) : nat :=
  match s with
  | EmptyString => close_run run
  | String c s' =>
      if Ascii.eqb c "?" then scanPlaceholders (S run) s'
      else (close_run run + scanPlaceholders 0 s')%nat
  end.

Definition countPlaceholders (s : string) : nat := scanPlaceholders 0 s.

(** *** The DAO *)

Record GenericDAO : Type := {
  connection : Connection;
  entityName : string;
  EntityClass : Types.EntityClass
}.

(** [buildWhereClause(where, params, EntityName = this.entityName)].
    [params] is the array the caller passes in; the array after the pushes
    is returned next to the clause. *)
Fixpoint buildWhereClause (this : GenericDAO) (where_ : Where)
    (params : list SqlParam) (EntityName : option string)
    : string * list SqlParam :=
  let EntityName :=
    match EntityName with Some n => n | None => entityName this end in
  match where_ with
  | WhereComposite connectors prepositions =>
      let clauses :=
        (fix map_preps (preps : list Where) (params : list SqlParam)
           : list string * list SqlParam :=
           match preps with
           | [] => ([], params)
           | prep :: preps' =>
               let (clause, params1) := buildWhereClause this prep params None in
               let (clauses', params2) := map_preps preps' params1 in
               (clause :: clauses', params2)
           end) prepositions params in
      ("(" +++ join (" " +++ Connector_str connectors +++ " ") (fst clauses) +++ ")",
       snd clauses)
  | WhereCondition field value operator =>
      let operator := match operator with Some op => op | None => OpEq end in
      let params' := params ++ [PStr EntityName; PStr field; PVal value] in
      (match operator with
       | OpIn => "??.?? " +++ WhereOperator_str operator +++ " (?)"
       | _ => "??.?? " +++ WhereOperator_str operator +++ " ?"
       end,
       params')
  end.

(** The same traversal named on its own, for statements about a list of
    prepositions. *)
Fixpoint map_buildWhereClause (this : GenericDAO) (preps : list Where)
    (params : list SqlParam) : list string * list SqlParam :=
  match preps with
  | [] => ([], params)
  | prep :: preps' =>
      let (clause, params1) := buildWhereClause this prep params None in
      let (clauses', params2) := map_buildWhereClause this preps' params1 in
      (clause :: clauses', params2)
  end.

(** The comparisons of a condition tree in pre-order, left to right: the
    order in which the specification says parameters are bound. *)
Fixpoint comparisons (w : Where) : list (string * Value) :=
  match w with
  | WhereCondition field value _ => [(field, value)]
  | WhereComposite _ prepositions => flat_map comparisons prepositions
  end.

(** The parameter triple of one comparison qualified with [table]. *)
Definition comparison_params (table : string) (c : string * Value)
  : list SqlParam :=
  [PStr table; PStr (fst c); PVal (snd c)].

(** The table each comparison of [w] is qualified with, in the same order:
    the comparison at the root takes the table handed to the call, the
    comparisons below a composite take the DAO's own table. *)
Definition qualifiers (this : GenericDAO) (EntityName : option string)
    (w : Where) : list string :=
  match w with
  | WhereCondition _ _ _ =>
      [match EntityName with Some n => n | None => entityName this end]
  | WhereComposite _ _ => repeat (entityName this) (length (comparisons w))
  end.

Definition qualified_params (tables : list string)
    (cs : list (string * Value)) : list SqlParam :=
  flat_map (fun tc => comparison_params (fst tc) (snd tc)) (combine tables cs).

(** A suffix that cannot extend a run of question marks. *)
Definition clean_start (rest : string) : Prop :=
  match rest with
  | EmptyString => True
  | String c _ => Ascii.eqb c "?" = false
  end.

(** What one call does: the clause counts three placeholders per
    comparison, and the parameter array grows by the triples of the
    comparisons in pre-order. *)
Definition compiles_aligned (this : GenericDAO) (w : Where) : Prop :=
  forall params tbl,
    (forall rest, clean_start rest ->
       scanPlaceholders 0 (fst (buildWhereClause this w params tbl) +++ rest)
       = (3 * length (comparisons w) + scanPlaceholders 0 rest)%nat)
    /\ snd (buildWhereClause this w params tbl)
       = params ++ qualified_params (qualifiers this tbl w) (comparisons w).

(** *** Statements *)

Definition nl : string := String "010" EmptyString.

(** JavaScript truthiness. *)
Definition truthy (v : Value) : bool :=
  match v with
  | VUndefined | VNull => false
  | VBool b => b
  | VNum n => negb (n =? 0)%Z
  | VStr s => negb (String.eqb s EmptyString)
  | VArr _ | VObj _ | VDate _ | VBuffer _ | VBeyond _ => true
  end.

Definition opt_list {A} (o : option (list A)) : list A :=
  match o with Some l => l | None => [] end.

(** The statement of [selectWhere] as it stands when the ordering has been
    added: the text and the parameter array, built in the order of the
    source. *)
Definition selectWhere_ordered (this : GenericDAO) (where_ : option Where)
    (options : option SelectOptions) : string * list SqlParam :=
  let fields := opt_list (match options with Some o => fields o | None => None end) in
  let joins := opt_list (match options with Some o => joins o | None => None end) in
  let orderBy := match options with Some o => orderBy o | None => None end in
  let query := "SELECT " in
  let params : list SqlParam := [] in
  (* main table fields *)
  let (query, params) :=
    match fields with
    | [] => (query +++ entityName this +++ ".*", params)
    | _ =>
        (query +++ join ", " (map (fun _ => "??.??") fields),
         params ++ flat_map (fun field => [PStr (entityName this); PStr field]) fields)
    end in
  (* fields selected from joined tables *)
  let query :=
    fold_left
      (fun query j =>
         let fields :=
           match j_fields j with
           | Some fs =>
               join ", "
                 (map (fun field =>
                         EntityName (rightTable j) +++ "." +++ field +++ " AS "
                         +++ EntityName (rightTable j) +++ "_" +++ field) fs)
           | None => EmptyString
           end in
         if negb (String.eqb fields EmptyString)
         then query +++ ", " +++ fields
         else query)
      joins query in
  let query := query +++ " FROM ??" in
  let params := params ++ [PStr (entityName this)] in
  (* join statements *)
  let (query, params) :=
    fold_left
      (fun (qp : string * list SqlParam) j =>
         (fst qp +++ " "
          +++ JoinType_str (match j_type j with Some t => t | None => LEFT end)
          +++ " JOIN ?? ON ?? = ??",
          snd qp
          ++ [PStr (EntityName (rightTable j));
              PStr (match leftTable j with
                    | Some l => EntityName l
                    | None => entityName this
                    end +++ "." +++ on_left j);
              PStr (EntityName (rightTable j) +++ "." +++ on_right j)]))
      joins (query, params) in
  (* the where *)
  let (query, params) :=
    match where_ with
    | Some w =>
        let (clause, params) := buildWhereClause this w params None in
        (query +++ " WHERE " +++ clause, params)
    | None => (query, params)
    end in
  (* where clauses for joined tables *)
  let (query, params) :=
    fold_left
      (fun (qp : string * list SqlParam) j =>
         match j_where j with
         | Some jw =>
             let (clause, params) :=
               buildWhereClause this (jw_where jw) (snd qp)
                 (Some (match targetTable jw with
                        | Some t => EntityName t
                        | None => EntityName (rightTable j)
                        end)) in
             (fst qp +++ " AND " +++ clause, params)
         | None => qp
         end)
      joins (query, params) in
  (* ORDER BY *)
  let '(query, params, countOrderBy) :=
    match orderBy with
    | Some (o :: os) =>
        fold_left
          (fun (st : string * list SqlParam * nat) order =>
             let '(query, params, countOrderBy) := st in
             let query :=
               if (0 <? countOrderBy)%nat then query +++ ", " else query in
             (query +++ " ??.?? " +++ Direction_str (direction order),
              params ++ [PStr (entityName this); PStr (ob_field order)],
              S countOrderBy))
          (o :: os) (query +++ " ORDER BY", params, 0%nat)
    | _ => (query, params, 0%nat)
    end in
  (* ordering asked for by the joins *)
  let '(query, params, countOrderBy) :=
    fold_left
      (fun (st : string * list SqlParam * nat) j =>
         match j_orderBy j with
         | Some orders =>
             let '(query, params, countOrderBy) := st in
             let query :=
               if negb (includes query "ORDER BY") then query +++ " ORDER BY"
               else query in
             let query :=
               if (0 <? countOrderBy)%nat then query +++ ", " else query in
             fold_left
               (fun (st : string * list SqlParam * nat) order =>
                  let '(query, params, countOrderBy) := st in
                  (query +++ "??.?? " +++ Direction_str (direction order),
                   params
                   ++ [match ob_table order with
                       | Some t => PStr (EntityName t)
                       | None =>
                           match leftTable j with
                           | Some l => PClass l
                           | None => PVal VUndefined
                           end
                       end;
                       PStr (ob_field order)],
                   S countOrderBy))
               orders (query, params, countOrderBy)
         | None => st
         end)
      joins (query, params, countOrderBy) in
  (query, params).

(** The statement [selectWhere] hands to the connection: the ordered
    statement followed by LIMIT / OFFSET. *)
Definition selectWhere_statement (this : GenericDAO) (where_ : option Where)
    (options : option SelectOptions) : string * list SqlParam :=
  let limit := match options with Some o => limit o | None => None end in
  let offset := match options with Some o => offset o | None => None end in
  let (query, params) := selectWhere_ordered this where_ options in
  match limit with
  | Some l =>
      let query := query +++ " LIMIT ?" in
      let params := params ++ [PNum l] in
      match offset with
      | Some o => (query +++ " OFFSET ?", params ++ [PNum o])
      | None => (query, params)
      end
  | None => (query, params)
  end.

(** [new this.EntityClass(data)] inside an async method. *)
Definition new_Entity (rt : Runtime) (this : GenericDAO) (data : Obj) : M Obj :=
  match construct rt (EntityClass this) data with
  | Constructed e => ret e
  | Raised err => throw err
  end.

Fixpoint mapM {A B} (f : A -> M B) (l : list A) : M (list B) :=
  match l with
  | [] => ret []
  | a :: l' => b <- f a ;; bs <- mapM f l' ;; ret (b :: bs)
  end.

(** The attributes [selectWhere] hydrates an entity from, for one row:
    the row's own fields, without the aliased join columns, and the
    [_joins] object assembled from them. *)
Definition demultiplex (fields : list string) (joins : list Join) (row : Obj)
  : Obj :=
  let entityData :=
    fold_left
      (fun entityData field =>
         if hasOwnProperty row field
         then set entityData field (get row field)
         else entityData)
      (match fields with [] => keys row | _ => fields end) [] in
  let '(entityData, joinedData) :=
    fold_left
      (fun (st : Obj * Obj) j =>
         let '(entityData, joinedData) := st in
         let table := EntityName (rightTable j) in
         let joinedData := set joinedData table (VObj []) in
         match j_fields j with
         | Some fs =>
             fold_left
               (fun (st : Obj * Obj) field =>
                  let '(entityData, joinedData) := st in
                  let rowKey := table +++ "_" +++ field in
                  if hasOwnProperty row rowKey then
                    (delete entityData rowKey,
                     set joinedData table
                       (VObj (set (match get joinedData table with
                                   | VObj o => o
                                   | _ => []
                                   end) field (get row rowKey))))
                  else st)
               fs (entityData, joinedData)
         | None => (entityData, joinedData)
         end)
      joins (entityData, []) in
  set entityData "_joins" (VObj joinedData).

(** [selectWhere(where, options)] *)
Definition selectWhere (rt : Runtime) (this : GenericDAO)
    (where_ : option Where) (options : option SelectOptions) : M (list Obj) :=
  let fields := opt_list (match options with Some o => fields o | None => None end) in
  let joins := opt_list (match options with Some o => joins o | None => None end) in
  let (query, params) := selectWhere_statement this where_ options in
  rows <- connection_query (connection this) query params ;;
  match rows with
  | Rows rows =>
      _entities <- mapM (new_Entity rt this) rows ;;
      mapM (fun row => new_Entity rt this (demultiplex fields joins row)) rows
  | ResultSetHeader _ => throw (Error "Unexpected query result format")
  end.

(** [selectAllPaginated(page, offset, options)].  The offset of the
    statement is [(page - 1) * offset] as arithmetic on numbers computes
    it. *)
Definition selectAllPaginated (rt : Runtime) (this : GenericDAO)
    (page offset_ : Z) (options : option SelectOptions) : M (list Obj) :=
  let joins_ := match options with Some o => joins o | None => None end in
  let orderBy_ := match options with Some o => orderBy o | None => None end in
  selectWhere rt this
    (Some (WhereCondition "id" (VNum 0) (Some OpGt)))
    (Some {| fields := None;
             joins := joins_;
             limit := Some offset_;
             offset := Some (Number_mul (Number_sub page 1) offset_);
             orderBy := orderBy_ |}).

(** [query(query, params)]: the first component of what the connection
    resolves to. *)
Definition query (this : GenericDAO) (q : string) (ps : list SqlParam)
  : M QueryResult :=
  connection_query (connection this) q ps.

(** [selectRandom()].  [const [result] = ...] takes the first row, or
    [undefined] from an empty array; a header object is not iterable.
    ["ID" in result] needs an object on its right. *)
Definition selectRandom (rt : Runtime) (this : GenericDAO) : M (option Obj) :=
  res <- query this
           ("SELECT * FROM ??" +++ nl +++ "       ORDER BY RAND()" +++ nl
            +++ "       LIMIT 1")
           [PStr (entityName this)] ;;
  match res with
  | ResultSetHeader _ => throw (TypeError "object is not iterable")
  | Rows [] =>
      throw (TypeError "Cannot use 'in' operator to search for 'ID' in undefined")
  | Rows (result :: _) =>
      if hasOwnProperty result "ID" && truthy (get result "ID")
      then e <- new_Entity rt this result ;; ret (Some e)
      else ret None
  end.

(** [deleteWhere(where)].  An array, empty or not, is truthy. *)
Definition deleteWhere (rt : Runtime) (this : GenericDAO)
    (where_ : option Where) : M (option (list Obj)) :=
  rows <- selectWhere rt this where_ None ;;
  let params := [PStr (entityName this)] in
  let query := "DELETE FROM ?? WHERE " in
  match where_ with
  | Some w =>
      let (clause, params) := buildWhereClause this w params None in
      let query := query +++ clause in
      _r <- connection_query (connection this) query params ;;
      ret (Some rows)
  | None => ret None
  end.

(** [upsertAll(entities)].  The label written to the console is given
    without its leading pictograph. *)
Definition upsertAll (rt : Runtime) (this : GenericDAO) (entities : list Obj)
  : M (list Z) :=
  match entities with
  | [] => ret []
  | _ :: _ =>
      let dbRecords := map (toDBRecord rt (EntityClass this)) entities in
      let columns := keys (hd [] dbRecords) in
      let values := map (fun record => map (fun col => get record col) columns) dbRecords in
      let columnNames := join ", " columns in
      let valuePlaceholders :=
        join ", "
          (map (fun _ => "(" +++ join ", " (map (fun _ => "?") columns) +++ ")")
               values) in
      let updateClauses :=
        join ", " (map (fun col => "`" +++ col +++ "` = VALUES(`" +++ col +++ "`)")
                       columns) in
      let sql :=
        nl +++ "        INSERT INTO `" +++ entityName this +++ "` ("
        +++ columnNames +++ ") " +++ nl
        +++ "        VALUES " +++ valuePlaceholders +++ nl
        +++ "        ON DUPLICATE KEY UPDATE " +++ nl
        +++ "        " +++ updateClauses +++ nl
        +++ "    " in
      let flatValues := map PVal (concat values) in
      try_catch
        (_result <- connection_query (connection this) sql flatValues ;;
         ret [])
        (fun error =>
           _u <- console_error "UpsertAll error:" error ;;
           throw error)
  end.

(** *** The other operations *)

(** What a method hands back where the source returns an entity, [null]
    or, by indexing an empty array, [undefined]. *)
Inductive EntityOrNothing : Type :=
| AnEntity (e : Obj)
| JsNull
| JsUndefined.

(** [insert(entity)].  The label written to the console is given without
    its leading pictograph. *)
Definition insert (rt : Runtime) (this : GenericDAO) (entity : Obj) : M Value :=
  try_catch
    (let data := toDBRecord rt (EntityClass this) entity in
     result <- connection_query (connection this) "INSERT INTO ?? SET ?"
                 [PStr (entityName this); PVal (VObj data)] ;;
     match result with
     | ResultSetHeader h =>
         if hasOwnProperty h "insertId" then ret (get h "insertId")
         else throw (Error "Insert failed - no insertId returned")
     | Rows _ => throw (Error "Insert failed - no insertId returned")
     end)
    (fun error =>
       _u <- console_error "Insert error:" error ;;
       throw error).

(** [insertAll(entities)] *)
Definition insertAll (rt : Runtime) (this : GenericDAO) (entities : list Obj)
  : M (list Value) :=
  match entities with
  | [] => ret []
  | first :: _ =>
      let columns := keys (toDBRecord rt (EntityClass this) first) in
      let values :=
        map (fun entity =>
               map (fun col => get (toDBRecord rt (EntityClass this) entity) col)
                   columns)
            entities in
      let placeholders :=
        join ", "
          (map (fun _ => "(" +++ join ", " (map (fun _ => "?") columns) +++ ")")
               values) in
      let sql :=
        "INSERT IGNORE INTO `" +++ entityName this +++ "` ("
        +++ join ", " columns +++ ") VALUES " +++ placeholders in
      let flatValues := map PVal (concat values) in
      result <- connection_query (connection this) sql flatValues ;;
      match result with
      | ResultSetHeader h =>
          if truthy (get h "insertId") then ret [get h "insertId"] else ret []
      | Rows _ => ret []
      end
  end.

(** [selectWhereID(id, options)]: [results[0] ?? null] *)
Definition selectWhereID (rt : Runtime) (this : GenericDAO) (id : Value)
    (options : option SelectOptions) : M (option Obj) :=
  results <- selectWhere rt this (Some (WhereCondition "id" id None)) options ;;
  ret (match results with
       | e :: _ => Some e
       | [] => None
       end).

(** The statement of [selectAll(options)]. *)
Definition selectAll_statement (this : GenericDAO)
    (options : option SelectOptions) : string * list SqlParam :=
  let limit := match options with Some o => limit o | None => None end in
  let offset := match options with Some o => offset o | None => None end in
  let orderBy := match options with Some o => orderBy o | None => None end in
  let query := "SELECT * FROM ??" in
  let params := [PStr (entityName this)] in
  let (query, params) :=
    match orderBy with
    | Some (o :: os) =>
        fold_left
          (fun (qp : string * list SqlParam) order =>
             (fst qp +++ " ??.?? " +++ Direction_str (direction order),
              snd qp ++ [PStr (entityName this); PStr (ob_field order)]))
          (o :: os) (query +++ " ORDER BY", params)
    | _ => (query, params)
    end in
  match limit with
  | Some l =>
      let query := query +++ " LIMIT ?" in
      let params := params ++ [PNum l] in
      match offset with
      | Some o => (query +++ " OFFSET ?", params ++ [PNum o])
      | None => (query, params)
      end
  | None => (query, params)
  end.

(** [selectAll(options)] *)
Definition selectAll (rt : Runtime) (this : GenericDAO)
    (options : option SelectOptions) : M (list Obj) :=
  let (query, params) := selectAll_statement this options in
  rows <- connection_query (connection this) query params ;;
  match rows with
  | Rows rows => mapM (new_Entity rt this) rows
  | ResultSetHeader _ => throw (Error "Unexpected query result format")
  end.

(** [count()].  The whole pair the connection resolves to is kept in
    [result], so [result[0]] is the row array (or the header) and
    [.count] is read off that. *)
Definition count (this : GenericDAO) : M Value :=
  result <- connection_query (connection this)
              "SELECT COUNT(*) AS count FROM ??" [PStr (entityName this)] ;;
  ret (match result with
       | Rows _ => VUndefined
       | ResultSetHeader h => get h "count"
       end).

(** The statement of [countWhere(where)]. *)
Definition countWhere_statement (this : GenericDAO) (where_ : option Where)
  : string * list SqlParam :=
  let query := "SELECT COUNT(*) AS count FROM ??" in
  let params := [PStr (entityName this)] in
  match where_ with
  | Some w =>
      let (clause, params) := buildWhereClause this w params None in
      (query +++ " WHERE " +++ clause, params)
  | None => (query, params)
  end.

(** [countWhere(where)]: [rows[0].count] *)
Definition countWhere (this : GenericDAO) (where_ : option Where) : M Value :=
  let (query, params) := countWhere_statement this where_ in
  rows <- connection_query (connection this) query params ;;
  match rows with
  | Rows (row :: _) => ret (get row "count")
  | Rows [] =>
      throw (TypeError "Cannot read properties of undefined (reading 'count')")
  | ResultSetHeader _ =>
      throw (TypeError "Cannot read properties of undefined (reading 'count')")
  end.

(** [update(entity)] *)
Definition update (rt : Runtime) (this : GenericDAO) (entity : Obj) : M Obj :=
  _r <- connection_query (connection this) "UPDATE ?? SET ? WHERE id = ?"
          [PStr (entityName this);
           PVal (VObj (toDBRecord rt (EntityClass this) entity));
           PVal (get entity "id")] ;;
  new_Entity rt this entity.

(** [buildSetClause(set, params)] *)
Definition buildSetClause (set_ : SetClause) (params : list SqlParam)
  : string * list SqlParam :=
  let conditions :=
    match set_ with SetMany conds => conds | SetOne cond => [cond] end in
  let clauses :=
    fold_left
      (fun (st : list string * list SqlParam) cond =>
         let op := match sc_operator cond with Some op => op | None => SetAssign end in
         match op with
         | SetIncrement =>
             (fst st ++ ["?? = ?? + ?"],
              snd st ++ [PStr (sc_field cond); PStr (sc_field cond);
                         PVal (sc_value cond)])
         | SetDecrement =>
             (fst st ++ ["?? = ?? - ?"],
              snd st ++ [PStr (sc_field cond); PStr (sc_field cond);
                         PVal (sc_value cond)])
         | SetAssign =>
             (fst st ++ ["?? = ?"],
              snd st ++ [PStr (sc_field cond); PVal (sc_value cond)])
         end)
      conditions ([], params) in
  (join ", " (fst clauses), snd clauses).

(** The statement of [updateWhere(where, set)]. *)
Definition updateWhere_statement (this : GenericDAO) (where_ : option Where)
    (set_ : SetClause) : string * list SqlParam :=
  let query := "UPDATE ?? SET" in
  let params := [PStr (entityName this)] in
  let (clause, params) := buildSetClause set_ params in
  let query := query +++ clause in
  match where_ with
  | Some w =>
      let (clause, params) := buildWhereClause this w params None in
      (query +++ " WHERE " +++ clause, params)
  | None => (query, params)
  end.

(** [updateWhere(where, set)]: [result.affectedRows] *)
Definition updateWhere (this : GenericDAO) (where_ : option Where)
    (set_ : SetClause) : M Value :=
  let (query, params) := updateWhere_statement this where_ set_ in
  result <- connection_query (connection this) query params ;;
  ret (match result with
       | ResultSetHeader h => get h "affectedRows"
       | Rows _ => VUndefined
       end).

(** [deleteWhereID(id)]: [result ? result[0] : null] *)
Definition deleteWhereID (rt : Runtime) (this : GenericDAO) (id : Value)
  : M EntityOrNothing :=
  result <- deleteWhere rt this (Some (WhereCondition "ID" id None)) ;;
  ret (match result with
       | Some (e :: _) => AnEntity e
       | Some [] => JsUndefined
       | None => JsNull
       end).

(** [delete(entity)] *)
Definition delete_ (rt : Runtime) (this : GenericDAO) (entity : Obj)
  : M EntityOrNothing :=
  if truthy (get entity "id") then deleteWhereID rt this (get entity "id")
  else ret JsNull.

(** *** Notions used in the statements about whole statements *)

(** No question mark in [s]. *)
Fixpoint qfree (s : string) : bool :=
  match s with
  | EmptyString => true
  | String c s' => negb (Ascii.eqb c "?") && qfree s'
  end.

(** A piece of statement text that does not begin with a question mark. *)
Definition starts_clean (s : string) : Prop :=
  match s with
  | EmptyString => False
  | String c _ => Ascii.eqb c "?" = false
  end.

(** Text that, read from outside any run of question marks, holds [n]
    placeholders whatever clean text follows ([open]: it may end in a
    question mark) or whatever follows at all ([rclosed]). *)
Definition open (s : string) (n : nat) : Prop :=
  forall rest, clean_start rest ->
    scanPlaceholders 0 (s +++ rest) = (n + scanPlaceholders 0 rest)%nat.

Definition rclosed (s : string) (n : nat) : Prop :=
  forall rest,
    scanPlaceholders 0 (s +++ rest) = (n + scanPlaceholders 0 rest)%nat.

(** The text and the parameters of one assignment of a SET clause. *)
Definition set_text (cond : SetCondition) : string :=
  match sc_operator cond with
  | Some SetIncrement => "?? = ?? + ?"
  | Some SetDecrement => "?? = ?? - ?"
  | _ => "?? = ?"
  end.

Definition set_params (cond : SetCondition) : list SqlParam :=
  match sc_operator cond with
  | Some SetIncrement | Some SetDecrement =>
      [PStr (sc_field cond); PStr (sc_field cond); PVal (sc_value cond)]
  | _ => [PStr (sc_field cond); PVal (sc_value cond)]
  end.

Definition set_conditions (set_ : SetClause) : list SetCondition :=
  match set_ with SetMany conds => conds | SetOne cond => [cond] end.

(** The statement of [selectWhere], one step of the source at a time; the
    composition of the steps is [selectWhere_ordered]. *)
Definition select_fields (this : GenericDAO) (fields : list string)
  : string * list SqlParam :=
  match fields with
  | [] => ("SELECT " +++ entityName this +++ ".*", [])
  | _ =>
      ("SELECT " +++ join ", " (map (fun _ => "??.??") fields),
       [] ++ flat_map (fun field => [PStr (entityName this); PStr field]) fields)
  end.

Definition select_join_fields (joins : list Join) (query : string) : string :=
  fold_left
    (fun query j =>
       let fields :=
         match j_fields j with
         | Some fs =>
             join ", "
               (map (fun field =>
                       EntityName (rightTable j) +++ "." +++ field +++ " AS "
                       +++ EntityName (rightTable j) +++ "_" +++ field) fs)
         | None => EmptyString
         end in
       if negb (String.eqb fields EmptyString)
       then query +++ ", " +++ fields
       else query)
    joins query.

Definition select_joins (this : GenericDAO) (joins : list Join)
    (qp : string * list SqlParam) : string * list SqlParam :=
  fold_left
    (fun (qp : string * list SqlParam) j =>
       (fst qp +++ " "
        +++ JoinType_str (match j_type j with Some t => t | None => LEFT end)
        +++ " JOIN ?? ON ?? = ??",
        snd qp
        ++ [PStr (EntityName (rightTable j));
            PStr (match leftTable j with
                  | Some l => EntityName l
                  | None => entityName this
                  end +++ "." +++ on_left j);
            PStr (EntityName (rightTable j) +++ "." +++ on_right j)]))
    joins qp.

Definition select_where (this : GenericDAO) (where_ : option Where)
    (qp : string * list SqlParam) : string * list SqlParam :=
  match where_ with
  | Some w =>
      let (clause, params) := buildWhereClause this w (snd qp) None in
      (fst qp +++ " WHERE " +++ clause, params)
  | None => qp
  end.

Definition select_join_wheres (this : GenericDAO) (joins : list Join)
    (qp : string * list SqlParam) : string * list SqlParam :=
  fold_left
    (fun (qp : string * list SqlParam) j =>
       match j_where j with
       | Some jw =>
           let (clause, params) :=
             buildWhereClause this (jw_where jw) (snd qp)
               (Some (match targetTable jw with
                      | Some t => EntityName t
                      | None => EntityName (rightTable j)
                      end)) in
           (fst qp +++ " AND " +++ clause, params)
       | None => qp
       end)
    joins qp.

Definition select_order (this : GenericDAO) (orderBy : option (list OrderBy))
    (qp : string * list SqlParam) : string * list SqlParam * nat :=
  match orderBy with
  | Some (o :: os) =>
      fold_left
        (fun (st : string * list SqlParam * nat) order =>
           let '(query, params, countOrderBy) := st in
           let query :=
             if (0 <? countOrderBy)%nat then query +++ ", " else query in
           (query +++ " ??.?? " +++ Direction_str (direction order),
            params ++ [PStr (entityName this); PStr (ob_field order)],
            S countOrderBy))
        (o :: os) (fst qp +++ " ORDER BY", snd qp, 0%nat)
  | _ => (fst qp, snd qp, 0%nat)
  end.

Definition select_join_orders (joins : list Join)
    (st : string * list SqlParam * nat) : string * list SqlParam * nat :=
  fold_left
    (fun (st : string * list SqlParam * nat) j =>
       match j_orderBy j with
       | Some orders =>
           let '(query, params, countOrderBy) := st in
           let query :=
             if negb (includes query "ORDER BY") then query +++ " ORDER BY"
             else query in
           let query :=
             if (0 <? countOrderBy)%nat then query +++ ", " else query in
           fold_left
             (fun (st : string * list SqlParam * nat) order =>
                let '(query, params, countOrderBy) := st in
                (query +++ "??.?? " +++ Direction_str (direction order),
                 params
                 ++ [match ob_table order with
                     | Some t => PStr (EntityName t)
                     | None =>
                         match leftTable j with
                         | Some l => PClass l
                         | None => PVal VUndefined
                         end
                     end;
                     PStr (ob_field order)],
                 S countOrderBy))
             orders (query, params, countOrderBy)
       | None => st
       end)
    joins st.

(** Names that go into the statement text as they are hold no question
    mark, and no join asks for an ordering of its own. *)
Definition plain_join (j : Join) : bool :=
  qfree (EntityName (rightTable j))
  && forallb qfree (opt_list (j_fields j))
  && match j_orderBy j with None => true | Some _ => false end.

Definition plain_select (this : GenericDAO) (options : option SelectOptions)
  : bool :=
  qfree (entityName this)
  && forallb plain_join
       (opt_list (match options with Some o => joins o | None => None end)).

(** The steps of [demultiplex]: the row's own fields, then one join and
    one of its fields at a time. *)
Definition own_fields (fields : list string) (row : Obj) : Obj :=
  fold_left
    (fun entityData field =>
       if hasOwnProperty row field
       then set entityData field (get row field)
       else entityData)
    (match fields with [] => keys row | _ => fields end) [].

Definition gather_field (row : Obj) (table : string) (st : Obj * Obj)
    (field : string) : Obj * Obj :=
  let '(entityData, joinedData) := st in
  let rowKey := table +++ "_" +++ field in
  if hasOwnProperty row rowKey then
    (delete entityData rowKey,
     set joinedData table
       (VObj (set (match get joinedData table with
                   | VObj o => o
                   | _ => []
                   end) field (get row rowKey))))
  else st.

Definition gather_join (row : Obj) (st : Obj * Obj) (j : Join) : Obj * Obj :=
  let '(entityData, joinedData) := st in
  let table := EntityName (rightTable j) in
  let joinedData := set joinedData table (VObj []) in
  match j_fields j with
  | Some fs => fold_left (gather_field row table) fs (entityData, joinedData)
  | None => (entityData, joinedData)
  end.

(** The row keys under which the columns selected from the joined tables
    come back: [<table>_<field>]. *)
Definition alias_keys (joins : list Join) : list string :=
  flat_map (fun j =>
              map (fun field => EntityName (rightTable j) +++ "_" +++ field)
                  (opt_list (j_fields j)))
           joins.

End DAO.

(** ** TransactionManager: runInTransaction *)

Module TransactionManager.
Import Types.

(** The calls [runInTransaction] itself makes, in order. *)
Inductive Call : Type :=
| GetConnection | BeginTransaction | Callback | Commit | Rollback | Release.

Definition Call_eqb (a b : Call) : bool :=
  match a, b with
  | GetConnection, GetConnection | BeginTransaction, BeginTransaction
  | Callback, Callback | Commit, Commit | Rollback, Rollback
  | Release, Release => true
  | _, _ => false
  end.

(** How many times a call occurs in a log. *)
Definition occurrences (c : Call) (l : list Call) : nat :=
  length (filter (Call_eqb c) l).

Section Collaborators.
(** [DB] is the state of everything behind the pool: the database, the
    connections, whatever the callback touches.  Every collaborator call
    is a step on it that resolves or rejects. *)
Variable DB : Type.

Record PoolConnection : Type := {
  beginTransaction : DB -> Outcome unit * DB;
  commit : DB -> Outcome unit * DB;
  rollback : DB -> Outcome unit * DB;
  release : DB -> Outcome unit * DB
}.

Record Pool : Type := {
  getConnection : DB -> Outcome PoolConnection * DB
}.

Record World : Type := { log : list Call; state : DB }.

Definition call {A} (c : Call) (op : DB -> Outcome A * DB) (w : World)
  : Outcome A * World :=
  let (r, s') := op (state w) in
  (r, {| log := log w ++ [c]; state := s' |}).

Variable R : Type.

(** The [try] block: the value of [connection] when the block is left,
    and how it is left. *)
Definition try_block (pool : Pool)
    (callback : PoolConnection -> DB -> Outcome R * DB) (w : World)
  : option PoolConnection * (Outcome R * World) :=
  match call GetConnection (getConnection pool) w with
  | (Thrown e, w) => (None, (Thrown e, w))
  | (Returned connection, w) =>
      (Some connection,
       match call BeginTransaction (beginTransaction connection) w with
       | (Thrown e, w) => (Thrown e, w)
       | (Returned _, w) =>
           match call Callback (callback connection) w with
           | (Thrown e, w) => (Thrown e, w)
           | (Returned result, w) =>
               match call Commit (commit connection) w with
               | (Thrown e, w) => (Thrown e, w)
               | (Returned _, w) => (Returned result, w)
               end
           end
       end)
  end.

(** The [catch] block, entered with the error [error]. *)
Definition catch_block (connection : option PoolConnection)
    (error : JsError) (w : World) : Outcome R * World :=
  match connection with
  | Some c =>
      match call Rollback (rollback c) w with
      | (Thrown e, w) => (Thrown e, w)
      | (Returned _, w) => (Thrown error, w)
      end
  | None => (Thrown error, w)
  end.

(** The [finally] block, entered with the completion [pending]. *)
Definition finally_block (connection : option PoolConnection)
    (pending : Outcome R) (w : World) : Outcome R * World :=
  match connection with
  | Some c =>
      match call Release (release c) w with
      | (Thrown e, w) => (Thrown e, w)
      | (Returned _, w) => (pending, w)
      end
  | None => (pending, w)
  end.

Definition runInTransaction (pool : Pool)
    (callback : PoolConnection -> DB -> Outcome R * DB) (w : World)
  : Outcome R * World :=
  let '(connection, (tried, w)) := try_block pool callback w in
  let (caught, w) :=
    match tried with
    | Returned result => (Returned result, w)
    | Thrown error => catch_block connection error w
    end in
  finally_block connection caught w.

End Collaborators.

Arguments beginTransaction {DB}.
Arguments commit {DB}.
Arguments rollback {DB}.
Arguments release {DB}.
Arguments getConnection {DB}.
Arguments log {DB}.
Arguments state {DB}.
Arguments call {DB A}.
Arguments runInTransaction {DB R}.

End TransactionManager.

(** ** The build script that marks the model generator as executable *)

Module AddShebang.
Import JS Types.

(** The file the script works on: its content when it exists, and
    whether it can be written. *)
Record FileSystem : Type := {
  content : option string;
  writable : bool
}.

(** [fs.readFileSync(SCRIPT_PATH, 'utf8')] *)
Definition readFileSync (fs : FileSystem) : Outcome string :=
  match content fs with
  | Some c => Returned c
  | None => Thrown (Error "ENOENT: no such file or directory")
  end.

(** [fs.writeFileSync(SCRIPT_PATH, content, 'utf8')] *)
Definition writeFileSync (c : string) (fs : FileSystem)
  : Outcome unit * FileSystem :=
  if writable fs
  then (Returned tt, {| content := Some c; writable := true |})
  else (Thrown (Error "EACCES: permission denied"), fs).

Definition SHEBANG : string := "#!/usr/bin/env node" +++ String "010" EmptyString.

(** How a run ends: the line it logs, or the error it reports before
    [process.exit(1)]. *)
Inductive Report : Type :=
| ShebangAdded
| ShebangAlreadyPresent
| Exit1 (message : JsError).

(** The script. *)
Definition run (fs : FileSystem) : Report * FileSystem :=
  match readFileSync fs with
  | Thrown error => (Exit1 error, fs)
  | Returned content =>
      if negb (startsWith SHEBANG content) then
        let content := SHEBANG +++ content in
        match writeFileSync content fs with
        | (Thrown error, fs) => (Exit1 error, fs)
        | (Returned _, fs) => (ShebangAdded, fs)
        end
      else (ShebangAlreadyPresent, fs)
  end.

Definition failed (r : Report) : bool :=
  match r with Exit1 _ => true | _ => false end.

End AddShebang.

(** ** Concrete entities, DAOs and collaborators used in the examples *)

Module Fixtures.
Import JS Types EntityModel DAO.

(** A host running in UTC that reads no date string beyond the SQL form.
    The examples hand it no JSON text that holds a number or a character
    outside the model; it would write one back as it stood. *)
Definition utc : Runtime :=
  {| LocalTZA := 0;
     Date_parse_other := fun _ => None;
     ToPrimitive_string := fun _ => "[object Object]";
     JSON_restringify := fun text => text |}.

(** The same host one hour ahead of UTC. *)
Definition utc_plus_one : Runtime :=
  {| LocalTZA := 3600000;
     Date_parse_other := fun _ => None;
     ToPrimitive_string := fun _ => "[object Object]";
     JSON_restringify := fun text => text |}.

(** The [User] entity of the README: [settings] is declared JSON,
    [createdAt] is declared DATE, and a user name needs three characters. *)
Definition User : Types.EntityClass :=
  {| EntityName := "users";
     getPropertyType := fun prop =>
       if String.eqb prop "settings" then Some JSON
       else if String.eqb prop "createdAt" then Some DATE
       else None;
     validate := fun this =>
       match get this "username" with
       | VStr s =>
           if (String.length s <? 3)%nat
           then Invalid "Username must be at least 3 characters."
           else Valid
       | _ => Invalid "Username must be at least 3 characters."
       end |}.

(** An entity without declared conversions and without validation. *)
Definition Post : Types.EntityClass :=
  {| EntityName := "posts";
     getPropertyType := fun _ => None;
     validate := fun _ => Valid |}.

(** A user as the constructor accepts it: the settings object carries a
    Date, the creation time is given as a number of milliseconds. *)
Definition ann : Obj :=
  [("username", VStr "ann");
   ("settings", VObj [("since", VDate (Some 0%Z))]);
   ("createdAt", VNum 0)].

(** A user whose declared fields hold what they are declared for. *)
Definition bob : Obj :=
  [("username", VStr "bob");
   ("settings", VObj [("theme", VStr "dark"); ("tags", VArr [VNum 1; VNull])]);
   ("createdAt", VDate (Some 1705314600123%Z));
   ("_joins", VObj [])].

(** A connection that answers every statement the same way. *)
Definition answering (r : Outcome QueryResult) : Connection :=
  {| respond := fun _ _ => r |}.

(** A connection that has no rows to return and reports deletions with a
    result header. *)
Definition empty_table : Connection :=
  {| respond := fun _ q =>
       if startsWith "SELECT" (sql q) then Returned (Rows [])
       else Returned (ResultSetHeader [("affectedRows", VNum 0)]) |}.

Definition usersDAO (c : Connection) : GenericDAO :=
  {| connection := c; entityName := "users"; EntityClass := User |}.

Definition postsDAO (c : Connection) : GenericDAO :=
  {| connection := c; entityName := "posts"; EntityClass := Post |}.

(** A join of [posts] onto [users] whose own condition is a composite. *)
Definition activePosts : Join :=
  {| leftTable := None;
     rightTable := Post;
     on_left := "id";
     on_right := "userId";
     j_fields := None;
     j_type := None;
     j_where :=
       Some {| targetTable := None;
               jw_where :=
                 WhereComposite AND [WhereCondition "isActive" (VNum 1) None] |};
     j_orderBy := None |}.

(** The same join with the comparison on its own. *)
Definition activePosts_flat : Join :=
  {| leftTable := None;
     rightTable := Post;
     on_left := "id";
     on_right := "userId";
     j_fields := None;
     j_type := None;
     j_where :=
       Some {| targetTable := None;
               jw_where := WhereCondition "isActive" (VNum 1) None |};
     j_orderBy := None |}.

Definition joining (j : Join) : option SelectOptions :=
  Some {| fields := None; joins := Some [j]; limit := None; offset := None;
          orderBy := None |}.

Definition fresh : World := {| issued := []; console := [] |}.

(** A pooled connection over a state that counts the calls made on it. *)
Definition counting : TransactionManager.PoolConnection nat :=
  {| TransactionManager.beginTransaction := fun n => (Returned tt, S n);
     TransactionManager.commit := fun n => (Returned tt, S n);
     TransactionManager.rollback := fun n => (Returned tt, S n);
     TransactionManager.release := fun n => (Returned tt, S n) |}.

Definition pool_of (c : TransactionManager.PoolConnection nat)
  : TransactionManager.Pool nat :=
  {| TransactionManager.getConnection := fun n => (Returned c, S n) |}.

(** A callback that fails without touching the state. *)
Definition failing_work (_ : TransactionManager.PoolConnection nat) (n : nat)
  : Outcome nat * nat :=
  (Thrown (Error "boom"), n).

Definition idle : TransactionManager.World nat :=
  {| TransactionManager.log := []; TransactionManager.state := 0%nat |}.

(** [age += 1], then [name = "ann"]. *)
Definition birthday : SetClause :=
  SetMany [{| sc_field := "age"; sc_value := VNum 1;
              sc_operator := Some SetIncrement |};
           {| sc_field := "name"; sc_value := VStr "ann";
              sc_operator := None |}].

(** A connection that reports three affected rows for every statement. *)
Definition three_rows_affected : Connection :=
  answering (Returned (ResultSetHeader [("affectedRows", VNum 3)])).

(** An inner join of [posts] onto [users] that selects two columns of
    the posts and keeps the active ones. *)
Definition recentPosts : Join :=
  {| leftTable := None;
     rightTable := Post;
     on_left := "id";
     on_right := "userId";
     j_fields := Some ["title"; "body"];
     j_type := Some INNER;
     j_where :=
       Some {| targetTable := None;
               jw_where := WhereCondition "isActive" (VNum 1) None |};
     j_orderBy := None |}.

(** Two columns of the users with their recent posts, newest first, the
    third page of ten. *)
Definition page_of_users : option SelectOptions :=
  Some {| fields := Some ["id"; "username"];
          joins := Some [recentPosts];
          limit := Some 10%Z;
          offset := Some 20%Z;
          orderBy := Some [{| ob_table := None; ob_field := "createdAt";
                              direction := DESC |}] |}.

(** Rows as a connection hands them over: the first user with the title
    of a joined post, the second with a user name that is too short. *)
Definition row_ann : Obj :=
  [("id", VNum 1); ("username", VStr "ann"); ("settings", VStr "[1,2]");
   ("posts_title", VStr "hello")].

Definition row_bo : Obj := [("id", VNum 2); ("username", VStr "bo")].

(** The posts of a user, selecting the title. *)
Definition titledPosts : Join :=
  {| leftTable := None;
     rightTable := Post;
     on_left := "id";
     on_right := "userId";
     j_fields := Some ["title"];
     j_type := None;
     j_where := None;
     j_orderBy := None |}.

(** Two users as the application holds them. *)
Definition first_user : Obj := [("id", VNum 1); ("username", VStr "ann")].
Definition second_user : Obj := [("id", VNum 2); ("username", VStr "bob")].

(** A connection that reports one inserted row with identifier 42. *)
Definition inserted_42 : Connection :=
  answering (Returned (ResultSetHeader [("affectedRows", VNum 1);
                                        ("insertId", VNum 42)])).

(** A connection that answers every statement with one row counting
    seven. *)
Definition seven_rows : Connection :=
  answering (Returned (Rows [[("count", VNum 7)]])).

(** A pool that has no connection to give. *)
Definition exhausted : TransactionManager.Pool nat :=
  {| TransactionManager.getConnection :=
       fun n => (Thrown (Error "pool exhausted"), S n) |}.

(** A connection on which the transaction cannot be begun, and one on
    which it cannot be committed. *)
Definition no_begin : TransactionManager.PoolConnection nat :=
  {| TransactionManager.beginTransaction :=
       fun n => (Thrown (ExecutionError "ER_BEGIN"), S n);
     TransactionManager.commit := fun n => (Returned tt, S n);
     TransactionManager.rollback := fun n => (Returned tt, S n);
     TransactionManager.release := fun n => (Returned tt, S n) |}.

Definition no_commit : TransactionManager.PoolConnection nat :=
  {| TransactionManager.beginTransaction := fun n => (Returned tt, S n);
     TransactionManager.commit :=
       fun n => (Thrown (ExecutionError "ER_COMMIT"), S n);
     TransactionManager.rollback := fun n => (Returned tt, S n);
     TransactionManager.release := fun n => (Returned tt, S n) |}.

(** A connection that cannot be given back. *)
Definition no_release : TransactionManager.PoolConnection nat :=
  {| TransactionManager.beginTransaction := fun n => (Returned tt, S n);
     TransactionManager.commit := fun n => (Returned tt, S n);
     TransactionManager.rollback := fun n => (Returned tt, S n);
     TransactionManager.release :=
       fun n => (Thrown (Error "released twice"), S n) |}.

(** A callback that resolves with the state it saw. *)
Definition counting_work (_ : TransactionManager.PoolConnection nat) (n : nat)
  : Outcome nat * nat :=
  (Returned n, S n).

(** The compiled generator as the compiler leaves it. *)
Definition compiled_script : AddShebang.FileSystem :=
  {| AddShebang.content := Some "console.log(1);";
     AddShebang.writable := true |}.

End Fixtures.

(** ** Numbers: integers that arithmetic leaves as they are *)

Section Numbers.
Import JS.
Local Open Scope Z_scope.

Lemma two_pow_53 : 2 ^ 53 = 9007199254740992.
Proof. reflexivity. Qed.

(** Rounding an integer of at most 53 bits to a double changes nothing. *)
Lemma round_to_double_integer z :
  0 < z <= 2 ^ 53 ->
  exists m p,
    round_to_double z 1 = (m, p)
    /\ ((0 <= p /\ m * 2 ^ p = z) \/ (p < 0 /\ m = z * 2 ^ (- p))).
Proof.
  intros [Hpos Hle]. unfold round_to_double.
  change (Z.log2 1) with 0. rewrite Z.sub_0_r.
  pose proof (Z.log2_spec z Hpos) as [Hlo Hhi].
  pose proof (Z.log2_nonneg z) as He0.
  remember (Z.log2 z) as e eqn:Ee. clear Ee.
  assert (He : e <= 53).
  { destruct (Z_le_gt_dec e 53) as [H|H]; [exact H|].
    assert (2 ^ 54 <= 2 ^ e) by (apply Z.pow_le_mono_r; lia).
    change (2 ^ 54) with 18014398509481984 in *.
    change (2 ^ 53) with 9007199254740992 in *. lia. }
  replace (0 <=? e) with true by (symmetry; apply Z.leb_le; lia).
  rewrite Z.mul_1_l.
  replace (2 ^ e <=? z) with true by (symmetry; apply Z.leb_le; lia).
  cbv zeta. rewrite Z.max_l by lia.
  destruct (Z.leb_spec 0 (e - 52)) as [Hp|Hp].
  - (* 52 or 53 bits *)
    assert (Hcases : e = 52 \/ e = 53) by lia.
    destruct Hcases as [->| ->].
    + change (52 - 52) with 0. change (1 * 2 ^ 0) with 1.
      rewrite Z.div_1_r, Z.mod_1_r. cbn [Z.mul Z.ltb Z.eqb Z.compare orb andb].
      exists z, 0. split; [reflexivity|]. left. split; [lia|]. now rewrite Z.mul_1_r.
    + change (2 ^ 53) with 9007199254740992 in *.
      assert (z = 9007199254740992) by lia. subst z.
      exists 4503599627370496, 1. split; [reflexivity|].
      left. split; [lia|reflexivity].
  - rewrite Z.div_1_r, Z.mod_1_r. cbn [Z.mul Z.ltb Z.eqb Z.compare orb andb].
    exists (z * 2 ^ (- (e - 52))), (e - 52). split; [reflexivity|].
    right. split; [lia|reflexivity].
Qed.

Lemma integer_of_double_integer z :
  0 < z <= 2 ^ 53 -> integer_of_double (round_to_double z 1) = Some z.
Proof.
  intros Hz. destruct (round_to_double_integer z Hz) as [m [p [-> H]]].
  unfold integer_of_double. destruct H as [[Hp <-]|[Hp ->]].
  - now replace (0 <=? p) with true by (symmetry; apply Z.leb_le; lia).
  - replace (0 <=? p) with false by (symmetry; apply Z.leb_gt; lia).
    assert (Hpow : 2 ^ (- p) <> 0) by (apply Z.pow_nonzero; lia).
    rewrite Z.mod_mul by assumption. cbn [Z.eqb].
    now rewrite Z.div_mul.
Qed.

(** Every integer up to [2^53] in magnitude is a double. *)
Lemma Number_round_exact z : Z.abs z <= 2 ^ 53 -> Number_round z = z.
Proof.
  intros Hz. unfold Number_round.
  destruct (Z.eqb_spec z 0) as [->|Hne]; [reflexivity|].
  assert (Habs : 0 < Z.abs z <= 2 ^ 53) by lia.
  destruct (round_to_double_integer (Z.abs z) Habs) as [m [p [-> H]]].
  destruct H as [[Hp Hm]|[Hp ->]].
  - replace (0 <=? p) with true by (symmetry; apply Z.leb_le; lia).
    rewrite Hm. lia.
  - replace (0 <=? p) with false by (symmetry; apply Z.leb_gt; lia).
    rewrite Z.div_mul by (apply Z.pow_nonzero; lia). lia.
Qed.

(** A safe integer written in digits is read as itself. *)
Lemma safe_integer_of_integer (negative : bool) n :
  0 <= n <= MAX_SAFE_INTEGER ->
  (negative = true -> n <> 0) ->
  safe_integer_of_ratio negative n 1 = Some (if negative then - n else n).
Proof.
  intros Hn Hneg. unfold safe_integer_of_ratio.
  destruct (Z.eqb_spec n 0) as [->|Hne].
  - destruct negative; [now contradiction Hneg|reflexivity].
  - unfold MAX_SAFE_INTEGER in *.
    rewrite integer_of_double_integer
      by (change (2 ^ 53) with 9007199254740992; lia).
    replace (n <=? 9007199254740991) with true
      by (symmetry; apply Z.leb_le; lia).
    replace (n =? 0) with false by (symmetry; apply Z.eqb_neq; lia).
    now destruct negative.
Qed.

(** The offset of a page is exact as long as it stays within [2^53]. *)
Lemma Number_mul_sub_exact p s :
  Z.abs ((p - 1) * s) <= 2 ^ 53 ->
  Number_mul (Number_sub p 1) s = (p - 1) * s.
Proof.
  intros H. unfold Number_mul, Number_sub.
  destruct (Z.eq_dec s 0) as [->|Hs]; [now rewrite !Z.mul_0_r|].
  rewrite (Number_round_exact (p - 1)).
  - now apply Number_round_exact.
  - rewrite Z.abs_mul in H. nia.
Qed.

(** Beyond [2^53] arithmetic rounds: the product that page 94906268 of
    pages of 94906267 asks for is odd, and no double. *)
Example Number_mul_rounds :
  Number_mul (Number_sub 94906268 1) 94906267 = 9007199515875288
  /\ (94906268 - 1) * 94906267 = 9007199515875289.
Proof. split; reflexivity. Qed.

(** Numbers as text: the digits of a safe integer; the shortest decimal
    that reads as the number beyond, in exponent form from [10^21] on. *)
Example Number_toString_examples :
  Number_toString (-1200) = "-1200"
  /\ Number_toString 9007199254740991 = "9007199254740991"
  /\ Number_toString 1152921504606846976 = "1152921504606847000"
  /\ Number_toString 99999999999999991611392 = "1e+23"
  /\ Number_toString (-1500000000000000000000) = "-1.5e+21".
Proof. repeat split; vm_compute; reflexivity. Qed.

End Numbers.

(** * Verified properties *)

(** ** Condition compiler *)



Section ConditionCompiler.
Import JS Types DAO.

Lemma append_assoc (a b c : string) : (a +++ b) +++ c = a +++ b +++ c.
Proof. induction a; simpl; congruence. Qed.

Lemma append_empty_r (a : string) : a +++ EmptyString = a.
Proof. induction a; simpl; congruence. Qed.

Lemma scan_clean_start run rest :
  clean_start rest ->
  scanPlaceholders run rest = (close_run run + scanPlaceholders 0 rest)%nat.
Proof.
  destruct rest as [|c rest]; simpl.
  - intros _. lia.
  - intros ->. reflexivity.
Qed.

Lemma comparison_clause_placeholders op rest :
  clean_start rest ->
  scanPlaceholders 0
    ((match op with
      | OpIn => "??.?? " +++ WhereOperator_str op +++ " (?)"
      | _ => "??.?? " +++ WhereOperator_str op +++ " ?"
      end) +++ rest)
  = (3 + scanPlaceholders 0 rest)%nat.
Proof.
  intros Hc.
  destruct op; cbn -[close_run]; try (rewrite (scan_clean_start 1 rest Hc));
    reflexivity.
Qed.

Lemma separator_placeholders c s :
  scanPlaceholders 0 (" " +++ Connector_str c +++ " " +++ s)
  = scanPlaceholders 0 s.
Proof. destruct c; reflexivity. Qed.

(** Placeholders of joined clauses add up when every clause counts
    independently of a clean suffix. *)
Lemma join_placeholders c (clauses : list string) (counts : list nat) :
  Forall2 (fun cl n => forall rest, clean_start rest ->
             scanPlaceholders 0 (cl +++ rest) = (n + scanPlaceholders 0 rest)%nat)
          clauses counts ->
  forall rest, clean_start rest ->
    scanPlaceholders 0 (join (" " +++ Connector_str c +++ " ") clauses +++ rest)
    = (list_sum counts + scanPlaceholders 0 rest)%nat.
Proof.
  induction 1 as [|cl n clauses counts Hcl Hrest IH]; intros rest Hc.
  - reflexivity.
  - destruct clauses as [|cl' clauses].
    + inversion Hrest; subst. unfold join. cbn [String.concat]. simpl list_sum.
      rewrite Hcl by assumption. lia.
    + change (join (" " +++ Connector_str c +++ " ") (cl :: cl' :: clauses))
        with (cl +++ (" " +++ Connector_str c +++ " ")
                 +++ join (" " +++ Connector_str c +++ " ") (cl' :: clauses)).
      rewrite !append_assoc.
      rewrite Hcl by reflexivity.
      rewrite separator_placeholders.
      rewrite <- !append_assoc, append_assoc.
      rewrite IH by assumption. simpl list_sum. lia.
Qed.

Lemma buildWhereClause_composite this c ps params tbl :
  buildWhereClause this (WhereComposite c ps) params tbl
  = ("(" +++ join (" " +++ Connector_str c +++ " ")
               (fst (map_buildWhereClause this ps params)) +++ ")",
     snd (map_buildWhereClause this ps params)).
Proof.
  cbn [buildWhereClause].
  match goal with
  | |- (_ +++ join _ (fst (?f ps params)) +++ _, _) = _ =>
      assert (E : forall l p, f l p = map_buildWhereClause this l p)
  end.
  { induction l as [|w l IH]; intros p; cbn [map_buildWhereClause];
      [reflexivity|].
    destruct (buildWhereClause this w p None) as [cl p1].
    rewrite IH. reflexivity. }
  rewrite E. reflexivity.
Qed.

Lemma combine_app_same {A B} (l1 l2 : list A) (m1 m2 : list B) :
  length l1 = length m1 ->
  combine (l1 ++ l2) (m1 ++ m2) = combine l1 m1 ++ combine l2 m2.
Proof.
  revert m1; induction l1 as [|a l1 IH]; intros [|b m1]; cbn; try discriminate.
  - reflexivity.
  - intros [= Hl]. now rewrite IH.
Qed.

Lemma qualified_params_app t1 c1 t2 c2 :
  length t1 = length c1 ->
  qualified_params (t1 ++ t2) (c1 ++ c2)
  = qualified_params t1 c1 ++ qualified_params t2 c2.
Proof.
  intros Hl. unfold qualified_params.
  rewrite combine_app_same by assumption. apply flat_map_app.
Qed.

Lemma qualifiers_None_length this w :
  length (qualifiers this None w) = length (comparisons w).
Proof. destruct w; cbn; [reflexivity|apply repeat_length]. Qed.

Lemma qualifiers_None this w :
  qualifiers this None w = repeat (entityName this) (length (comparisons w)).
Proof. destruct w; reflexivity. Qed.

Lemma map_buildWhereClause_aligned this ps :
  Forall (compiles_aligned this) ps ->
  forall params,
    Forall2 (fun cl n => forall rest, clean_start rest ->
               scanPlaceholders 0 (cl +++ rest) = (n + scanPlaceholders 0 rest)%nat)
            (fst (map_buildWhereClause this ps params))
            (map (fun w => (3 * length (comparisons w))%nat) ps)
    /\ snd (map_buildWhereClause this ps params)
       = params ++ qualified_params
                     (repeat (entityName this) (length (flat_map comparisons ps)))
                     (flat_map comparisons ps).
Proof.
  induction 1 as [|w ps Hw Hps IH]; intros params; cbn [map_buildWhereClause].
  - split; [constructor|]. cbn. now rewrite app_nil_r.
  - destruct (Hw params None) as [Hcl Hpar].
    destruct (buildWhereClause this w params None) as [cl p1]; cbn [fst snd] in *.
    destruct (IH p1) as [Hcls Hpars].
    destruct (map_buildWhereClause this ps p1) as [cls p2]; cbn [fst snd] in *.
    split.
    + constructor; assumption.
    + subst p2 p1. cbn [flat_map]. rewrite length_app, repeat_app.
      rewrite qualified_params_app by apply repeat_length.
      rewrite qualifiers_None. now rewrite app_assoc.
Qed.

Lemma list_sum_three (ps : list Where) :
  list_sum (map (fun w => (3 * length (comparisons w))%nat) ps)
  = (3 * length (flat_map comparisons ps))%nat.
Proof.
  induction ps as [|w ps IH]; cbn [map flat_map]; [reflexivity|].
  change (list_sum (?x :: ?l)) with (x + list_sum l)%nat.
  rewrite length_app, IH. lia.
Qed.

Lemma buildWhereClause_aligned this w : compiles_aligned this w.
Proof.
  induction w as [f v op|c ps IH] using Where_nested_ind; intros params tbl.
  - split.
    + intros rest Hc. cbn [buildWhereClause fst comparisons length].
      destruct op as [op|];
        [exact (comparison_clause_placeholders op rest Hc)
        |exact (comparison_clause_placeholders OpEq rest Hc)].
    + reflexivity.
  - rewrite buildWhereClause_composite; cbn [fst snd].
    destruct (map_buildWhereClause_aligned this ps IH params) as [Hcls Hpars].
    split.
    + intros rest Hc. cbn [comparisons].
      rewrite !append_assoc. cbn [append].
      change (scanPlaceholders 0 (String "(" ?s)) with (scanPlaceholders 0 s).
      rewrite (join_placeholders c _ _ Hcls) by reflexivity.
      rewrite list_sum_three.
      rewrite (scan_clean_start 0 rest Hc). reflexivity.
    + exact Hpars.
Qed.

End ConditionCompiler.

Section ConditionCompilerClaims.
Import JS Types DAO.

Lemma qualifiers_length this tbl w :
  length (qualifiers this tbl w) = length (comparisons w).
Proof. destruct w; cbn; [reflexivity|apply repeat_length]. Qed.

Lemma qualified_params_length tables cs :
  length tables = length cs ->
  length (qualified_params tables cs) = (3 * length cs)%nat.
Proof.
  unfold qualified_params.
  revert cs; induction tables as [|t tables IH]; intros [|c cs]; cbn;
    try discriminate; [reflexivity|].
  intros [= Hl]. rewrite IH by assumption. lia.
Qed.

(** C1. For every condition tree, compiled from an empty parameter array
    with any table override: the clause holds as many placeholders as
    parameters were bound; every comparison contributes three of each;
    the parameters are the triples (qualifying table, field, value) of
    the comparisons in pre-order, left to right; and a non-empty initial
    array is only ever extended at its end. *)
Theorem C1_placeholders_match_parameters :
  forall (this : GenericDAO) (w : Where) (EntityName : option string),
    let clause := fst (buildWhereClause this w [] EntityName) in
    let params := snd (buildWhereClause this w [] EntityName) in
    countPlaceholders clause = length params
    /\ length params = (3 * length (comparisons w))%nat
    /\ length (qualifiers this EntityName w) = length (comparisons w)
    /\ params = qualified_params (qualifiers this EntityName w) (comparisons w)
    /\ forall params0,
         snd (buildWhereClause this w params0 EntityName) = params0 ++ params.
Proof.
  intros this w tbl clause params.
  destruct (buildWhereClause_aligned this w [] tbl) as [Hcount Hparams].
  fold clause in Hcount. fold params in Hparams. cbn [app] in Hparams.
  assert (Hlen : length params = (3 * length (comparisons w))%nat).
  { rewrite Hparams. apply qualified_params_length, qualifiers_length. }
  repeat split.
  - unfold countPlaceholders. rewrite <- (append_empty_r clause).
    rewrite (Hcount EmptyString I). cbn [scanPlaceholders close_run]. lia.
  - exact Hlen.
  - apply qualifiers_length.
  - exact Hparams.
  - intros params0.
    destruct (buildWhereClause_aligned this w params0 tbl) as [_ ->].
    now rewrite Hparams.
Qed.

(** A comparison on its own: three parameters, in the order table, field,
    value, and three placeholders. *)
Example comparison_triple :
  buildWhereClause (Fixtures.usersDAO Fixtures.empty_table)
    (WhereCondition "age" (VNum 18) (Some OpGt)) [] None
  = ("??.?? > ?", [PStr "users"; PStr "age"; PNum 18]).
Proof. reflexivity. Qed.

End ConditionCompilerClaims.

(** ** Query builder *)

Section QueryBuilder.
Import JS Types EntityModel DAO.

Lemma new_Entity_world rt this data w :
  snd (new_Entity rt this data w) = w.
Proof. unfold new_Entity. destruct (construct _ _ _); reflexivity. Qed.

(** Hydrating rows issues nothing. *)
Lemma mapM_world {A B} (f : A -> M B) (l : list A) :
  (forall a w, snd (f a w) = w) ->
  forall w, snd (mapM f l w) = w.
Proof.
  intros Hf. induction l as [|a l IH]; intros w; cbn [mapM]; [reflexivity|].
  unfold bind. specialize (Hf a w). destruct (f a w) as [[b|e] w1]; cbn in Hf; subst w1.
  - specialize (IH w). destruct (mapM f l w) as [[bs|e] w2]; cbn in IH; subst w2;
      reflexivity.
  - reflexivity.
Qed.

(** [selectWhere] hands exactly one statement to the connection. *)
Lemma selectWhere_world rt this where_ options w :
  snd (selectWhere rt this where_ options w)
  = {| issued := issued w
                 ++ [{| sql := fst (selectWhere_statement this where_ options);
                        params := snd (selectWhere_statement this where_ options) |}];
       console := console w |}.
Proof.
  unfold selectWhere.
  destruct (selectWhere_statement this where_ options) as [q ps]; cbn [fst snd].
  unfold bind at 1, connection_query.
  destruct (respond (connection this) (issued w) {| sql := q; params := ps |})
    as [[rows|h]|e]; cbn [fst snd]; try reflexivity.
  unfold bind.
  match goal with
  | |- snd (match mapM ?f rows ?w0 with _ => _ end) = _ =>
      pose proof (mapM_world f rows (new_Entity_world rt this) w0) as H1;
      destruct (mapM f rows w0) as [[es|e] w1]; cbn [snd] in H1; subst w1
  end; [|reflexivity].
  apply mapM_world. intros a w'. apply new_Entity_world.
Qed.

Lemma selectWhere_statement_limit_offset this where_ f j l o ob :
  selectWhere_statement this where_
    (Some {| fields := f; joins := j; limit := Some l; offset := Some o;
             orderBy := ob |})
  = (fst (selectWhere_ordered this where_
            (Some {| fields := f; joins := j; limit := Some l;
                     offset := Some o; orderBy := ob |}))
       +++ " LIMIT ? OFFSET ?",
     snd (selectWhere_ordered this where_
            (Some {| fields := f; joins := j; limit := Some l;
                     offset := Some o; orderBy := ob |}))
       ++ [PNum l; PNum o]).
Proof.
  unfold selectWhere_statement. cbn [limit offset].
  destruct (selectWhere_ordered _ _ _) as [q ps]; cbn [fst snd].
  now rewrite append_assoc, <- app_assoc.
Qed.

(** The ordered statement does not look at LIMIT / OFFSET. *)
Lemma selectWhere_ordered_ignores_limit this where_ f j l o l' o' ob :
  selectWhere_ordered this where_
    (Some {| fields := f; joins := j; limit := l; offset := o; orderBy := ob |})
  = selectWhere_ordered this where_
      (Some {| fields := f; joins := j; limit := l'; offset := o'; orderBy := ob |}).
Proof. reflexivity. Qed.

(** C3. For every page number [p >= 1] and page size [s] whose offset
    [(p - 1) * s] stays within [2^53], the largest magnitude up to which
    arithmetic on numbers is exact, [selectAllPaginated(p, s)] is
    [selectWhere] on the condition [id > 0] with [limit = s] and
    [offset = (p - 1) * s]; the one statement it issues ends in
    [LIMIT ? OFFSET ?] and binds [s] and [(p - 1) * s] as its last two
    parameters. *)
Theorem C3_selectAllPaginated_limit_offset :
  forall rt this (p s : Z) options w,
    (1 <= p)%Z ->
    (Z.abs ((p - 1) * s) <= 2 ^ 53)%Z ->
    let cond := WhereCondition "id" (VNum 0) (Some OpGt) in
    let opts :=
      {| fields := None;
         joins := match options with Some o => joins o | None => None end;
         limit := Some s;
         offset := Some ((p - 1) * s)%Z;
         orderBy := match options with Some o => orderBy o | None => None end |} in
    let ordered := selectWhere_ordered this (Some cond) (Some opts) in
    selectAllPaginated rt this p s options
    = selectWhere rt this (Some cond) (Some opts)
    /\ issued (snd (selectAllPaginated rt this p s options w))
       = issued w
         ++ [{| sql := fst ordered +++ " LIMIT ? OFFSET ?";
                params := snd ordered ++ [PNum s; PNum ((p - 1) * s)] |}].
Proof.
  intros rt this p s options w _ Hexact cond opts ordered.
  assert (Hsame : selectAllPaginated rt this p s options
                  = selectWhere rt this (Some cond) (Some opts)).
  { unfold selectAllPaginated.
    now rewrite (Number_mul_sub_exact p s Hexact). }
  split; [exact Hsame|].
  rewrite Hsame.
  rewrite selectWhere_world. cbn [issued].
  unfold opts at 1 2. rewrite selectWhere_statement_limit_offset.
  reflexivity.
Qed.

(** Page 2 of pages of 10: limit 10, offset 10. *)
Lemma C3_page_two_of_ten :
  (1 <= 2)%Z
  /\ (Z.abs ((2 - 1) * 10) <= 2 ^ 53)%Z
  /\ issued (snd (selectAllPaginated Fixtures.utc
                    (Fixtures.usersDAO Fixtures.empty_table) 2 10 None
                    Fixtures.fresh))
     = [{| sql := "SELECT users.* FROM ?? WHERE ??.?? > ? LIMIT ? OFFSET ?";
           params := [PStr "users"; PStr "users"; PStr "id"; PNum 0;
                      PNum 10; PNum 10] |}].
Proof.
  split; [lia|]. split; [vm_compute; discriminate|].
  exact (proj2 (C3_selectAllPaginated_limit_offset Fixtures.utc
                  (Fixtures.usersDAO Fixtures.empty_table) 2 10 None
                  Fixtures.fresh ltac:(lia)
                  ltac:(vm_compute; discriminate))).
Defined.

(** Beyond [2^53] the offset is the rounded product: page 94906268 of
    pages of 94906267 rows starts at row 9007199515875289, an odd number
    that is no double, and the statement binds 9007199515875288. *)
Lemma C3_offset_is_rounded_beyond_2_53 :
  (1 <= 94906268)%Z
  /\ map params
       (issued (snd (selectAllPaginated Fixtures.utc
                       (Fixtures.usersDAO Fixtures.empty_table)
                       94906268 94906267 None Fixtures.fresh)))
     = [[PStr "users"; PStr "users"; PStr "id"; PNum 0;
         PNum 94906267; PNum 9007199515875288]]
  /\ ((94906268 - 1) * 94906267 = 9007199515875289)%Z
  /\ PNum 9007199515875288 <> PNum ((94906268 - 1) * 94906267).
Proof.
  split; [lia|]. split; [vm_compute; reflexivity|].
  split; [reflexivity|]. discriminate.
Qed.

(** The first page starts at offset 0. *)
Example first_page_offset_zero :
  map params
    (issued (snd (selectAllPaginated Fixtures.utc
                    (Fixtures.usersDAO Fixtures.empty_table) 1 10 None
                    Fixtures.fresh)))
  = [[PStr "users"; PStr "users"; PStr "id"; PNum 0; PNum 10; PNum 0]].
Proof. reflexivity. Qed.

(** C2, on the code.  A join of [posts] onto [users] whose own condition
    is the composite [(isActive = 1)]: the nested comparison is bound to
    [users], the DAO's own table, not to the right-hand table [posts];
    the same comparison outside a composite is bound to [posts]. *)
Theorem C2_nested_join_condition_bound_to_own_table :
  selectWhere_statement (Fixtures.usersDAO Fixtures.empty_table)
    (Some (WhereCondition "id" (VNum 0) (Some OpGt)))
    (Fixtures.joining Fixtures.activePosts)
  = ("SELECT users.* FROM ?? LEFT JOIN ?? ON ?? = ?? WHERE ??.?? > ? AND (??.?? = ?)",
     [PStr "users"; PStr "posts"; PStr "users.id"; PStr "posts.userId";
      PStr "users"; PStr "id"; PNum 0;
      PStr "users"; PStr "isActive"; PNum 1])
  /\ selectWhere_statement (Fixtures.usersDAO Fixtures.empty_table)
       (Some (WhereCondition "id" (VNum 0) (Some OpGt)))
       (Fixtures.joining Fixtures.activePosts_flat)
     = ("SELECT users.* FROM ?? LEFT JOIN ?? ON ?? = ?? WHERE ??.?? > ? AND ??.?? = ?",
        [PStr "users"; PStr "posts"; PStr "users.id"; PStr "posts.userId";
         PStr "users"; PStr "id"; PNum 0;
         PStr "posts"; PStr "isActive"; PNum 1]).
Proof. split; reflexivity. Qed.

(** Whatever the override, the comparisons below a composite are bound to
    the DAO's own table. *)
Lemma composite_ignores_override this c ps override :
  snd (buildWhereClause this (WhereComposite c ps) [] (Some override))
  = qualified_params
      (repeat (entityName this) (length (flat_map comparisons ps)))
      (flat_map comparisons ps).
Proof.
  destruct (buildWhereClause_aligned this (WhereComposite c ps) [] (Some override))
    as [_ ->].
  reflexivity.
Qed.

(** C4, on the code.  On an empty table [selectRandom] throws a TypeError
    instead of returning null; and a row whose identifier column is
    spelled [id] is answered with null although the table is not empty. *)
Theorem C4_selectRandom_empty_table_throws :
  fst (selectRandom Fixtures.utc (Fixtures.usersDAO Fixtures.empty_table)
         Fixtures.fresh)
  = Thrown (TypeError "Cannot use 'in' operator to search for 'ID' in undefined")
  /\ fst (selectRandom Fixtures.utc
            (Fixtures.usersDAO
               (Fixtures.answering
                  (Returned (Rows [[("id", VNum 7); ("username", VStr "ann")]]))))
            Fixtures.fresh)
     = Returned None.
Proof. split; reflexivity. Qed.

(** Whenever the connection resolves with no rows, [selectRandom] throws. *)
Lemma selectRandom_no_rows rt this w :
  respond (connection this) (issued w)
    {| sql := "SELECT * FROM ??" +++ nl +++ "       ORDER BY RAND()" +++ nl
              +++ "       LIMIT 1";
       params := [PStr (entityName this)] |}
  = Returned (Rows []) ->
  exists msg, fst (selectRandom rt this w) = Thrown (TypeError msg).
Proof.
  intros H. unfold selectRandom, query, bind, connection_query.
  rewrite H. eexists. reflexivity.
Qed.

(** C5, on the code.  With a condition that matches no row, [deleteWhere]
    reads, issues the DELETE all the same, and returns the empty array,
    not null. *)
Theorem C5_deleteWhere_nothing_to_delete_returns_empty_array :
  deleteWhere Fixtures.utc (Fixtures.usersDAO Fixtures.empty_table)
    (Some (WhereCondition "id" (VNum 5) None)) Fixtures.fresh
  = (Returned (Some []),
     {| issued :=
          [{| sql := "SELECT users.* FROM ?? WHERE ??.?? = ?";
              params := [PStr "users"; PStr "users"; PStr "id"; PNum 5] |};
           {| sql := "DELETE FROM ?? WHERE ??.?? = ?";
              params := [PStr "users"; PStr "users"; PStr "id"; PNum 5] |}];
        console := [] |}).
Proof. reflexivity. Qed.

(** What [deleteWhere] does in general with a condition: the rows are read
    first; when the read resolves, the DELETE is issued next and, when it
    resolves too, the entities hydrated by the read are returned, be they
    none. *)
Lemma deleteWhere_returns_what_was_read rt this cond w rows w1 r :
  selectWhere rt this (Some cond) None w = (Returned rows, w1) ->
  respond (connection this) (issued w1)
    {| sql := "DELETE FROM ?? WHERE "
              +++ fst (buildWhereClause this cond [PStr (entityName this)] None);
       params := snd (buildWhereClause this cond [PStr (entityName this)] None) |}
  = Returned r ->
  deleteWhere rt this (Some cond) w
  = (Returned (Some rows),
     {| issued :=
          issued w1
          ++ [{| sql := "DELETE FROM ?? WHERE "
                        +++ fst (buildWhereClause this cond [PStr (entityName this)] None);
                 params := snd (buildWhereClause this cond [PStr (entityName this)] None) |}];
        console := console w1 |}).
Proof.
  intros Hsel Hdel. unfold deleteWhere. unfold bind at 1. rewrite Hsel.
  destruct (buildWhereClause this cond [PStr (entityName this)] None) as [cl ps].
  cbn [fst snd] in *. unfold bind, connection_query. rewrite Hdel. reflexivity.
Qed.

(** Without a condition nothing is deleted and null is returned, after the
    whole table has been read. *)
Lemma deleteWhere_without_condition rt this w rows w1 :
  selectWhere rt this None None w = (Returned rows, w1) ->
  deleteWhere rt this None w = (Returned None, w1).
Proof.
  intros Hsel. unfold deleteWhere, bind. rewrite Hsel. reflexivity.
Qed.

(** C6. [upsertAll] on the empty list returns the empty list and leaves
    the world as it was: no call to the execution layer.  On a non-empty
    list it hands exactly one statement to the execution layer; it returns
    the empty identifier list when that statement resolves, rethrows when
    it is rejected, and never returns an identifier. *)
Theorem C6_upsertAll_returns_no_identifiers :
  forall rt this entities w,
    upsertAll rt this [] w = (Returned [], w)
    /\ (entities <> [] ->
        exists statement,
          issued (snd (upsertAll rt this entities w)) = issued w ++ [statement]
          /\ (forall result,
                respond (connection this) (issued w) statement = Returned result ->
                fst (upsertAll rt this entities w) = Returned [])
          /\ (forall error,
                respond (connection this) (issued w) statement = Thrown error ->
                fst (upsertAll rt this entities w) = Thrown error)
          /\ (forall ids,
                fst (upsertAll rt this entities w) = Returned ids -> ids = [])).
Proof.
  intros rt this entities w. split; [reflexivity|].
  destruct entities as [|e entities]; [congruence|]. intros _.
  cbn [upsertAll].
  match goal with
  | |- context [connection_query _ ?q ?ps] =>
      exists {| sql := q; params := ps |};
      generalize q ps; intros q' ps'
  end.
  unfold try_catch, bind, connection_query, console_error, throw, ret.
  cbn [sql params].
  destruct (respond (connection this) (issued w) {| sql := q'; params := ps' |})
    as [r|err]; cbn [fst snd issued].
  - repeat split; try reflexivity; intros; congruence.
  - repeat split; try reflexivity; intros; congruence.
Qed.

(** Two users upserted through a connection that resolves: one statement,
    no identifiers. *)
Lemma C6_upsert_two_users :
  [[("id", VNum 1); ("username", VStr "ann")]; [("id", VNum 2)]] <> []
  /\ exists statement,
       issued (snd (upsertAll Fixtures.utc (Fixtures.usersDAO Fixtures.empty_table)
                      [[("id", VNum 1); ("username", VStr "ann")]; [("id", VNum 2)]]
                      Fixtures.fresh))
       = [statement]
       /\ fst (upsertAll Fixtures.utc (Fixtures.usersDAO Fixtures.empty_table)
                 [[("id", VNum 1); ("username", VStr "ann")]; [("id", VNum 2)]]
                 Fixtures.fresh)
          = Returned [].
Proof.
  split; [discriminate|].
  destruct (proj2 (C6_upsertAll_returns_no_identifiers Fixtures.utc
                     (Fixtures.usersDAO Fixtures.empty_table)
                     [[("id", VNum 1); ("username", VStr "ann")]; [("id", VNum 2)]]
                     Fixtures.fresh) ltac:(discriminate))
    as [statement [Hissued [Hok _]]].
  exists statement. split; [exact Hissued|reflexivity].
Defined.

End QueryBuilder.

(** ** Entity lifecycle *)

Section EntityLifecycle.
Import JS Types EntityModel.



(** *** Serialization leaves the entity alone *)

Lemma deref_last (st : Store) (o : Obj) : deref (st ++ [o]) (length st) = o.
Proof. unfold deref. now rewrite app_nth2, Nat.sub_diag by lia. Qed.

Lemma modify_last (st : Store) (o : Obj) (f : Obj -> Obj) :
  modify (st ++ [o]) (length st) f = st ++ [f o].
Proof. induction st as [|x st IH]; cbn; [reflexivity|]. now rewrite IH. Qed.

(** The loop of [toDBRecord] run on the store only ever rewrites the
    record. *)
Lemma toDBRecord_loop_in_store rt cls (st : Store) (ks : list string) :
  forall record : Obj,
    fold_left
      (fun st' key =>
         if hasOwnProperty (deref st' (length st)) key
         then assign st' (length st) key
                (dbValue rt cls key (get (deref st' (length st)) key))
         else st')
      ks (st ++ [record])
    = st ++ [fold_left
               (fun record key =>
                  if hasOwnProperty record key
                  then set record key (dbValue rt cls key (get record key))
                  else record)
               ks record].
Proof.
  induction ks as [|k ks IH]; intros record; cbn [fold_left]; [reflexivity|].
  rewrite deref_last. unfold assign. rewrite modify_last.
  destruct (hasOwnProperty record k); apply IH.
Qed.

(** C10. [toDBRecord] run on a store allocates one new object, the record,
    and changes nothing else: the store afterwards is the store before
    followed by the record, so every object that existed before -- the
    entity with all its fields, [_joins] among them -- is what it was. *)
Theorem C10_toDBRecord_leaves_entity_unchanged :
  forall rt cls (st : Store) (this : Ref),
    toDBRecord_in rt cls st this
    = (length st, st ++ [toDBRecord rt cls (deref st this)])
    /\ firstn (length st) (snd (toDBRecord_in rt cls st this)) = st
    /\ deref (snd (toDBRecord_in rt cls st this))
             (fst (toDBRecord_in rt cls st this))
       = toDBRecord rt cls (deref st this).
Proof.
  intros rt cls st this.
  assert (E : toDBRecord_in rt cls st this
              = (length st, st ++ [toDBRecord rt cls (deref st this)])).
  { unfold toDBRecord_in, spread, toDBRecord, delete_property.
    rewrite deref_last, toDBRecord_loop_in_store, modify_last. reflexivity. }
  rewrite E. cbn [fst snd]. repeat split.
  - rewrite firstn_app, Nat.sub_diag, firstn_all. cbn. apply app_nil_r.
  - apply deref_last.
Qed.

(** An entity that carries a joins map, next to another object: after the
    call both are as before, and the record has no [_joins]. *)
Example toDBRecord_keeps_joins :
  let user := [("id", VNum 1); ("createdAt", VDate (Some 0%Z));
               ("_joins", VObj [("posts", VObj [("title", VStr "First")])])] in
  toDBRecord_in Fixtures.utc Fixtures.User [[("id", VNum 9)]; user] 1
  = (2%nat,
     [[("id", VNum 9)]; user;
      [("id", VNum 1); ("createdAt", VStr "1970-01-01 00:00:00")]]).
Proof. reflexivity. Qed.

End EntityLifecycle.

(** ** Transaction coordinator *)

Section TransactionCoordinator.
Import Types TransactionManager.

Variables DB R : Type.
Variable pool : Pool DB.
Variable callback : PoolConnection DB -> DB -> Outcome R * DB.

Local Ltac step op s :=
  let o := fresh "o" in
  let s' := fresh "s" in
  destruct (op s) as [[o|o] s'] eqn:?.

Lemma occurrences_app c l1 l2 :
  occurrences c (l1 ++ l2) = (occurrences c l1 + occurrences c l2)%nat.
Proof. unfold occurrences. now rewrite filter_app, length_app. Qed.

(** When no connection can be had, the error is rethrown and nothing is
    rolled back or released. *)
Lemma runInTransaction_no_connection w e s1 :
  getConnection pool (state w) = (Thrown e, s1) ->
  runInTransaction pool callback w
  = (Thrown e, {| log := log w ++ [GetConnection]; state := s1 |}).
Proof.
  intros H. unfold runInTransaction, try_block, call. rewrite H. reflexivity.
Qed.

(** Once a connection is had it is released exactly once, last of all,
    whichever way the transaction goes. *)
Lemma runInTransaction_releases_once w c s1 :
  getConnection pool (state w) = (Returned c, s1) ->
  occurrences Release (log (snd (runInTransaction pool callback w)))
  = (occurrences Release (log w) + 1)%nat
  /\ exists l, log (snd (runInTransaction pool callback w)) = l ++ [Release].
Proof.
  intros H.
  unfold runInTransaction, try_block, catch_block, finally_block, call.
  rewrite H. cbn [state log].
  step (beginTransaction c) s1; cbn [state log].
  - step (callback c) s; cbn [state log].
    + step (commit c) s0; cbn [state log].
      * step (release c) s2; cbn [snd log];
          rewrite !occurrences_app; cbn; (split; [lia|eexists; reflexivity]).
      * step (rollback c) s2; cbn [state log];
          step (release c) s3; cbn [snd log];
          rewrite !occurrences_app; cbn; (split; [lia|eexists; reflexivity]).
    + step (rollback c) s0; cbn [state log];
        step (release c) s2; cbn [snd log];
        rewrite !occurrences_app; cbn; (split; [lia|eexists; reflexivity]).
  - step (rollback c) s; cbn [state log];
      step (release c) s0; cbn [snd log];
      rewrite !occurrences_app; cbn; (split; [lia|eexists; reflexivity]).
Qed.

(** The path on which everything resolves. *)
Lemma runInTransaction_commits w c s1 s2 result s3 s4 s5 :
  getConnection pool (state w) = (Returned c, s1) ->
  beginTransaction c s1 = (Returned tt, s2) ->
  callback c s2 = (Returned result, s3) ->
  commit c s3 = (Returned tt, s4) ->
  release c s4 = (Returned tt, s5) ->
  runInTransaction pool callback w
  = (Returned result,
     {| log := log w ++ [GetConnection; BeginTransaction; Callback; Commit; Release];
        state := s5 |}).
Proof.
  intros Hg Hb Hc Hm Hr.
  unfold runInTransaction, try_block, catch_block, finally_block, call.
  rewrite Hg; cbn [state log]. rewrite Hb; cbn [state log].
  rewrite Hc; cbn [state log]. rewrite Hm; cbn [state log].
  rewrite Hr. now rewrite <- !app_assoc.
Qed.

(** The path on which the callback fails: a rollback follows, then the
    release; what is thrown is the callback's error when the rollback
    resolves, the rollback's own when it does not. *)
Lemma runInTransaction_rolls_back w c s1 s2 error s3 :
  getConnection pool (state w) = (Returned c, s1) ->
  beginTransaction c s1 = (Returned tt, s2) ->
  callback c s2 = (Thrown error, s3) ->
  log (snd (runInTransaction pool callback w))
  = log w ++ [GetConnection; BeginTransaction; Callback; Rollback; Release]
  /\ (forall s4 s5,
        rollback c s3 = (Returned tt, s4) ->
        release c s4 = (Returned tt, s5) ->
        fst (runInTransaction pool callback w) = Thrown error)
  /\ (forall error' s4 s5,
        rollback c s3 = (Thrown error', s4) ->
        release c s4 = (Returned tt, s5) ->
        fst (runInTransaction pool callback w) = Thrown error').
Proof.
  intros Hg Hb Hc.
  unfold runInTransaction, try_block, catch_block, finally_block, call.
  rewrite Hg; cbn [state log]. rewrite Hb; cbn [state log].
  rewrite Hc; cbn [state log].
  repeat split.
  - step (rollback c) s3; cbn [state log];
      step (release c) s; cbn [snd log]; now rewrite <- !app_assoc.
  - intros s4 s5 Hr Hl. rewrite Hr; cbn [state log]. now rewrite Hl.
  - intros error' s4 s5 Hr Hl. rewrite Hr; cbn [state log]. now rewrite Hl.
Qed.

(** C8. With a connection acquired from the pool, [runInTransaction]
    begins a transaction and calls the callback; when the callback and the
    commit resolve, the callback's result is returned; when the callback
    fails, a rollback follows and the callback's error is rethrown (the
    rollback's own error when the rollback fails); and on every path the
    connection is released exactly once, as the last call made. *)
Theorem C8_runInTransaction_commit_rollback_release :
  forall (w : World DB) (c : PoolConnection DB) (s1 : DB),
    getConnection pool (state w) = (Returned c, s1) ->
    (occurrences Release (log (snd (runInTransaction pool callback w)))
     = (occurrences Release (log w) + 1)%nat
     /\ exists l, log (snd (runInTransaction pool callback w)) = l ++ [Release])
    /\ (forall s2 result s3 s4 s5,
          beginTransaction c s1 = (Returned tt, s2) ->
          callback c s2 = (Returned result, s3) ->
          commit c s3 = (Returned tt, s4) ->
          release c s4 = (Returned tt, s5) ->
          runInTransaction pool callback w
          = (Returned result,
             {| log := log w ++ [GetConnection; BeginTransaction; Callback;
                                 Commit; Release];
                state := s5 |}))
    /\ (forall s2 error s3,
          beginTransaction c s1 = (Returned tt, s2) ->
          callback c s2 = (Thrown error, s3) ->
          log (snd (runInTransaction pool callback w))
          = log w ++ [GetConnection; BeginTransaction; Callback; Rollback; Release]
          /\ (forall s4 s5,
                rollback c s3 = (Returned tt, s4) ->
                release c s4 = (Returned tt, s5) ->
                fst (runInTransaction pool callback w) = Thrown error)
          /\ (forall error' s4 s5,
                rollback c s3 = (Thrown error', s4) ->
                release c s4 = (Returned tt, s5) ->
                fst (runInTransaction pool callback w) = Thrown error')).
Proof.
  intros w c s1 Hg. split; [|split].
  - exact (runInTransaction_releases_once w c s1 Hg).
  - intros s2 result s3 s4 s5. exact (runInTransaction_commits w c s1 s2 result s3 s4 s5 Hg).
  - intros s2 error s3. exact (runInTransaction_rolls_back w c s1 s2 error s3 Hg).
Qed.

End TransactionCoordinator.

(** A connection on which every step resolves and counts itself, a
    callback that fails. *)
Lemma C8_failing_callback_is_rolled_back :
  TransactionManager.getConnection (Fixtures.pool_of Fixtures.counting) 0%nat
  = (Types.Returned Fixtures.counting, 1%nat)
  /\ TransactionManager.runInTransaction (Fixtures.pool_of Fixtures.counting)
       Fixtures.failing_work Fixtures.idle
     = (Types.Thrown (Types.Error "boom"),
        {| TransactionManager.log :=
             [TransactionManager.GetConnection; TransactionManager.BeginTransaction;
              TransactionManager.Callback; TransactionManager.Rollback;
              TransactionManager.Release];
           TransactionManager.state := 4%nat |})
  /\ TransactionManager.occurrences TransactionManager.Release
       (TransactionManager.log
          (snd (TransactionManager.runInTransaction
                  (Fixtures.pool_of Fixtures.counting)
                  Fixtures.failing_work Fixtures.idle)))
     = 1%nat.
Proof.
  pose proof (C8_runInTransaction_commit_rollback_release nat nat
                (Fixtures.pool_of Fixtures.counting) Fixtures.failing_work
                Fixtures.idle Fixtures.counting 1%nat eq_refl)
    as [[Hcount _] [_ Hfail]].
  destruct (Hfail 2%nat (Types.Error "boom") 2%nat eq_refl eq_refl)
    as [Hlog [Hthrown _]].
  split; [reflexivity|]. split; [reflexivity|]. exact Hcount.
Defined.

(** ** JSON: parsing what was stringified *)

Section JSONRoundTrip.
Import JS.

(** *** The model at work *)

Example JSON_parse_array :
  JSON_parse "[1, -20 ,0, true,false,null, [ ], {}]"
  = Reads (VArr [VNum 1; VNum (-20); VNum 0; VBool true; VBool false; VNull;
                 VArr []; VObj []]).
Proof. reflexivity. Qed.

Example JSON_parse_rejects :
  JSON_parse "01" = SyntaxError /\ JSON_parse "-" = SyntaxError
  /\ JSON_parse "tru" = SyntaxError /\ JSON_parse "[1,]" = SyntaxError
  /\ JSON_parse "nullx" = SyntaxError /\ JSON_parse "1." = SyntaxError
  /\ JSON_parse "[1e]" = SyntaxError.
Proof. repeat split; reflexivity. Qed.

(** Fractions and exponents are read; a number that is no safe integer
    is a value beyond the model, inside an object or on its own. *)
Example JSON_parse_numbers :
  JSON_parse "[1e2, 1.5e1, 100e-2, 0.0]"
  = Reads (VArr [VNum 100; VNum 15; VNum 1; VNum 0])
  /\ JSON_parse ("{" +++ String dquote ("price" +++ String dquote ": 9.99 }"))
     = ReadsBeyond true
  /\ JSON_parse "9.99" = ReadsBeyond false
  /\ JSON_parse "[9007199254740993]" = ReadsBeyond true
  /\ JSON_parse "[-0]" = ReadsBeyond true.
Proof. repeat split; vm_compute; reflexivity. Qed.

(** An escape above 255 is read: the string is one beyond the model. *)
Example JSON_parse_escapes :
  JSON_parse (String dquote ("\u0041\u00e9" +++ String dquote EmptyString))
  = Reads (VStr (String "A" (String "233" EmptyString)))
  /\ JSON_parse (String dquote ("\u0101" +++ String dquote EmptyString))
     = ReadsBeyond false
  /\ JSON_parse ("[" +++ String dquote ("\u20ac" +++ String dquote "]"))
     = ReadsBeyond true
  /\ JSON_parse (String dquote ("\u00g9" +++ String dquote EmptyString))
     = SyntaxError.
Proof. repeat split; vm_compute; reflexivity. Qed.

Example JSON_stringify_then_parse :
  match JSON_stringify
          (VObj [("a", VNum 1); ("b", VArr [VStr "x\y"; VUndefined; VBool true]);
                 ("c", VUndefined); ("d", VDate (Some 0%Z))])
  with
  | VStr s => JSON_parse s
  | _ => SyntaxError
  end
  = Reads (VObj [("a", VNum 1); ("b", VArr [VStr "x\y"; VNull; VBool true]);
                 ("d", VStr "1970-01-01T00:00:00.000Z")]).
Proof. reflexivity. Qed.

Lemma length_append (a b : string) :
  String.length (a +++ b) = (String.length a + String.length b)%nat.
Proof. induction a; cbn; congruence. Qed.

(** *** String literals *)

Lemma parse_escape_char c tail :
  parse_string_body (escape_char c +++ tail)
  = cons_char (Some c) (parse_string_body tail).
Proof. destruct c as [[] [] [] [] [] [] [] []]; reflexivity. Qed.

Lemma parse_escape_chars s rest :
  parse_string_body (escape_chars s +++ String dquote rest)
  = Some (Some s, rest).
Proof.
  induction s as [|c s IH]; cbn [escape_chars].
  - reflexivity.
  - rewrite append_assoc, parse_escape_char, IH. reflexivity.
Qed.

Lemma QuoteJSONString_append s rest :
  QuoteJSONString s +++ rest
  = String dquote (escape_chars s +++ String dquote rest).
Proof. unfold QuoteJSONString. cbn [append]. now rewrite append_assoc. Qed.

Lemma QuoteJSONString_length s : (2 <= String.length (QuoteJSONString s))%nat.
Proof.
  unfold QuoteJSONString. cbn [String.length]. rewrite length_append. cbn. lia.
Qed.

(** *** Numbers *)

Lemma delimited_facts rest :
  delimited rest ->
  span_digits rest = (EmptyString, rest)
  /\ parse_fraction rest = Some (EmptyString, rest)
  /\ parse_exponent rest = Some (0%Z, rest)
  /\ skip_ws rest = rest.
Proof.
  destruct rest as [|c rest]; cbn; [auto|].
  intros [->|[->| ->]]; auto.
Qed.

Lemma span_digits_string_of_uint u rest :
  delimited rest ->
  span_digits (NilEmpty.string_of_uint u +++ rest)
  = (NilEmpty.string_of_uint u, rest).
Proof.
  intros Hd. induction u; cbn [NilEmpty.string_of_uint append];
    try (cbn [span_digits]; rewrite IHu; reflexivity).
  apply delimited_facts, Hd.
Qed.

Lemma to_uint_normal p : Decimal.unorm (Pos.to_uint p) = Pos.to_uint p.
Proof.
  rewrite <- (DecimalPos.Unsigned.to_of (Pos.to_uint p)).
  now rewrite DecimalPos.Unsigned.of_to.
Qed.

(** A positive number is written with a leading digit other than zero. *)
Lemma string_of_to_uint_head p :
  exists c s,
    NilEmpty.string_of_uint (Pos.to_uint p) = String c s
    /\ is_digit c = true /\ Ascii.eqb c "0" = false.
Proof.
  pose proof (to_uint_normal p) as Hn.
  pose proof (DecimalPos.Unsigned.to_uint_nonzero p) as Hz.
  pose proof (DecimalPos.Unsigned.to_uint_nonnil p) as Hnil.
  destruct (Pos.to_uint p) as [|u|u|u|u|u|u|u|u|u|u] eqn:E;
    try (eexists; eexists; split; [reflexivity|split; reflexivity]).
  - congruence.
  - exfalso. destruct (Decimal.uint_eq_dec u Decimal.Nil) as [->|Hu].
    + apply Hz. reflexivity.
    + pose proof (DecimalFacts.nb_digits_unorm u Hu) as Hle.
      change (Decimal.unorm (Decimal.D0 u)) with (Decimal.unorm u) in Hn.
      rewrite Hn in Hle. cbn in Hle. lia.
Qed.

Lemma digits_value_of_positive p :
  digits_value (NilEmpty.string_of_uint (Pos.to_uint p)) = Zpos p.
Proof.
  unfold digits_value. rewrite NilEmpty.usu.
  change (Decimal.Pos (Pos.to_uint p)) with (Z.to_int (Zpos p)).
  now rewrite DecimalZ.of_to.
Qed.

Lemma parse_digits_of_positive p (negative : bool) rest :
  delimited rest ->
  (Zpos p <= MAX_SAFE_INTEGER)%Z ->
  parse_unsigned_number negative
    (NilEmpty.string_of_uint (Pos.to_uint p) +++ rest)
  = Some (Some (if negative then Zneg p else Zpos p), rest).
Proof.
  intros Hd Hsafe. unfold parse_unsigned_number.
  rewrite span_digits_string_of_uint by assumption.
  destruct (string_of_to_uint_head p) as [c [s [E [_ Hc]]]].
  rewrite E, Hc. cbn [andb].
  destruct (delimited_facts rest Hd) as [_ [-> [-> _]]].
  cbv zeta. rewrite append_empty_r, <- E, digits_value_of_positive.
  cbn [String.length Z.of_nat]. change (0 - 0)%Z with 0%Z.
  change (0 <=? 0)%Z with true. cbv iota.
  change (10 ^ 0)%Z with 1%Z. rewrite Z.mul_1_r.
  rewrite safe_integer_of_integer by (lia || discriminate).
  now destruct negative.
Qed.

Lemma Number_toString_positive p :
  is_safe_integer (Zpos p) = true ->
  Number_toString (Zpos p) = NilEmpty.string_of_uint (Pos.to_uint p).
Proof.
  intros Hsafe. unfold Number_toString. rewrite Hsafe.
  unfold decimal. cbn [Z.to_int NilZero.string_of_int].
  unfold NilZero.string_of_uint.
  pose proof (DecimalPos.Unsigned.to_uint_nonnil p).
  destruct (Pos.to_uint p); congruence.
Qed.

Lemma Number_toString_negative p :
  is_safe_integer (Zneg p) = true ->
  Number_toString (Zneg p)
  = String "-" (NilEmpty.string_of_uint (Pos.to_uint p)).
Proof.
  intros Hsafe. unfold Number_toString. rewrite Hsafe.
  unfold decimal. cbn [Z.to_int NilZero.string_of_int].
  unfold NilZero.string_of_uint.
  pose proof (DecimalPos.Unsigned.to_uint_nonnil p).
  destruct (Pos.to_uint p); congruence.
Qed.

Lemma parse_number_toString n rest :
  delimited rest ->
  is_safe_integer n = true ->
  parse_number (Number_toString n +++ rest) = Some (Some n, rest).
Proof.
  intros Hd Hsafe. pose proof Hsafe as Hle.
  unfold is_safe_integer in Hle. apply Z.leb_le in Hle.
  destruct n as [|p|p].
  - change (Number_toString 0 +++ rest) with (String "0" rest).
    destruct (delimited_facts rest Hd) as [Hspan [Hfrac [Hexp _]]].
    assert (E : span_digits (String "0" rest) = ("0", rest)).
    { change (span_digits (String "0" rest))
        with (let (ds, r) := span_digits rest in (String "0"%char ds, r)).
      now rewrite Hspan. }
    unfold parse_number.
    change (Ascii.eqb "0" "-") with false. cbv iota.
    unfold parse_unsigned_number.
    rewrite E, Hfrac, Hexp. reflexivity.
  - rewrite Number_toString_positive by assumption. unfold parse_number.
    destruct (string_of_to_uint_head p) as [c [s [E [Hdig Hc]]]].
    assert (Hminus : Ascii.eqb c "-" = false).
    { destruct (Ascii.eqb_spec c "-"); [subst; discriminate|reflexivity]. }
    pose proof (parse_digits_of_positive p false rest Hd Hle) as Hp.
    rewrite E in *. cbn [append] in *. rewrite Hminus. exact Hp.
  - rewrite Number_toString_negative by assumption.
    unfold parse_number. cbn [append].
    cbn [Ascii.eqb Bool.eqb].
    exact (parse_digits_of_positive p true rest Hd Hle).
Qed.

(** The first character of a rendered number: a minus sign or a digit. *)
Lemma Number_toString_head n :
  is_safe_integer n = true ->
  exists c s, Number_toString n = String c s
              /\ (c = "-"%char \/ is_digit c = true).
Proof.
  intros Hsafe. destruct n as [|p|p].
  - exists "0"%char, EmptyString. split; [reflexivity|now right].
  - rewrite Number_toString_positive by assumption.
    destruct (string_of_to_uint_head p) as [c [s [E [Hdig _]]]].
    exists c, s. split; [assumption|now right].
  - rewrite Number_toString_negative by assumption.
    eexists; eexists; split; [reflexivity|now left].
Qed.

(** *** Values *)

Lemma isJSON_serializes v :
  isJSON v = true -> exists s, SerializeJSONProperty v = Some s.
Proof. destruct v as [| | | | | | |[t|]| |]; cbn; try discriminate; eauto. Qed.

(** A rendered value starts with a character that is neither white space
    nor a closing bracket. *)
Lemma serialized_head v s :
  isJSON v = true ->
  SerializeJSONProperty v = Some s ->
  exists c s', s = String c s'
               /\ is_ws c = false
               /\ Ascii.eqb c "]" = false /\ Ascii.eqb c "}" = false.
Proof.
  destruct v as [| |[]|n| | | | | |]; cbn [isJSON SerializeJSONProperty];
    try discriminate; intros Hjson [= <-];
    try (eexists; eexists; repeat split; reflexivity).
  destruct (Number_toString_head n Hjson) as [c [s' [E [Hm|Hdig]]]];
    exists c, s'; (split; [exact E|]).
  - subst c. repeat split; reflexivity.
  - repeat split;
      match goal with
      | |- is_ws c = false =>
          destruct c as [[] [] [] [] [] [] [] []]; try reflexivity; discriminate
      | |- Ascii.eqb c ?x = false =>
          destruct (Ascii.eqb_spec c x); [subst; discriminate|reflexivity]
      end.
Qed.

Lemma render_element_json v s :
  SerializeJSONProperty v = Some s -> render_element v = s.
Proof. unfold render_element. now intros ->. Qed.

Lemma join_cons2 sep (a b : string) (l : list string) :
  join sep (a :: b :: l) = a +++ sep +++ join sep (b :: l).
Proof. reflexivity. Qed.

Lemma parse_elements_rendered (l : list Value) :
  Forall parses_back l ->
  forallb isJSON l = true ->
  l <> [] ->
  forall fuel rest,
    (String.length (join "," (map render_element l)) + 1 <= fuel)%nat ->
    parse_elements fuel (join "," (map render_element l) +++ String "]" rest)
    = Some (Some l, rest).
Proof.
  induction 1 as [|x l Hx Hl IH]; [congruence|].
  intros Hjson _ fuel rest Hfuel.
  cbn [forallb] in Hjson. apply andb_prop in Hjson as [Hxj Hlj].
  destruct (isJSON_serializes x Hxj) as [sx Hsx].
  destruct fuel as [|fuel]; [lia|].
  cbn [map] in *. rewrite (render_element_json x sx Hsx) in *.
  destruct l as [|y l].
  - cbn [map join String.concat] in *. (* a single element *)
    cbn [parse_elements].
    rewrite (Hx Hxj sx Hsx fuel (String "]" rest)); [|lia|cbn; auto].
    reflexivity.
  - cbn [map] in *. rewrite join_cons2 in Hfuel |- *. cbn [append] in Hfuel.
    rewrite !length_append in Hfuel. cbn [String.length] in Hfuel.
    rewrite !append_assoc. cbn [append parse_elements].
    rewrite (Hx Hxj sx Hsx fuel); [|lia|cbn; auto].
    cbn [skip_ws is_ws Ascii.eqb Bool.eqb orb].
    rewrite IH; [reflexivity|assumption|discriminate|].
    cbn [map]. lia.
Qed.

Lemma render_member_json kv s :
  SerializeJSONProperty (snd kv) = Some s ->
  render_member kv = [QuoteJSONString (fst kv) +++ ":" +++ s].
Proof. unfold render_member. now intros ->. Qed.

Lemma parse_members_rendered (ps : list (string * Value)) :
  Forall (fun kv => parses_back (snd kv)) ps ->
  forallb (fun kv => isJSON (snd kv)) ps = true ->
  ps <> [] ->
  forall fuel rest,
    (String.length (join "," (flat_map render_member ps)) + 1 <= fuel)%nat ->
    parse_members fuel (join "," (flat_map render_member ps) +++ String "}" rest)
    = Some (Some ps, rest).
Proof.
  induction 1 as [|[k x] ps Hx Hps IH]; [congruence|].
  intros Hjson _ fuel rest Hfuel.
  cbn [forallb snd] in Hjson. apply andb_prop in Hjson as [Hxj Hpsj].
  cbn [snd] in Hx.
  destruct (isJSON_serializes x Hxj) as [sx Hsx].
  destruct fuel as [|fuel]; [lia|].
  cbn [flat_map] in *.
  rewrite (render_member_json (k, x) sx Hsx) in *. cbn [fst app] in *.
  destruct ps as [|[k' y] ps].
  - cbn [flat_map join String.concat] in *.
    rewrite !length_append in Hfuel. cbn [String.length] in Hfuel.
    pose proof (QuoteJSONString_length k).
    rewrite !append_assoc, QuoteJSONString_append.
    cbn [parse_members skip_ws].
    change (is_ws dquote) with false. cbv iota.
    change (Ascii.eqb dquote dquote) with true. cbv iota.
    rewrite parse_escape_chars. cbn [append skip_ws].
    change (is_ws ":") with false. cbv iota.
    change (Ascii.eqb ":" ":") with true. cbv iota.
    rewrite (Hx Hxj sx Hsx fuel (String "}" rest)); [|lia|cbn; auto].
    reflexivity.
  - inversion Hps as [|? ? Hy _]; subst. cbn [snd] in Hy.
    cbn [forallb snd] in Hpsj. pose proof Hpsj as Hpsj'.
    apply andb_prop in Hpsj' as [Hyj _].
    destruct (isJSON_serializes y Hyj) as [sy Hsy].
    cbn [flat_map] in *.
    rewrite (render_member_json (k', y) sy Hsy) in *. cbn [fst app] in *.
    rewrite join_cons2 in Hfuel |- *. cbn [append] in Hfuel.
    rewrite !length_append in Hfuel. cbn [String.length] in Hfuel.
    pose proof (QuoteJSONString_length k).
    rewrite !append_assoc, QuoteJSONString_append.
    cbn [parse_members skip_ws].
    change (is_ws dquote) with false. cbv iota.
    change (Ascii.eqb dquote dquote) with true. cbv iota.
    rewrite parse_escape_chars. cbn [append skip_ws].
    change (is_ws ":") with false. cbv iota.
    change (Ascii.eqb ":" ":") with true. cbv iota.
    rewrite (Hx Hxj sx Hsx fuel); [|lia|cbn; auto].
    cbn [skip_ws].
    change (is_ws ",") with false. cbv iota.
    change (Ascii.eqb "," ",") with true. cbv iota.
    assert (Hps_ne : (k', y) :: ps <> []) by discriminate.
    specialize (IH Hpsj Hps_ne fuel rest). cbn [append] in IH.
    rewrite IH; [reflexivity|lia].
Qed.

(** *** Objects rebuilt from their members *)

Lemma set_fresh (o : Obj) k v :
  hasOwnProperty o k = false -> set o k v = o ++ [(k, v)].
Proof.
  induction o as [|[k' v'] o IH]; cbn; [reflexivity|].
  destruct (String.eqb k' k); [discriminate|]. intros H. now rewrite IH.
Qed.

Lemma hasOwnProperty_app (o1 o2 : Obj) k :
  hasOwnProperty (o1 ++ o2) k = hasOwnProperty o1 k || hasOwnProperty o2 k.
Proof.
  induction o1 as [|[k' v'] o1 IH]; cbn; [reflexivity|].
  destruct (String.eqb k' k); [reflexivity|apply IH].
Qed.

Lemma hasOwnProperty_existsb (o : Obj) k :
  hasOwnProperty o k = existsb (String.eqb k) (map fst o).
Proof.
  induction o as [|[k' v'] o IH]; cbn; [reflexivity|].
  rewrite (String.eqb_sym k k'). destruct (String.eqb k' k); [reflexivity|apply IH].
Qed.

Lemma existsb_eqb_false_in k (l : list string) :
  existsb (String.eqb k) l = false -> forall k', In k' l -> String.eqb k k' = false.
Proof.
  induction l as [|a l IH]; cbn; [contradiction|].
  intros H k' [->|Hin]; apply orb_false_elim in H as [Ha Hl]; auto.
Qed.

Lemma object_of_members_distinct_from (ps acc : Obj) :
  distinct (map fst ps) = true ->
  (forall k, In k (map fst ps) -> hasOwnProperty acc k = false) ->
  fold_left (fun o kv => set o (fst kv) (snd kv)) ps acc = acc ++ ps.
Proof.
  revert acc. induction ps as [|[k v] ps IH]; intros acc Hd Hacc; cbn [fold_left].
  - now rewrite app_nil_r.
  - cbn [map fst distinct] in Hd. apply andb_prop in Hd as [Hk Hd].
    apply negb_true_iff in Hk. cbn [fst snd].
    rewrite set_fresh by (apply Hacc; now left).
    rewrite IH; [now rewrite <- app_assoc|assumption|].
    intros k' Hin. rewrite hasOwnProperty_app, Hacc by (now right).
    cbn. now rewrite (existsb_eqb_false_in k _ Hk k' Hin).
Qed.

Lemma object_of_members_distinct (ps : Obj) :
  distinct (map fst ps) = true -> object_of_members ps = ps.
Proof.
  intros Hd. unfold object_of_members.
  now rewrite object_of_members_distinct_from.
Qed.

(** *** The round trip *)

Lemma parse_value_open_bracket fuel text :
  parse_value (S fuel) (String "[" text)
  = match skip_ws text with
    | EmptyString => None
    | String c' rest' =>
        if Ascii.eqb c' "]" then Some (Some (VArr []), rest')
        else match parse_elements fuel text with
             | Some (vs, r) => Some (option_map VArr vs, r)
             | None => None
             end
    end.
Proof. reflexivity. Qed.

Lemma parse_value_open_brace fuel text :
  parse_value (S fuel) (String "{" text)
  = match skip_ws text with
    | EmptyString => None
    | String c' rest' =>
        if Ascii.eqb c' "}" then Some (Some (VObj []), rest')
        else match parse_members fuel text with
             | Some (ms, r) =>
                 Some (option_map (fun ms => VObj (object_of_members ms)) ms, r)
             | None => None
             end
    end.
Proof. reflexivity. Qed.

Lemma parse_value_rendered (v : Value) : parses_back v.
Proof.
  induction v as [| |b|n|str|elems IH|props IH|t|bytes|json]
    using Value_nested_ind;
    unfold parses_back; intros Hjson s Hs fuel rest Hfuel Hd;
    cbn [isJSON] in Hjson; try discriminate; cbn [SerializeJSONProperty] in Hs;
    injection Hs as <-.
  - (* null *) destruct fuel; [cbn in Hfuel; lia|reflexivity].
  - (* booleans *) destruct b; (destruct fuel; [cbn in Hfuel; lia|reflexivity]).
  - (* numbers *)
    destruct (serialized_head (VNum n) _ Hjson eq_refl)
      as [c [s' [E [Hws [Hb1 Hb2]]]]].
    destruct (Number_toString_head n Hjson) as [c0 [s0 [E0 Hc]]].
    rewrite E in E0. injection E0 as <- <-.
    pose proof (parse_number_toString n rest Hd Hjson) as Hp.
    rewrite E in *.
    destruct fuel as [|fuel]; [cbn in Hfuel; lia|].
    cbn [parse_value append skip_ws] in *. rewrite Hws.
    assert (Hne : forall x, is_digit x = false -> x <> "-"%char ->
                            Ascii.eqb c x = false).
    { intros x Hx Hm. destruct (Ascii.eqb_spec c x); [subst x|reflexivity].
      destruct Hc; congruence. }
    rewrite !Hne by (reflexivity || discriminate).
    now rewrite Hp.
  - (* strings *)
    pose proof (QuoteJSONString_length str).
    destruct fuel as [|fuel]; [lia|].
    rewrite QuoteJSONString_append. cbn [parse_value skip_ws].
    change (is_ws dquote) with false. cbv iota.
    change (Ascii.eqb dquote "{") with false.
    change (Ascii.eqb dquote "[") with false.
    change (Ascii.eqb dquote dquote) with true. cbv iota.
    now rewrite parse_escape_chars.
  - (* arrays *)
    change (map _ elems) with (map render_element elems) in *.
    cbn [append String.length] in Hfuel. rewrite length_append in Hfuel.
    cbn [String.length] in Hfuel.
    destruct fuel as [|fuel]; [lia|].
    destruct elems as [|x elems]; [reflexivity|].
    assert (Hxj : isJSON x = true).
    { cbn [forallb] in Hjson. now apply andb_prop in Hjson. }
    destruct (isJSON_serializes x Hxj) as [sx Hsx].
    destruct (serialized_head x sx Hxj Hsx) as [c [s' [E [Hws [Hb1 _]]]]].
    pose proof (parse_elements_rendered (x :: elems) IH Hjson
                  ltac:(discriminate) fuel rest ltac:(lia)) as Hp.
    cbn [append]. rewrite append_assoc. cbn [append].
    rewrite parse_value_open_bracket.
    assert (Hhead : exists tail,
               join "," (map render_element (x :: elems)) +++ String "]" rest
               = String c tail).
    { cbn [map]. rewrite (render_element_json x sx Hsx), E.
      destruct elems; [|cbn [map]; rewrite join_cons2]; cbn; eauto. }
    destruct Hhead as [tail Htail]. rewrite Htail in *.
    cbn [skip_ws]. rewrite Hws, Hb1. now rewrite Hp.
  - (* objects *)
    apply andb_prop in Hjson as [Hdist Hjson].
    change (flat_map _ props) with (flat_map render_member props) in *.
    cbn [append String.length] in Hfuel. rewrite length_append in Hfuel.
    cbn [String.length] in Hfuel.
    destruct fuel as [|fuel]; [lia|].
    destruct props as [|[k x] props]; [reflexivity|].
    pose proof (parse_members_rendered ((k, x) :: props) IH Hjson
                  ltac:(discriminate) fuel rest ltac:(lia)) as Hp.
    cbn [append]. rewrite append_assoc. cbn [append].
    rewrite parse_value_open_brace.
    assert (Hhead : exists tail,
               join "," (flat_map render_member ((k, x) :: props)) +++ String "}" rest
               = String dquote tail).
    { cbn [flat_map]. cbn [forallb snd] in Hjson.
      apply andb_prop in Hjson as [Hxj _].
      destruct (isJSON_serializes x Hxj) as [sx Hsx].
      rewrite (render_member_json (k, x) sx Hsx). cbn [fst app].
      destruct (flat_map render_member props); [|rewrite join_cons2];
        unfold QuoteJSONString; cbn; eauto. }
    destruct Hhead as [tail Htail]. rewrite Htail in *.
    cbn [skip_ws]. change (is_ws dquote) with false. cbv iota.
    change (Ascii.eqb dquote "}") with false. cbv iota.
    rewrite Hp. cbn [option_map]. now rewrite object_of_members_distinct.
Qed.

(** [JSON.parse(JSON.stringify(v))] is [v] for every value that
    [JSON.stringify] renders without loss. *)
Lemma JSON_parse_stringify (v : Value) :
  isJSON v = true ->
  exists s, JSON_stringify v = VStr s /\ JSON_parse s = Reads v.
Proof.
  intros Hjson. destruct (isJSON_serializes v Hjson) as [s Hs].
  exists s. unfold JSON_stringify, JSON_parse. rewrite Hs. split; [reflexivity|].
  pose proof (parse_value_rendered v Hjson s Hs (String.length s) EmptyString
                (le_n _) I) as Hp.
  rewrite append_empty_r in Hp. now rewrite Hp.
Qed.

End JSONRoundTrip.

(** ** Dates: reading back what was formatted *)

Section DateRoundTrip.
Import JS EntityModel.
Local Open Scope Z_scope.

Local Ltac div_mod_lia := Z.div_mod_to_equations; lia.

(** *** The model at work *)

Example toISOString_2024 :
  toISOString 1705314600123 = "2024-01-15T10:30:00.123Z".
Proof. reflexivity. Qed.

Example toISOString_before_epoch :
  toISOString (-1) = "1969-12-31T23:59:59.999Z".
Proof. reflexivity. Qed.

Example toISOString_leap_day :
  toISOString 951782400000 = "2000-02-29T00:00:00.000Z".
Proof. reflexivity. Qed.

Example formatDate_2024 : formatDate 1705314600123 = "2024-01-15 10:30:00".
Proof. reflexivity. Qed.

Example Date_parse_local_time :
  Date_parse Fixtures.utc "2024-01-15 10:30:00" = Some 1705314600000
  /\ Date_parse Fixtures.utc_plus_one "2024-01-15 10:30:00" = Some 1705311000000.
Proof. split; reflexivity. Qed.

(** *** The calendar *)

Lemma DayFromYear_step y :
  DayFromYear (y + 1) = DayFromYear y + 365 + leapDays y.
Proof.
  unfold DayFromYear, leapDays, isLeapYear.
  replace (y + 1 - 1970) with (y - 1969) by lia.
  replace (y + 1 - 1969) with (y - 1968) by lia.
  replace (y + 1 - 1901) with (y - 1900) by lia.
  replace (y + 1 - 1601) with (y - 1600) by lia.
  destruct (Z.eqb_spec (y mod 4) 0), (Z.eqb_spec (y mod 100) 0),
    (Z.eqb_spec (y mod 400) 0); cbn [andb orb negb]; div_mod_lia.
Qed.

Lemma YearFromDay_spec d :
  DayFromYear (YearFromDay d) <= d < DayFromYear (YearFromDay d + 1).
Proof.
  unfold YearFromDay.
  set (y := 1970 + d * 400 / 146097).
  assert (Hlo : DayFromYear (y - 1) <= d).
  { unfold DayFromYear, y. div_mod_lia. }
  assert (Hhi : d < DayFromYear (y + 2)).
  { unfold DayFromYear, y. div_mod_lia. }
  destruct (Z.ltb_spec d (DayFromYear y)).
  - replace (y - 1 + 1) with y by lia. lia.
  - destruct (Z.leb_spec (DayFromYear (y + 1)) d).
    + replace (y + 1 + 1) with (y + 2) by lia. lia.
    + lia.
Qed.

Lemma leapDays_cases y : leapDays y = 0 \/ leapDays y = 1.
Proof. unfold leapDays. destruct (isLeapYear y); auto. Qed.

Lemma DayWithinYear_bounds t :
  0 <= DayWithinYear t < 365 + leapDays (YearFromTime t).
Proof.
  unfold DayWithinYear, YearFromTime.
  pose proof (YearFromDay_spec (Day t)) as H.
  rewrite DayFromYear_step in H. lia.
Qed.

(** The month table: a day of the year falls in month [monthOfDay], on a
    day of that month that exists. *)
Lemma month_table y d :
  0 <= d < 365 + leapDays y ->
  0 <= monthOfDay (leapDays y) d <= 11
  /\ 1 <= d - monthStart (leapDays y) (monthOfDay (leapDays y) d) + 1
       <= DaysInMonth y (monthOfDay (leapDays y) d).
Proof.
  intros Hd. unfold monthOfDay, DaysInMonth.
  destruct (leapDays_cases y) as [E|E]; rewrite E in *;
    repeat match goal with
           | |- context [?a <? ?b] => destruct (Z.ltb_spec a b)
           end; cbn [monthStart]; lia.
Qed.

Lemma time_fields t :
  0 <= HourFromTime t <= 23 /\ 0 <= MinFromTime t <= 59
  /\ 0 <= SecFromTime t <= 59
  /\ MakeDate (Day t)
       (MakeTime (HourFromTime t) (MinFromTime t) (SecFromTime t) 0)
     = t - t mod 1000.
Proof.
  unfold HourFromTime, MinFromTime, SecFromTime, MakeDate, MakeTime, Day,
    msPerDay, msPerHour, msPerMinute, msPerSecond.
  repeat split; div_mod_lia.
Qed.

Lemma MakeDay_of_fields t :
  MakeDay (YearFromTime t) (MonthFromTime t) (DateFromTime t) = Day t.
Proof. unfold MakeDay, DateFromTime, MonthFromTime, DayWithinYear. lia. Qed.

(** *** Digits *)

Lemma digit_cases n :
  let d := n mod 10 in
  d = 0 \/ d = 1 \/ d = 2 \/ d = 3 \/ d = 4 \/ d = 5 \/ d = 6 \/ d = 7
  \/ d = 8 \/ d = 9.
Proof. intros d. subst d. div_mod_lia. Qed.

Lemma digit_val_digit_char n : digit_val (digit_char (n mod 10)) = Some (n mod 10).
Proof.
  destruct (digit_cases n) as [E|[E|[E|[E|[E|[E|[E|[E|[E|E]]]]]]]]];
    rewrite E; reflexivity.
Qed.

Lemma digit_char_not_T n : Ascii.eqb (digit_char (n mod 10)) "T" = false.
Proof.
  destruct (digit_cases n) as [E|[E|[E|[E|[E|[E|[E|[E|[E|E]]]]]]]]];
    rewrite E; reflexivity.
Qed.

(** *** The SQL form of a date *)

(** Cutting the ISO string after the seconds and replacing its [T]. *)
Lemma sql_form_of_iso y mo d h mi se ms :
  replace1 "T" " "
    (slice0 19
       (pad 4 y +++ "-" +++ pad 2 mo +++ "-" +++ pad 2 d +++ "T" +++ pad 2 h
        +++ ":" +++ pad 2 mi +++ ":" +++ pad 2 se +++ "." +++ pad 3 ms +++ "Z"))
  = pad 4 y +++ "-" +++ pad 2 mo +++ "-" +++ pad 2 d +++ " " +++ pad 2 h
    +++ ":" +++ pad 2 mi +++ ":" +++ pad 2 se.
Proof.
  cbn [pad append slice0 replace1].
  rewrite !digit_char_not_T. reflexivity.
Qed.

Lemma read_sql_form y mo d h mi se :
  0 <= y < 10000 -> 0 <= mo < 100 -> 0 <= d < 100 ->
  0 <= h < 100 -> 0 <= mi < 100 -> 0 <= se < 100 ->
  read_sql_datetime
    (pad 4 y +++ "-" +++ pad 2 mo +++ "-" +++ pad 2 d +++ " " +++ pad 2 h
     +++ ":" +++ pad 2 mi +++ ":" +++ pad 2 se)
  = Some (y, mo, d, h, mi, se).
Proof.
  intros Hy Hmo Hd Hh Hmi Hse.
  unfold read_sql_datetime.
  cbn [pad append read_digits expect].
  repeat (rewrite digit_val_digit_char; cbn [read_digits expect];
          cbn [Ascii.eqb Bool.eqb]).
  repeat f_equal; div_mod_lia.
Qed.

Lemma formatDate_sql_form t :
  100 <= YearFromTime t <= 9999 ->
  formatDate t
  = pad 4 (YearFromTime t) +++ "-" +++ pad 2 (MonthFromTime t + 1)
    +++ "-" +++ pad 2 (DateFromTime t) +++ " " +++ pad 2 (HourFromTime t)
    +++ ":" +++ pad 2 (MinFromTime t) +++ ":" +++ pad 2 (SecFromTime t).
Proof.
  intros Hy. unfold EntityModel.formatDate, toISOString.
  replace ((0 <=? YearFromTime t) && (YearFromTime t <=? 9999)) with true
    by (symmetry; apply andb_true_intro; split; apply Z.leb_le; lia).
  apply sql_form_of_iso.
Qed.

Lemma DayFromYear_monotone y1 y2 : y1 <= y2 -> DayFromYear y1 <= DayFromYear y2.
Proof. intros H. unfold DayFromYear. div_mod_lia. Qed.

(** A date of a year from 100 to 9999, formatted and read back by a host whose
    local time is [LocalTZA] ahead of UTC: the seconds are kept, the
    milliseconds are dropped, and the clock reading is taken for local
    time. *)
Lemma Date_parse_formatDate rt t :
  100 <= YearFromTime t <= 9999 ->
  Date_parse rt (formatDate t) = TimeClip (t - t mod 1000 - LocalTZA rt).
Proof.
  intros Hy. unfold Date_parse.
  pose proof (DayWithinYear_bounds t) as Hdiy.
  pose proof (month_table (YearFromTime t) (DayWithinYear t) Hdiy) as [Hm Hd].
  fold (MonthFromTime t) in Hm, Hd. fold (DateFromTime t) in Hd.
  pose proof (time_fields t) as [Hh [Hmi [Hse Hmake]]].
  assert (Hdim : DaysInMonth (YearFromTime t) (MonthFromTime t) <= 31).
  { unfold DaysInMonth. destruct (leapDays_cases (YearFromTime t)) as [E|E];
      rewrite E;
      repeat match goal with
             | |- context [match ?m with _ => _ end] => destruct m
             end; lia. }
  rewrite formatDate_sql_form, read_sql_form by lia.
  unfold valid_civil.
  replace (MonthFromTime t + 1 - 1) with (MonthFromTime t) by lia.
  repeat match goal with
         | |- context [?a <=? ?b] =>
             replace (a <=? b) with true by (symmetry; apply Z.leb_le; lia)
         end.
  cbn [andb]. now rewrite MakeDay_of_fields, Hmake.
Qed.

(** The time values of these years are time values a Date can
    hold. *)
Lemma four_digit_year_range t :
  100 <= YearFromTime t <= 9999 ->
  -62167219200000 <= t - t mod 1000 <= 253402300799000.
Proof.
  intros Hy. unfold YearFromTime in Hy.
  pose proof (YearFromDay_spec (Day t)) as [Hlo Hhi].
  pose proof (DayFromYear_monotone 0 (YearFromDay (Day t)) ltac:(lia)) as H0.
  pose proof (DayFromYear_monotone (YearFromDay (Day t) + 1) 10000 ltac:(lia)) as H1.
  change (DayFromYear 0) with (-719528) in H0.
  change (DayFromYear 10000) with 2932897 in H1.
  unfold Day, msPerDay in *. div_mod_lia.
Qed.

Lemma Date_parse_formatDate_utc rt t :
  100 <= YearFromTime t <= 9999 ->
  LocalTZA rt = 0 ->
  Date_parse rt (formatDate t) = Some (t - t mod 1000).
Proof.
  intros Hy Hz. rewrite Date_parse_formatDate, Hz by assumption.
  pose proof (four_digit_year_range t Hy).
  unfold TimeClip. rewrite Z.sub_0_r.
  replace (Z.abs (t - t mod 1000) <=? 8640000000000000) with true
    by (symmetry; apply Z.leb_le; lia).
  reflexivity.
Qed.

End DateRoundTrip.

(** ** Serialization and hydration *)

Section RoundTrip.
Import JS Types EntityModel.

(** *** Objects with distinct keys *)

Lemma distinct_app_cons (pre : Obj) k v (suf : Obj) :
  distinct (keys (pre ++ (k, v) :: suf)) = true ->
  hasOwnProperty pre k = false /\ distinct (keys (pre ++ suf)) = true.
Proof.
  induction pre as [|[k' v'] pre IH]; cbn [app keys map fst distinct].
  - intros H. apply andb_prop in H as [_ H]. now split.
  - intros H. apply andb_prop in H as [Hk' H]. apply negb_true_iff in Hk'.
    fold (keys (pre ++ (k, v) :: suf)) in *.
    destruct (IH H) as [Hpre Hd]. unfold keys in *.
    rewrite map_app in *. cbn [map fst] in *.
    rewrite existsb_app in Hk'. apply orb_false_elim in Hk' as [Hk1 Hk2].
    cbn [existsb] in Hk2. apply orb_false_elim in Hk2 as [Hkk Hk2].
    split.
    + cbn [hasOwnProperty]. now rewrite Hkk.
    + cbn [distinct]. rewrite existsb_app, Hk1, Hk2. now rewrite Hd.
Qed.

Lemma lookup_app_fresh (pre suf : Obj) k :
  hasOwnProperty pre k = false -> lookup (pre ++ suf) k = lookup suf k.
Proof.
  induction pre as [|[k' v'] pre IH]; cbn; [reflexivity|].
  destruct (String.eqb k' k); [discriminate|exact IH].
Qed.

Lemma set_app_fresh (pre suf : Obj) k v :
  hasOwnProperty pre k = false -> set (pre ++ suf) k v = pre ++ set suf k v.
Proof.
  induction pre as [|[k' v'] pre IH]; cbn; [reflexivity|].
  destruct (String.eqb k' k); [discriminate|]. intros H. now rewrite IH.
Qed.

Lemma hasOwnProperty_map (f : string -> Value -> Value) (o : Obj) k :
  hasOwnProperty (map (fun kv => (fst kv, f (fst kv) (snd kv))) o) k
  = hasOwnProperty o k.
Proof.
  induction o as [|[k' v'] o IH]; cbn; [reflexivity|].
  destruct (String.eqb k' k); [reflexivity|exact IH].
Qed.

Lemma lookup_map (f : string -> Value -> Value) (o : Obj) k :
  lookup (map (fun kv => (fst kv, f (fst kv) (snd kv))) o) k
  = option_map (f k) (lookup o k).
Proof.
  induction o as [|[k' v'] o IH]; cbn; [reflexivity|].
  destruct (String.eqb_spec k' k); [now subst|exact IH].
Qed.

Lemma lookup_delete (o : Obj) j k :
  k <> j -> lookup (delete o j) k = lookup o k.
Proof.
  intros Hk. induction o as [|[k' v'] o IH]; cbn; [reflexivity|].
  destruct (String.eqb_spec k' j) as [->|Hj].
  - destruct (String.eqb_spec j k); [congruence|exact IH].
  - cbn. destruct (String.eqb k' k); [reflexivity|exact IH].
Qed.

Lemma keys_map (f : string -> Value -> Value) (o : Obj) :
  keys (map (fun kv => (fst kv, f (fst kv) (snd kv))) o) = keys o.
Proof. unfold keys. rewrite map_map. reflexivity. Qed.

Lemma existsb_delete (o : Obj) j k :
  existsb (String.eqb k) (keys o) = false ->
  existsb (String.eqb k) (keys (delete o j)) = false.
Proof.
  induction o as [|[k' v'] o IH]; cbn; [reflexivity|].
  intros H. apply orb_false_elim in H as [H1 H2].
  destruct (String.eqb k' j); [now apply IH|].
  cbn. rewrite H1. now apply IH.
Qed.

Lemma distinct_delete (o : Obj) j :
  distinct (keys o) = true -> distinct (keys (delete o j)) = true.
Proof.
  induction o as [|[k' v'] o IH]; cbn; [reflexivity|].
  intros H. apply andb_prop in H as [H1 H2]. apply negb_true_iff in H1.
  destruct (String.eqb k' j); [now apply IH|].
  cbn. fold (keys (delete o j)). rewrite (existsb_delete o j k' H1).
  now apply IH.
Qed.

(** The loop of [toDBRecord] visits every key once: on an object with
    distinct keys it rewrites every value in place. *)
Lemma rewrite_loop_is_map (f : string -> Value -> Value) (suf pre : Obj) :
  distinct (keys (pre ++ suf)) = true ->
  fold_left
    (fun record key =>
       if hasOwnProperty record key
       then set record key (f key (get record key))
       else record)
    (keys suf) (pre ++ suf)
  = pre ++ map (fun kv => (fst kv, f (fst kv) (snd kv))) suf.
Proof.
  revert pre. induction suf as [|[k v] suf IH]; intros pre Hd;
    cbn [keys map fst snd fold_left]; [reflexivity|].
  destruct (distinct_app_cons pre k v suf Hd) as [Hfresh Hd'].
  rewrite hasOwnProperty_app. cbn [hasOwnProperty]. rewrite String.eqb_refl, orb_true_r.
  unfold get. rewrite lookup_app_fresh by assumption. cbn [lookup].
  rewrite String.eqb_refl. rewrite set_app_fresh by assumption.
  cbn [set]. rewrite String.eqb_refl.
  change (pre ++ (k, f k v) :: suf) with (pre ++ [(k, f k v)] ++ suf).
  rewrite app_assoc. fold (keys suf). rewrite IH.
  - now rewrite <- app_assoc.
  - rewrite <- app_assoc. cbn [app].
    unfold keys in *. rewrite map_app in *. exact Hd.
Qed.

Lemma toDBRecord_distinct rt cls (e : Obj) :
  distinct (keys e) = true ->
  toDBRecord rt cls e
  = delete (map (fun kv => (fst kv, dbValue rt cls (fst kv) (snd kv))) e) "_joins".
Proof.
  intros Hd. unfold toDBRecord.
  pose proof (rewrite_loop_is_map (dbValue rt cls) e [] Hd) as H.
  cbn [app] in H. now rewrite H.
Qed.

(** The loop of [init] assigns every attribute once. *)
Lemma assign_loop_is_map (f : string -> Value -> Value) (suf pre : Obj) :
  distinct (keys (pre ++ suf)) = true ->
  fold_left
    (fun this prop =>
       if hasOwnProperty (pre ++ suf) prop
       then set this prop (f prop (get (pre ++ suf) prop))
       else this)
    (keys suf) (map (fun kv => (fst kv, f (fst kv) (snd kv))) pre)
  = map (fun kv => (fst kv, f (fst kv) (snd kv))) (pre ++ suf).
Proof.
  revert pre. induction suf as [|[k v] suf IH]; intros pre Hd;
    cbn [keys map fst snd fold_left].
  - now rewrite app_nil_r.
  - destruct (distinct_app_cons pre k v suf Hd) as [Hfresh Hd'].
    rewrite hasOwnProperty_app. cbn [hasOwnProperty].
    rewrite String.eqb_refl, orb_true_r.
    unfold get. rewrite lookup_app_fresh by assumption. cbn [lookup].
    rewrite String.eqb_refl.
    rewrite set_fresh by (now rewrite hasOwnProperty_map).
    specialize (IH (pre ++ [(k, v)])).
    rewrite <- !app_assoc in IH. cbn [app] in IH.
    rewrite map_app in IH. cbn [map fst snd] in IH.
    fold (keys suf). unfold get in IH. apply IH. exact Hd.
Qed.

Lemma init_distinct rt cls (attributes : Obj) :
  distinct (keys attributes) = true ->
  init rt cls [] attributes
  = map (fun kv => (fst kv, finalValue rt cls (fst kv) (snd kv))) attributes.
Proof.
  intros Hd. unfold init.
  exact (assign_loop_is_map (finalValue rt cls) attributes [] Hd).
Qed.

(** Field by field: what comes back is the value [init] assigns for what
    [toDBRecord] stored. *)
Lemma hydrate_serialized_field rt cls (e : Obj) k :
  distinct (keys e) = true ->
  k <> "_joins" ->
  lookup (hydrate_serialized rt cls e) k
  = option_map (fun v => finalValue rt cls k (dbValue rt cls k v)) (lookup e k).
Proof.
  intros Hd Hk. unfold hydrate_serialized.
  rewrite toDBRecord_distinct by assumption.
  rewrite init_distinct.
  - rewrite lookup_map, lookup_delete, lookup_map by assumption.
    now destruct (lookup e k).
  - apply distinct_delete. now rewrite keys_map.
Qed.

(** *** Declared fields *)

Lemma json_field_round_trip rt cls k v :
  getPropertyType cls k = Some JSON ->
  isJSON v = true ->
  json_text_of_object v = false ->
  finalValue rt cls k (dbValue rt cls k v) = v.
Proof.
  intros Hk Hjson Htext. unfold dbValue.
  replace (is_undefined v) with false by (now destruct v).
  rewrite Hk.
  destruct (typeof_object v && negb (is_null v)) eqn:Hobj.
  - (* an object or an array: stringified, then parsed *)
    destruct (JSON_parse_stringify v Hjson) as [s [-> Hparse]].
    unfold finalValue. rewrite Hk, Hparse. now rewrite Hobj.
  - (* anything else is stored as it is *)
    unfold finalValue. rewrite Hk.
    destruct v as [| | | |s| | | | |]; try reflexivity; try discriminate.
    unfold json_text_of_object in Htext.
    destruct (JSON_parse s) as [parsed|[|]|];
      [now rewrite Htext|discriminate|reflexivity|reflexivity].
Qed.

Lemma date_field_round_trip rt cls k t :
  getPropertyType cls k = Some DATE ->
  (100 <= YearFromTime t <= 9999)%Z ->
  LocalTZA rt = 0%Z ->
  finalValue rt cls k (dbValue rt cls k (VDate (Some t)))
  = VDate (Some (t - t mod 1000)%Z).
Proof.
  intros Hk Hy Hz. unfold dbValue. rewrite Hk.
  cbn [is_undefined instanceof_Date orb]. unfold finalValue. rewrite Hk.
  cbn [new_Date]. now rewrite Date_parse_formatDate_utc.
Qed.

Lemma invalid_date_field_round_trip rt cls k :
  getPropertyType cls k = Some DATE ->
  finalValue rt cls k (dbValue rt cls k (VDate None)) = VDate None.
Proof.
  intros Hk. unfold dbValue. rewrite Hk.
  cbn [is_undefined instanceof_Date orb]. unfold finalValue. now rewrite Hk.
Qed.

(** What a host away from UTC makes of the same field. *)
Lemma date_field_round_trip_local rt cls k t :
  getPropertyType cls k = Some DATE ->
  (100 <= YearFromTime t <= 9999)%Z ->
  finalValue rt cls k (dbValue rt cls k (VDate (Some t)))
  = match TimeClip (t - t mod 1000 - LocalTZA rt)%Z with
    | Some t' => VDate (Some t')
    | None => VStr (formatDate t)
    end.
Proof.
  intros Hk Hy. unfold dbValue. rewrite Hk.
  cbn [is_undefined instanceof_Date orb]. unfold finalValue. rewrite Hk.
  cbn [new_Date]. now rewrite Date_parse_formatDate.
Qed.

Lemma truncated_json v : isJSON v = true -> truncated v = v.
Proof. destruct v; cbn; try discriminate; reflexivity. Qed.

(** On a host in UTC.  Take an entity (an object, so with distinct keys)
    and a field of it other than [_joins].  When the field is declared
    JSON and holds a value built from null, booleans, safe integers,
    strings, arrays and objects -- and is not itself a string holding the
    JSON text of an object or array -- the field survives serialization
    and hydration unchanged.  When the field is declared DATE and holds a
    valid Date of a year from 100 to 9999, on a host whose local time zone
    is UTC, it comes back cut to whole seconds; an invalid Date comes back
    as it is.  When [validate] accepts the hydrated object, it is the
    entity construction returns. *)
Lemma declared_fields_round_trip_in_utc :
  forall rt cls (e : Obj) k v,
    distinct (keys e) = true ->
    k <> "_joins" ->
    lookup e k = Some v ->
    (getPropertyType cls k = Some JSON ->
     isJSON v = true ->
     json_text_of_object v = false ->
     round_trips rt cls e k)
    /\ (forall t,
          getPropertyType cls k = Some DATE ->
          v = VDate (Some t) ->
          (100 <= YearFromTime t <= 9999)%Z ->
          LocalTZA rt = 0%Z ->
          round_trips rt cls e k)
    /\ (getPropertyType cls k = Some DATE ->
        v = VDate None ->
        round_trips rt cls e k)
    /\ (validate cls (hydrate_serialized rt cls e) = Valid ->
        construct rt cls (toDBRecord rt cls e)
        = Constructed (hydrate_serialized rt cls e)).
Proof.
  intros rt cls e k v Hd Hk Hv. unfold round_trips.
  rewrite (hydrate_serialized_field rt cls e k Hd Hk), Hv.
  cbn [option_map].
  split; [|split; [|split]].
  - intros Hkind Hjson Htext.
    now rewrite json_field_round_trip, truncated_json.
  - intros t Hkind -> Hy Hz. now rewrite date_field_round_trip.
  - intros Hkind ->. now rewrite invalid_date_field_round_trip.
  - intros Hvalid. unfold construct. fold (hydrate_serialized rt cls e).
    now rewrite Hvalid.
Qed.

(** A user whose settings and creation time are what the fields are
    declared for, on a host in UTC: the settings come back as they were,
    the creation time without its 123 milliseconds. *)
Example bob_round_trips_in_utc :
  round_trips Fixtures.utc Fixtures.User Fixtures.bob "settings"
  /\ round_trips Fixtures.utc Fixtures.User Fixtures.bob "createdAt"
  /\ lookup (hydrate_serialized Fixtures.utc Fixtures.User Fixtures.bob) "createdAt"
     = Some (VDate (Some 1705314600000%Z)).
Proof.
  split; [|split].
  - exact (proj1 (declared_fields_round_trip_in_utc Fixtures.utc Fixtures.User
                    Fixtures.bob "settings"
                    (VObj [("theme", VStr "dark"); ("tags", VArr [VNum 1; VNull])])
                    eq_refl ltac:(discriminate) eq_refl)
             eq_refl eq_refl eq_refl).
  - exact (proj1 (proj2 (declared_fields_round_trip_in_utc Fixtures.utc Fixtures.User
                           Fixtures.bob "createdAt" (VDate (Some 1705314600123%Z))
                           eq_refl ltac:(discriminate) eq_refl))
             1705314600123%Z eq_refl eq_refl
             ltac:(split; vm_compute; discriminate) eq_refl).
  - reflexivity.
Qed.

(** What the conversions are not made for.  The user [ann] is an entity
    the constructor returns.  Its [settings], declared JSON, hold an
    object with a Date inside: the hydrated copy holds the Date's ISO
    string there.  Its [createdAt], declared DATE, holds the number 0: the
    hydrated copy holds a Date. *)
Example ann_does_not_round_trip :
  construct Fixtures.utc Fixtures.User Fixtures.ann = Constructed Fixtures.ann
  /\ getPropertyType Fixtures.User "settings" = Some JSON
  /\ getPropertyType Fixtures.User "createdAt" = Some DATE
  /\ lookup (hydrate_serialized Fixtures.utc Fixtures.User Fixtures.ann) "settings"
     = Some (VObj [("since", VStr "1970-01-01T00:00:00.000Z")])
  /\ lookup (hydrate_serialized Fixtures.utc Fixtures.User Fixtures.ann) "createdAt"
     = Some (VDate (Some 0%Z))
  /\ ~ round_trips Fixtures.utc Fixtures.User Fixtures.ann "settings"
  /\ ~ round_trips Fixtures.utc Fixtures.User Fixtures.ann "createdAt".
Proof.
  repeat split; try reflexivity; unfold round_trips; vm_compute; discriminate.
Qed.

(** C7, on the code.  A field declared DATE that holds a valid Date of a
    year from 100 to 9999 is written by [toDBRecord] as the clock reading
    of its time value in UTC, and that text is read by [init] as a clock
    reading in the local time zone of the host.  After serialization and
    hydration the field holds the Date cut to whole seconds and moved back
    by the offset of the host's zone: on every host whose local time is
    not UTC the field does not survive, not even up to the truncation to
    whole seconds, and on a host in UTC it does. *)
Theorem C7_date_field_moves_by_zone_offset :
  forall rt cls (e : Obj) (k : string) (t : Z),
    distinct (keys e) = true ->
    k <> "_joins" ->
    getPropertyType cls k = Some DATE ->
    lookup e k = Some (VDate (Some t)) ->
    (100 <= YearFromTime t <= 9999)%Z ->
    (-86400000 <= LocalTZA rt <= 86400000)%Z ->
    lookup (hydrate_serialized rt cls e) k
    = Some (VDate (Some (t - t mod 1000 - LocalTZA rt)%Z))
    /\ (LocalTZA rt <> 0%Z -> ~ round_trips rt cls e k)
    /\ (LocalTZA rt = 0%Z -> round_trips rt cls e k).
Proof.
  intros rt cls e k t Hd Hk Hkind Hl Hy Hz.
  assert (H : lookup (hydrate_serialized rt cls e) k
              = Some (VDate (Some (t - t mod 1000 - LocalTZA rt)%Z))).
  { rewrite (hydrate_serialized_field rt cls e k Hd Hk), Hl.
    cbn [option_map]. rewrite date_field_round_trip_local by assumption.
    pose proof (four_digit_year_range t Hy) as Hr.
    unfold TimeClip.
    now replace (Z.abs (t - t mod 1000 - LocalTZA rt) <=? 8640000000000000)%Z
      with true by (symmetry; apply Z.leb_le; lia). }
  split; [exact H|]. unfold round_trips. rewrite H, Hl. cbn [option_map truncated].
  split.
  - intros Hne [= Heq]. lia.
  - intros ->. now rewrite Z.sub_0_r.
Qed.

(** One hour ahead of UTC the creation time of [bob], 10:30:00.123 UTC on
    15 January 2024, comes back as 09:30:00 UTC. *)
Lemma C7_bob_created_an_hour_early :
  (distinct (keys Fixtures.bob) = true
   /\ "createdAt" <> "_joins"
   /\ getPropertyType Fixtures.User "createdAt" = Some DATE
   /\ lookup Fixtures.bob "createdAt" = Some (VDate (Some 1705314600123%Z))
   /\ (100 <= YearFromTime 1705314600123 <= 9999)%Z
   /\ (-86400000 <= LocalTZA Fixtures.utc_plus_one <= 86400000)%Z
   /\ LocalTZA Fixtures.utc_plus_one <> 0%Z)
  /\ lookup (hydrate_serialized Fixtures.utc_plus_one Fixtures.User Fixtures.bob)
       "createdAt"
     = Some (VDate (Some 1705311000000%Z))
  /\ ~ round_trips Fixtures.utc_plus_one Fixtures.User Fixtures.bob "createdAt".
Proof.
  split.
  { repeat split; try reflexivity; try discriminate;
      vm_compute; discriminate. }
  pose proof (C7_date_field_moves_by_zone_offset Fixtures.utc_plus_one
                Fixtures.User Fixtures.bob "createdAt" 1705314600123%Z
                eq_refl ltac:(discriminate) eq_refl eq_refl
                ltac:(split; vm_compute; discriminate)
                ltac:(split; vm_compute; discriminate)) as [Hback [Hmoved _]].
  split; [exact Hback|].
  apply Hmoved. discriminate.
Defined.

(** Whatever the host reads date strings as, a number in a DATE field does
    not come back as that number. *)
Lemma number_in_date_field_never_round_trips rt :
  lookup (hydrate_serialized rt Fixtures.User Fixtures.ann) "createdAt"
  <> Some (VNum 0).
Proof.
  rewrite hydrate_serialized_field by (reflexivity || discriminate).
  cbn [Fixtures.ann lookup String.eqb Ascii.eqb Bool.eqb option_map].
  unfold finalValue, dbValue. cbn [getPropertyType Fixtures.User].
  cbn [String.eqb Ascii.eqb Bool.eqb is_undefined instanceof_Date orb new_Date].
  change (TimeClip 0) with (Some 0%Z). cbv iota.
  cbn [new_Date]. destruct (Date_parse rt (formatDate 0)); discriminate.
Qed.

(** A string of a JSON field that happens to be JSON text comes back as
    the object it denotes. *)
Example json_text_in_json_field :
  lookup (hydrate_serialized Fixtures.utc Fixtures.User [("settings", VStr "[]")])
    "settings"
  = Some (VArr [])
  /\ lookup (hydrate_serialized Fixtures.utc Fixtures.User
               [("settings", VStr "[1e2]")]) "settings"
     = Some (VArr [VNum 100]).
Proof. split; vm_compute; reflexivity. Qed.

(** Beyond the year 9999 the cut after nineteen characters no longer
    reaches the seconds: two dates half a minute apart are stored as the
    same text. *)
Example five_digit_year_loses_seconds :
  formatDate 253402300800000 = formatDate 253402300830000
  /\ formatDate 253402300800000 = "+010000-01-01 00:00".
Proof. split; reflexivity. Qed.

End RoundTrip.

(** ** Whole statements: placeholders and parameters *)

Section Statements.
Import JS Types EntityModel DAO.

(** *** Counting across pieces of text *)

Lemma starts_clean_append s rest : starts_clean s -> clean_start (s +++ rest).
Proof. destruct s; cbn; [contradiction|auto]. Qed.

Lemma rclosed_open s n : rclosed s n -> open s n.
Proof. intros H rest _. apply H. Qed.

Lemma open_count s n : open s n -> countPlaceholders s = n.
Proof.
  intros H. unfold countPlaceholders. rewrite <- (append_empty_r s).
  rewrite (H EmptyString I). cbn. lia.
Qed.

Lemma rclosed_empty : rclosed EmptyString 0.
Proof. intros rest. reflexivity. Qed.

Lemma qfree_scan s :
  qfree s = true ->
  forall run rest,
    scanPlaceholders run (s +++ rest)
    = match s with
      | EmptyString => scanPlaceholders run rest
      | String _ _ => (close_run run + scanPlaceholders 0 rest)%nat
      end.
Proof.
  induction s as [|c s IH]; intros Hq run rest; [reflexivity|].
  cbn [qfree] in Hq. apply andb_prop in Hq as [Hc Hs].
  apply negb_true_iff in Hc. cbn [append scanPlaceholders]. rewrite Hc.
  rewrite (IH Hs 0%nat rest). destruct s; reflexivity.
Qed.

Lemma qfree_rclosed s : qfree s = true -> rclosed s 0.
Proof.
  intros Hq rest. rewrite (qfree_scan s Hq). destruct s; reflexivity.
Qed.

Lemma qfree_append a b : qfree (a +++ b) = qfree a && qfree b.
Proof.
  induction a as [|c a IH]; cbn; [reflexivity|]. now rewrite IH, andb_assoc.
Qed.

Lemma qfree_join sep l :
  qfree sep = true -> forallb qfree l = true -> qfree (join sep l) = true.
Proof.
  intros Hsep. induction l as [|a l IH]; cbn [forallb]; [reflexivity|].
  intros H. apply andb_prop in H as [Ha Hl].
  destruct l as [|b l]; [exact Ha|].
  rewrite join_cons2, !qfree_append, Ha, Hsep. now apply IH.
Qed.

(** Appending to the text of a statement. *)
Lemma rclosed_app_rclosed q n p m :
  rclosed q n -> rclosed p m -> rclosed (q +++ p) (n + m).
Proof.
  intros Hq Hp rest. rewrite append_assoc, Hq, Hp. lia.
Qed.

Lemma rclosed_app_open q n p m :
  rclosed q n -> open p m -> open (q +++ p) (n + m).
Proof.
  intros Hq Hp rest Hrest. rewrite append_assoc, Hq, Hp by assumption. lia.
Qed.

Lemma open_app_open q n p m :
  open q n -> starts_clean p -> open p m -> open (q +++ p) (n + m).
Proof.
  intros Hq Hs Hp rest Hrest.
  rewrite append_assoc, Hq by (now apply starts_clean_append).
  rewrite Hp by assumption. lia.
Qed.

Lemma open_app_rclosed q n p m :
  open q n -> starts_clean p -> rclosed p m -> rclosed (q +++ p) (n + m).
Proof.
  intros Hq Hs Hp rest.
  rewrite append_assoc, Hq by (now apply starts_clean_append).
  rewrite Hp. lia.
Qed.

(** Pieces joined by a separator free of question marks. *)
Lemma join_open sep (pieces : list string) (counts : list nat) :
  qfree sep = true -> sep <> EmptyString ->
  Forall2 open pieces counts ->
  open (join sep pieces) (list_sum counts).
Proof.
  intros Hsep Hne. induction 1 as [|p n pieces counts Hp Hrest IH].
  - apply rclosed_open, rclosed_empty.
  - destruct pieces as [|p' pieces].
    + inversion Hrest; subst. unfold join. cbn [String.concat].
      simpl list_sum. now rewrite Nat.add_0_r.
    + rewrite join_cons2. intros rest Hc.
      rewrite !append_assoc.
      rewrite Hp by (destruct sep; [congruence|]; cbn in *;
                     apply andb_prop in Hsep as [Hs _];
                     now apply negb_true_iff in Hs).
      rewrite (qfree_rclosed sep Hsep). rewrite IH by assumption.
      simpl list_sum. lia.
Qed.

Lemma join_rclosed sep (pieces : list string) (counts : list nat) :
  qfree sep = true ->
  Forall2 rclosed pieces counts ->
  rclosed (join sep pieces) (list_sum counts).
Proof.
  intros Hsep. induction 1 as [|p n pieces counts Hp Hrest IH].
  - apply rclosed_empty.
  - destruct pieces as [|p' pieces].
    + inversion Hrest; subst. unfold join. cbn [String.concat].
      simpl list_sum. now rewrite Nat.add_0_r.
    + rewrite join_cons2. intros rest.
      rewrite !append_assoc, Hp, (qfree_rclosed sep Hsep), IH.
      simpl list_sum. lia.
Qed.

(** *** SET clauses *)

Lemma buildSetClause_loop conds :
  forall clauses params,
    fold_left
      (fun (st : list string * list SqlParam) cond =>
         let op := match sc_operator cond with Some op => op | None => SetAssign end in
         match op with
         | SetIncrement =>
             (fst st ++ ["?? = ?? + ?"],
              snd st ++ [PStr (sc_field cond); PStr (sc_field cond);
                         PVal (sc_value cond)])
         | SetDecrement =>
             (fst st ++ ["?? = ?? - ?"],
              snd st ++ [PStr (sc_field cond); PStr (sc_field cond);
                         PVal (sc_value cond)])
         | SetAssign =>
             (fst st ++ ["?? = ?"],
              snd st ++ [PStr (sc_field cond); PVal (sc_value cond)])
         end)
      conds (clauses, params)
    = (clauses ++ map set_text conds, params ++ flat_map set_params conds).
Proof.
  induction conds as [|c conds IH]; intros clauses params; cbn [fold_left map flat_map].
  - now rewrite !app_nil_r.
  - unfold set_text at 1, set_params at 1.
    destruct (sc_operator c) as [[| |]|]; cbn [fst snd]; rewrite IH;
      now rewrite <- !app_assoc.
Qed.

Lemma buildSetClause_eq set_ params :
  buildSetClause set_ params
  = (join ", " (map set_text (set_conditions set_)),
     params ++ flat_map set_params (set_conditions set_)).
Proof.
  unfold buildSetClause. fold (set_conditions set_).
  now rewrite buildSetClause_loop.
Qed.

Lemma set_text_open cond : open (set_text cond) (length (set_params cond)).
Proof.
  intros rest Hc. unfold set_text, set_params.
  destruct (sc_operator cond) as [[| |]|]; cbn -[close_run];
    rewrite (scan_clean_start 1 rest Hc); reflexivity.
Qed.

Lemma set_clause_open conds :
  open (join ", " (map set_text conds)) (length (flat_map set_params conds)).
Proof.
  replace (length (flat_map set_params conds))
    with (list_sum (map (fun c => length (set_params c)) conds)).
  - apply join_open; [reflexivity|discriminate|].
    induction conds; cbn [map]; constructor; [apply set_text_open|assumption].
  - induction conds as [|c conds IH]; [reflexivity|].
    cbn [map flat_map]. rewrite length_app, <- IH. reflexivity.
Qed.

(** X1. [buildSetClause]: the clause holds as many placeholders as parameters
    are pushed; the array passed in is extended at its end, by the field
    and the value of a plain assignment and by the field twice and the
    value of an increment or decrement, in the order of the assignments. *)
Theorem buildSetClause_placeholders_match_parameters :
  forall (set_ : SetClause) (params : list SqlParam),
    snd (buildSetClause set_ params)
    = params ++ flat_map set_params (set_conditions set_)
    /\ countPlaceholders (fst (buildSetClause set_ params))
       = length (flat_map set_params (set_conditions set_)).
Proof.
  intros set_ params. rewrite buildSetClause_eq. cbn [fst snd].
  split; [reflexivity|]. apply open_count, set_clause_open.
Qed.

(** *** UPDATE ... SET ... WHERE *)

Lemma where_clause_open this w params tbl :
  open (fst (buildWhereClause this w params tbl))
       (length (snd (buildWhereClause this w params tbl)) - length params).
Proof.
  destruct (buildWhereClause_aligned this w params tbl) as [Hc Hp].
  intros rest Hrest. rewrite Hc by assumption. rewrite Hp, length_app.
  rewrite qualified_params_length by apply qualifiers_length. lia.
Qed.

Lemma where_clause_grows this w params tbl :
  length params <= length (snd (buildWhereClause this w params tbl)).
Proof.
  destruct (buildWhereClause_aligned this w params tbl) as [_ ->].
  rewrite length_app. lia.
Qed.

Lemma updateWhere_statement_open this where_ set_ :
  open (fst (updateWhere_statement this where_ set_))
       (length (snd (updateWhere_statement this where_ set_))).
Proof.
  unfold updateWhere_statement. rewrite buildSetClause_eq.
  assert (Hset : open ("UPDATE ?? SET" +++ join ", " (map set_text (set_conditions set_)))
                      (length ([PStr (entityName this)]
                               ++ flat_map set_params (set_conditions set_)))).
  { rewrite length_app. apply rclosed_app_open; [|apply set_clause_open].
    intros rest. reflexivity. }
  destruct where_ as [w|]; [|exact Hset].
  pose proof (where_clause_open this w
                ([PStr (entityName this)] ++ flat_map set_params (set_conditions set_))
                None) as Hw.
  pose proof (where_clause_grows this w
                ([PStr (entityName this)] ++ flat_map set_params (set_conditions set_))
                None) as Hg.
  destruct (buildWhereClause this w _ None) as [clause params']. cbn [fst snd] in *.
  replace (length params')
    with (length ([PStr (entityName this)]
                  ++ flat_map set_params (set_conditions set_))
          + 0 + (length params'
                 - length ([PStr (entityName this)]
                           ++ flat_map set_params (set_conditions set_))))%nat
    by lia.
  match goal with
  | |- open (?a +++ " WHERE " +++ ?c) _ =>
      replace (a +++ " WHERE " +++ c) with ((a +++ " WHERE ") +++ c)
        by apply append_assoc
  end.
  apply rclosed_app_open; [|exact Hw].
  apply open_app_rclosed; [exact Hset|reflexivity|apply qfree_rclosed; reflexivity].
Qed.

(** X2. [updateWhere(where, set)] hands one statement to the connection, in
    which placeholders and parameters match in number, and returns the
    [affectedRows] of the result header the connection resolves with. *)
Theorem updateWhere_statement_and_result :
  forall this where_ set_ w,
    countPlaceholders (fst (updateWhere_statement this where_ set_))
    = length (snd (updateWhere_statement this where_ set_))
    /\ issued (snd (updateWhere this where_ set_ w))
       = issued w
         ++ [{| sql := fst (updateWhere_statement this where_ set_);
                params := snd (updateWhere_statement this where_ set_) |}]
    /\ (forall header,
          respond (connection this) (issued w)
            {| sql := fst (updateWhere_statement this where_ set_);
               params := snd (updateWhere_statement this where_ set_) |}
          = Returned (ResultSetHeader header) ->
          fst (updateWhere this where_ set_ w)
          = Returned (get header "affectedRows")).
Proof.
  intros this where_ set_ w.
  split; [apply open_count, updateWhere_statement_open|].
  unfold updateWhere.
  destruct (updateWhere_statement this where_ set_) as [q ps]; cbn [fst snd].
  unfold bind, connection_query.
  split.
  - destruct (respond _ _ _) as [[rows|h]|e]; reflexivity.
  - intros header ->. reflexivity.
Qed.

(** Incrementing [age] and renaming, for the rows with [id = 5]. *)
Lemma updateWhere_birthday :
  respond (connection (Fixtures.usersDAO Fixtures.three_rows_affected)) []
    {| sql := fst (updateWhere_statement
                     (Fixtures.usersDAO Fixtures.three_rows_affected)
                     (Some (WhereCondition "id" (VNum 5) None)) Fixtures.birthday);
       params := snd (updateWhere_statement
                        (Fixtures.usersDAO Fixtures.three_rows_affected)
                        (Some (WhereCondition "id" (VNum 5) None)) Fixtures.birthday) |}
  = Returned (ResultSetHeader [("affectedRows", VNum 3)])
  /\ updateWhere_statement (Fixtures.usersDAO Fixtures.three_rows_affected)
       (Some (WhereCondition "id" (VNum 5) None)) Fixtures.birthday
     = ("UPDATE ?? SET?? = ?? + ?, ?? = ? WHERE ??.?? = ?",
        [PStr "users"; PStr "age"; PStr "age"; PNum 1; PStr "name";
         PVal (VStr "ann"); PStr "users"; PStr "id"; PNum 5])
  /\ fst (updateWhere (Fixtures.usersDAO Fixtures.three_rows_affected)
            (Some (WhereCondition "id" (VNum 5) None)) Fixtures.birthday
            Fixtures.fresh)
     = Returned (VNum 3).
Proof.
  split; [reflexivity|]. split; [reflexivity|].
  exact (proj2 (proj2 (updateWhere_statement_and_result
                         (Fixtures.usersDAO Fixtures.three_rows_affected)
                         (Some (WhereCondition "id" (VNum 5) None))
                         Fixtures.birthday Fixtures.fresh))
           [("affectedRows", VNum 3)] eq_refl).
Defined.

(** *** SELECT *)

Lemma selectWhere_ordered_steps this where_ options :
  selectWhere_ordered this where_ options
  = let fields := opt_list (match options with Some o => fields o | None => None end) in
    let joins := opt_list (match options with Some o => joins o | None => None end) in
    let orderBy := match options with Some o => orderBy o | None => None end in
    let qp := select_fields this fields in
    let qp := (select_join_fields joins (fst qp) +++ " FROM ??",
               snd qp ++ [PStr (entityName this)]) in
    let qp := select_joins this joins qp in
    let qp := select_where this where_ qp in
    let qp := select_join_wheres this joins qp in
    let st := select_join_orders joins (select_order this orderBy qp) in
    (fst (fst st), snd (fst st)).
Proof.
  unfold selectWhere_ordered, select_fields, select_join_fields, select_joins,
    select_where, select_join_wheres, select_order, select_join_orders.
  cbv zeta.
  destruct (opt_list (match options with Some o => fields o | None => None end));
    cbn [fst snd app].
  all: repeat match goal with
         | |- context [match ?X with pair _ _ => _ end] =>
             destruct X; cbn [fst snd]
         end.
  all: reflexivity.
Qed.

Lemma fold_left_invariant {A B} (I : A -> Prop) (f : A -> B -> A) (l : list B) :
  (forall a b, In b l -> I a -> I (f a b)) ->
  forall a, I a -> I (fold_left f l a).
Proof.
  induction l as [|b l IH]; intros Hf a Ha; cbn [fold_left]; [exact Ha|].
  apply IH.
  - intros a' b' Hin. apply Hf. now right.
  - apply Hf; [now left|exact Ha].
Qed.

Lemma open_eq s n m : open s n -> n = m -> open s m.
Proof. now intros H <-. Qed.

Lemma qualified_pairs_open (fields : list string) :
  open (join ", " (map (fun _ : string => "??.??") fields)) (2 * length fields).
Proof.
  eapply open_eq.
  - apply (join_open ", " _ (map (fun _ => 2%nat) fields));
      [reflexivity|discriminate|].
    induction fields; cbn [map]; constructor; [|assumption].
    intros rest Hc. cbn -[close_run]. rewrite (scan_clean_start 2 rest Hc).
    reflexivity.
  - induction fields as [|f fields IH]; [reflexivity|].
    cbn [map length]. change (list_sum (2 :: ?l))%nat with (2 + list_sum l)%nat.
    rewrite IH. lia.
Qed.

Lemma select_fields_open this fields :
  qfree (entityName this) = true ->
  open (fst (select_fields this fields)) (length (snd (select_fields this fields))).
Proof.
  intros Hq. unfold select_fields. destruct fields as [|f fields]; cbn [fst snd].
  - apply rclosed_open, qfree_rclosed.
    now rewrite !qfree_append, Hq.
  - cbn [app]. eapply open_eq.
    + apply (rclosed_app_open "SELECT " 0);
        [apply qfree_rclosed; reflexivity|apply qualified_pairs_open].
    + generalize (f :: fields). intros l.
      induction l as [|x l IH]; [reflexivity|].
      cbn [flat_map length app]. rewrite <- IH. lia.
Qed.

Lemma plain_join_fields_qfree j :
  plain_join j = true ->
  qfree (match j_fields j with
         | Some fs =>
             join ", "
               (map (fun field =>
                       EntityName (rightTable j) +++ "." +++ field +++ " AS "
                       +++ EntityName (rightTable j) +++ "_" +++ field) fs)
         | None => EmptyString
         end) = true.
Proof.
  unfold plain_join. intros H.
  apply andb_prop in H as [H _]. apply andb_prop in H as [Hrt Hfs].
  destruct (j_fields j) as [fs|]; [|reflexivity]. cbn [opt_list] in Hfs.
  apply qfree_join; [reflexivity|].
  induction fs as [|f fs IH]; [reflexivity|].
  cbn [forallb map] in *. apply andb_prop in Hfs as [Hf Hfs].
  rewrite !qfree_append, Hrt, Hf. cbn. now apply IH.
Qed.

Lemma select_join_fields_open joins q n :
  forallb plain_join joins = true ->
  open q n -> open (select_join_fields joins q) n.
Proof.
  intros Hj Hq0. unfold select_join_fields.
  apply (fold_left_invariant (fun a => open a n)); [|exact Hq0].
  intros a j Hin Ha.
  assert (Hp : plain_join j = true).
  { rewrite forallb_forall in Hj. now apply Hj. }
  pose proof (plain_join_fields_qfree j Hp) as Hq. cbv zeta.
  destruct (negb _); [|exact Ha].
  apply rclosed_open. rewrite <- (Nat.add_0_r n).
  apply open_app_rclosed; [exact Ha|reflexivity|].
  apply qfree_rclosed. rewrite qfree_append. now rewrite Hq.
Qed.

Lemma select_joins_open this joins qp :
  open (fst qp) (length (snd qp)) ->
  open (fst (select_joins this joins qp)) (length (snd (select_joins this joins qp))).
Proof.
  intros Ha0. unfold select_joins.
  apply (fold_left_invariant (fun qp => open (fst qp) (length (snd qp))));
    [|exact Ha0].
  intros a j _ Ha. cbn [fst snd]. rewrite length_app.
  apply open_app_open; [exact Ha|reflexivity|].
  intros rest Hc.
  destruct (match j_type j with Some t => t | None => LEFT end);
    cbn -[close_run]; rewrite (scan_clean_start 2 rest Hc); reflexivity.
Qed.

Lemma append_where_open this (lead : string) w tbl qp :
  qfree lead = true -> starts_clean lead ->
  open (fst qp) (length (snd qp)) ->
  open (fst qp +++ lead +++ fst (buildWhereClause this w (snd qp) tbl))
       (length (snd (buildWhereClause this w (snd qp) tbl))).
Proof.
  intros Hq Hs Ha.
  pose proof (where_clause_open this w (snd qp) tbl) as Hw.
  pose proof (where_clause_grows this w (snd qp) tbl) as Hg.
  eapply open_eq.
  - replace (fst qp +++ lead +++ fst (buildWhereClause this w (snd qp) tbl))
      with ((fst qp +++ lead) +++ fst (buildWhereClause this w (snd qp) tbl))
      by apply append_assoc.
    apply rclosed_app_open; [|exact Hw].
    apply open_app_rclosed; [exact Ha|exact Hs|apply qfree_rclosed, Hq].
  - lia.
Qed.

Lemma select_where_open this where_ qp :
  open (fst qp) (length (snd qp)) ->
  open (fst (select_where this where_ qp))
       (length (snd (select_where this where_ qp))).
Proof.
  intros Ha. unfold select_where. destruct where_ as [w|]; [|exact Ha].
  pose proof (append_where_open this " WHERE " w None qp eq_refl eq_refl Ha) as H.
  destruct (buildWhereClause this w (snd qp) None). exact H.
Qed.

Lemma select_join_wheres_open this joins qp :
  open (fst qp) (length (snd qp)) ->
  open (fst (select_join_wheres this joins qp))
       (length (snd (select_join_wheres this joins qp))).
Proof.
  intros Ha0. unfold select_join_wheres.
  apply (fold_left_invariant (fun qp => open (fst qp) (length (snd qp))));
    [|exact Ha0].
  intros a j _ Ha. destruct (j_where j) as [jw|]; [|exact Ha].
  match goal with
  | |- context [buildWhereClause this ?w (snd a) ?tbl] =>
      pose proof (append_where_open this " AND " w tbl a eq_refl eq_refl Ha) as H;
      destruct (buildWhereClause this w (snd a) tbl)
  end.
  exact H.
Qed.

Lemma select_order_open this orderBy qp :
  open (fst qp) (length (snd qp)) ->
  open (fst (fst (select_order this orderBy qp)))
       (length (snd (fst (select_order this orderBy qp)))).
Proof.
  intros Ha. unfold select_order.
  destruct orderBy as [[|o os]|]; try exact Ha.
  apply rclosed_open.
  apply (fold_left_invariant
           (fun st : string * list SqlParam * nat =>
              rclosed (fst (fst st)) (length (snd (fst st))))).
  - intros [[q p] c] order _ Hst. cbn [fst snd] in *. rewrite length_app.
    assert (Hq : rclosed (if (0 <? c)%nat then q +++ ", " else q) (length p)).
    { destruct (0 <? c)%nat; [|exact Hst].
      eapply (rclosed_app_rclosed q _ ", " 0) in Hst;
        [rewrite Nat.add_0_r in Hst; exact Hst|apply qfree_rclosed; reflexivity]. }
    apply rclosed_app_rclosed; [exact Hq|].
    intros rest. destruct (direction order); reflexivity.
  - cbn [fst snd].
    eapply (open_app_rclosed (fst qp) _ " ORDER BY" 0) in Ha;
      [rewrite Nat.add_0_r in Ha; exact Ha|reflexivity
      |apply qfree_rclosed; reflexivity].
Qed.

Lemma select_join_orders_plain joins st :
  forallb plain_join joins = true -> select_join_orders joins st = st.
Proof.
  intros Hj. unfold select_join_orders.
  apply (fold_left_invariant (fun st' => st' = st)); [|reflexivity].
  intros a j Hin ->.
  assert (Hp : plain_join j = true).
  { rewrite forallb_forall in Hj. now apply Hj. }
  unfold plain_join in Hp. apply andb_prop in Hp as [_ Hp].
  destruct (j_orderBy j); [discriminate|reflexivity].
Qed.

Lemma selectWhere_ordered_open this where_ options :
  plain_select this options = true ->
  open (fst (selectWhere_ordered this where_ options))
       (length (snd (selectWhere_ordered this where_ options))).
Proof.
  unfold plain_select. intros H. apply andb_prop in H as [Hname Hjoins].
  rewrite selectWhere_ordered_steps. cbv zeta.
  rewrite select_join_orders_plain by assumption.
  apply select_order_open, select_join_wheres_open, select_where_open,
    select_joins_open.
  cbn [fst snd]. rewrite length_app.
  apply open_app_open; [|reflexivity|].
  - apply select_join_fields_open; [assumption|].
    now apply select_fields_open.
  - intros rest Hc. cbn -[close_run]. rewrite (scan_clean_start 2 rest Hc).
    reflexivity.
Qed.

(** LIMIT and OFFSET after an aligned statement. *)
Lemma limit_offset_open (q : string) (p : list SqlParam) limit offset :
  open q (length p) ->
  open (fst (match limit with
             | Some l =>
                 match offset with
                 | Some o => ((q +++ " LIMIT ?") +++ " OFFSET ?",
                              (p ++ [PNum l]) ++ [PNum o])
                 | None => (q +++ " LIMIT ?", p ++ [PNum l])
                 end
             | None => (q, p)
             end))
       (length (snd (match limit with
                     | Some l =>
                         match offset with
                         | Some o => ((q +++ " LIMIT ?") +++ " OFFSET ?",
                                      (p ++ [PNum l]) ++ [PNum o])
                         | None => (q +++ " LIMIT ?", p ++ [PNum l])
                         end
                     | None => (q, p)
                     end))).
Proof.
  intros Ha.
  assert (Hone : forall lead, lead = " LIMIT ?" \/ lead = " OFFSET ?" ->
                              starts_clean lead /\ open lead 1).
  { intros lead [->| ->]; (split; [reflexivity|]); intros rest Hc;
      cbn -[close_run]; rewrite (scan_clean_start 1 rest Hc); reflexivity. }
  destruct limit as [l|]; [|exact Ha].
  destruct (Hone " LIMIT ?" (or_introl eq_refl)) as [Hs1 Ho1].
  destruct (Hone " OFFSET ?" (or_intror eq_refl)) as [Hs2 Ho2].
  destruct offset as [o|]; cbn [fst snd]; rewrite !length_app; cbn [length].
  - apply open_app_open; [|assumption|assumption].
    now apply open_app_open.
  - now apply open_app_open.
Qed.

(** X3. [selectWhere]: when the names that go into the text as they are (the
    DAO's table, the joined tables, the fields selected from them) hold no
    question mark and no join asks for an ordering of its own, the
    statement handed to the connection holds exactly as many placeholders
    as parameters are bound -- whatever the condition, the projection, the
    joins and their conditions, the ordering, the limit and the offset. *)
Theorem selectWhere_statement_placeholders_match_parameters :
  forall this where_ options,
    plain_select this options = true ->
    countPlaceholders (fst (selectWhere_statement this where_ options))
    = length (snd (selectWhere_statement this where_ options)).
Proof.
  intros this where_ options Hplain. apply open_count.
  unfold selectWhere_statement.
  pose proof (selectWhere_ordered_open this where_ options Hplain) as Ha.
  destruct (selectWhere_ordered this where_ options) as [q p]. cbn [fst snd] in Ha.
  exact (limit_offset_open q p _ _ Ha).
Qed.

(** Two columns of the users joined with their active posts, ordered,
    third page of ten: eighteen placeholders and eighteen parameters. *)
Lemma selectWhere_page_of_users_aligned :
  plain_select (Fixtures.usersDAO Fixtures.empty_table) Fixtures.page_of_users
  = true
  /\ fst (selectWhere_statement (Fixtures.usersDAO Fixtures.empty_table)
            (Some (WhereCondition "id" (VNum 0) (Some OpGt)))
            Fixtures.page_of_users)
     = "SELECT ??.??, ??.??, posts.title AS posts_title, posts.body AS posts_body FROM ?? INNER JOIN ?? ON ?? = ?? WHERE ??.?? > ? AND ??.?? = ? ORDER BY ??.?? DESC LIMIT ? OFFSET ?"
  /\ countPlaceholders
       (fst (selectWhere_statement (Fixtures.usersDAO Fixtures.empty_table)
               (Some (WhereCondition "id" (VNum 0) (Some OpGt)))
               Fixtures.page_of_users))
     = length
         (snd (selectWhere_statement (Fixtures.usersDAO Fixtures.empty_table)
                 (Some (WhereCondition "id" (VNum 0) (Some OpGt)))
                 Fixtures.page_of_users)).
Proof.
  split; [reflexivity|]. split; [reflexivity|].
  exact (selectWhere_statement_placeholders_match_parameters
           (Fixtures.usersDAO Fixtures.empty_table)
           (Some (WhereCondition "id" (VNum 0) (Some OpGt)))
           Fixtures.page_of_users eq_refl).
Defined.

(** *** SELECT * *)

Lemma selectAll_order_rclosed this (orders : list OrderBy) qp :
  rclosed (fst qp) (length (snd qp)) ->
  rclosed
    (fst (fold_left
            (fun (qp : string * list SqlParam) order =>
               (fst qp +++ " ??.?? " +++ Direction_str (direction order),
                snd qp ++ [PStr (entityName this); PStr (ob_field order)]))
            orders qp))
    (length
       (snd (fold_left
               (fun (qp : string * list SqlParam) order =>
                  (fst qp +++ " ??.?? " +++ Direction_str (direction order),
                   snd qp ++ [PStr (entityName this); PStr (ob_field order)]))
               orders qp))).
Proof.
  intros H0.
  apply (fold_left_invariant
           (fun qp : string * list SqlParam => rclosed (fst qp) (length (snd qp))));
    [|exact H0].
  intros a order _ Ha. cbn [fst snd]. rewrite length_app.
  apply rclosed_app_rclosed; [exact Ha|].
  intros rest. destruct (direction order); reflexivity.
Qed.

Lemma selectAll_statement_steps this options :
  selectAll_statement this options
  = let qp :=
      match match options with Some o => orderBy o | None => None end with
      | Some (o :: os) =>
          fold_left
            (fun (qp : string * list SqlParam) order =>
               (fst qp +++ " ??.?? " +++ Direction_str (direction order),
                snd qp ++ [PStr (entityName this); PStr (ob_field order)]))
            (o :: os) ("SELECT * FROM ??" +++ " ORDER BY", [PStr (entityName this)])
      | _ => ("SELECT * FROM ??", [PStr (entityName this)])
      end in
    match match options with Some o => limit o | None => None end with
    | Some l =>
        match match options with Some o => offset o | None => None end with
        | Some o => ((fst qp +++ " LIMIT ?") +++ " OFFSET ?",
                     (snd qp ++ [PNum l]) ++ [PNum o])
        | None => (fst qp +++ " LIMIT ?", snd qp ++ [PNum l])
        end
    | None => qp
    end.
Proof.
  unfold selectAll_statement. cbv zeta.
  match goal with
  | |- (let (_, _) := ?X in _) = _ => destruct X as [q p]
  end.
  cbn [fst snd]. reflexivity.
Qed.

(** X4. [selectAll]: the statement holds exactly as many placeholders as
    parameters are bound, whatever the ordering, the limit and the offset;
    and an offset given without a limit changes nothing. *)
Theorem selectAll_statement_placeholders_match_parameters :
  forall this (options : option SelectOptions),
    countPlaceholders (fst (selectAll_statement this options))
    = length (snd (selectAll_statement this options))
    /\ (forall f j o ob,
          selectAll_statement this
            (Some {| fields := f; joins := j; limit := None; offset := o;
                     orderBy := ob |})
          = selectAll_statement this
              (Some {| fields := f; joins := j; limit := None; offset := None;
                       orderBy := ob |})).
Proof.
  intros this options. split; [|reflexivity].
  apply open_count. rewrite selectAll_statement_steps. cbv zeta.
  match goal with
  | |- context [fst (match _ with Some l => _ | None => ?qp end)] =>
      assert (Hqp : open (fst qp) (length (snd qp)));
      [|destruct qp as [q p]; cbn [fst snd] in Hqp;
        exact (limit_offset_open q p _ _ Hqp)]
  end.
  destruct (match options with Some o => orderBy o | None => None end)
    as [[|o os]|].
  - intros rest Hc. cbn -[close_run]. now rewrite (scan_clean_start 2 rest Hc).
  - apply rclosed_open, selectAll_order_rclosed. cbn [fst snd].
    intros rest. reflexivity.
  - intros rest Hc. cbn -[close_run]. now rewrite (scan_clean_start 2 rest Hc).
Qed.

End Statements.

(** ** What the reading operations return *)

Section Reading.
Import JS Types EntityModel DAO.

Variable rt : Runtime.
Variable this : GenericDAO.

(** Rows are hydrated in order; the call resolves when every row passes
    the constructor. *)
Lemma mapM_construct (g : Obj -> Obj) (rows : list Obj) :
  forall w es,
    fst (mapM (fun row => new_Entity rt this (g row)) rows w) = Returned es
    <-> Forall2 (fun row e => construct rt (EntityClass this) (g row) = Constructed e)
          rows es.
Proof.
  induction rows as [|row rows IH]; intros w es; cbn [mapM].
  - unfold ret. cbn [fst]. split.
    + intros [= <-]. constructor.
    + intros H. inversion H. reflexivity.
  - unfold bind at 1. unfold new_Entity at 1.
    destruct (construct rt (EntityClass this) (g row)) as [e0|err] eqn:Hc.
    + unfold ret at 1. unfold bind. specialize (IH w).
      destruct (mapM (fun row0 => new_Entity rt this (g row0)) rows w)
        as [[bs|err] w1]; cbn [fst] in *.
      * unfold ret. cbn [fst]. split.
        -- intros [= <-]. constructor; [exact Hc|]. now apply IH.
        -- intros H. inversion H as [|? e1 ? es' H1 H2]; subst.
           rewrite Hc in H1. injection H1 as <-.
           apply IH in H2. now injection H2 as <-.
      * split; [discriminate|].
        intros H. inversion H as [|? e1 ? es' H1 H2]; subst.
        apply IH in H2. discriminate.
    + unfold throw. cbn [fst]. split; [discriminate|].
      intros H. inversion H as [|? e1 ? es' H1 H2]; subst. congruence.
Qed.

Lemma mapM_construct_fails (g : Obj -> Obj) (rows : list Obj) w :
  Exists (fun row => exists err, construct rt (EntityClass this) (g row) = Raised err)
    rows ->
  exists err, fst (mapM (fun row => new_Entity rt this (g row)) rows w) = Thrown err.
Proof.
  induction rows as [|row rows IH]; intros H; [inversion H|].
  cbn [mapM]. unfold bind at 1. unfold new_Entity at 1.
  destruct (construct rt (EntityClass this) (g row)) as [e0|err] eqn:Hc.
  - unfold ret at 1. unfold bind.
    assert (Hrows : Exists (fun row => exists err,
                       construct rt (EntityClass this) (g row) = Raised err) rows).
    { inversion H as [? ? [err Herr]|]; subst; [congruence|assumption]. }
    destruct (IH Hrows) as [err Herr].
    destruct (mapM (fun row0 => new_Entity rt this (g row0)) rows w)
      as [[bs|err'] w1]; cbn [fst] in *; [discriminate|].
    now exists err'.
  - exists err. reflexivity.
Qed.

Lemma Forall2_constructed (g : Obj -> Obj) (rows : list Obj) :
  (exists es,
     Forall2 (fun row e => construct rt (EntityClass this) (g row) = Constructed e)
       rows es)
  <-> Forall (fun row => exists e,
                construct rt (EntityClass this) (g row) = Constructed e) rows.
Proof.
  induction rows as [|row rows IH].
  - split; [constructor|]. intros _. exists []. constructor.
  - split.
    + intros [es H]. inversion H as [|? e ? es' H1 H2]; subst.
      constructor; [now exists e|]. apply IH. now exists es'.
    + intros H. inversion H as [|? ? [e He] Hrows]; subst.
      apply IH in Hrows as [es Hes]. exists (e :: es). now constructor.
Qed.

(** [selectAll] *)
Lemma selectAll_after_rows options w rows :
  respond (connection this) (issued w)
    {| sql := fst (selectAll_statement this options);
       params := snd (selectAll_statement this options) |}
  = Returned (Rows rows) ->
  selectAll rt this options w
  = mapM (new_Entity rt this) rows
      {| issued := issued w
                   ++ [{| sql := fst (selectAll_statement this options);
                          params := snd (selectAll_statement this options) |}];
         console := console w |}.
Proof.
  intros H. unfold selectAll.
  destruct (selectAll_statement this options) as [q ps]; cbn [fst snd] in *.
  unfold bind, connection_query. now rewrite H.
Qed.

(** X5. [selectAll]: when the connection resolves with rows, the call
    resolves with one entity per row, in the order of the rows, each built
    by the constructor from its row; one row that fails validation fails
    the whole call; and one statement has been issued either way. *)
Theorem selectAll_one_entity_per_row :
  forall options w rows,
    respond (connection this) (issued w)
      {| sql := fst (selectAll_statement this options);
         params := snd (selectAll_statement this options) |}
    = Returned (Rows rows) ->
    issued (snd (selectAll rt this options w))
    = issued w
      ++ [{| sql := fst (selectAll_statement this options);
             params := snd (selectAll_statement this options) |}]
    /\ (forall es,
          fst (selectAll rt this options w) = Returned es
          <-> Forall2 (fun row e => construct rt (EntityClass this) row = Constructed e)
                rows es)
    /\ (Exists (fun row => exists err,
                  construct rt (EntityClass this) row = Raised err) rows ->
        exists err, fst (selectAll rt this options w) = Thrown err).
Proof.
  intros options w rows H. rewrite (selectAll_after_rows options w rows H).
  split; [|split].
  - rewrite mapM_world; [reflexivity|]. intros a w'. apply new_Entity_world.
  - intros es. exact (mapM_construct (fun row => row) rows _ es).
  - exact (mapM_construct_fails (fun row => row) rows _).
Qed.

(** [selectWhere] *)
Lemma selectWhere_returns_iff where_ options w rows es :
  respond (connection this) (issued w)
    {| sql := fst (selectWhere_statement this where_ options);
       params := snd (selectWhere_statement this where_ options) |}
  = Returned (Rows rows) ->
  fst (selectWhere rt this where_ options w) = Returned es
  <-> Forall (fun row => exists e,
                construct rt (EntityClass this) row = Constructed e) rows
      /\ Forall2
           (fun row e =>
              construct rt (EntityClass this)
                (demultiplex
                   (opt_list (match options with Some o => fields o | None => None end))
                   (opt_list (match options with Some o => joins o | None => None end))
                   row)
              = Constructed e)
           rows es.
Proof.
  intros H. unfold selectWhere.
  destruct (selectWhere_statement this where_ options) as [q ps]; cbn [fst snd] in *.
  unfold bind at 1. unfold connection_query. rewrite H.
  unfold bind.
  match goal with
  | |- context [mapM (new_Entity rt this) rows ?w0] =>
      pose proof (fun raw => mapM_construct (fun row => row) rows w0 raw) as Hraw;
      pose proof (mapM_world (new_Entity rt this) rows
                    (new_Entity_world rt this) w0) as Hw;
      destruct (mapM (new_Entity rt this) rows w0) as [[raw|err] w1];
      cbn [fst snd] in Hraw, Hw; subst w1
  end.
  - rewrite mapM_construct. split.
    + intros Hes. split; [|exact Hes].
      apply (Forall2_constructed (fun row => row)). exists raw. now apply Hraw.
    + now intros [_ Hes].
  - cbn [fst]. split; [discriminate|]. intros [Hall _].
    apply (Forall2_constructed (fun row => row)) in Hall as [raw Hall].
    apply Hraw in Hall. discriminate.
Qed.

(** X6. [selectWhere]: when the connection resolves with rows, the call
    resolves exactly when every row passes the constructor twice: as it
    came, and with its join columns gathered under [_joins]; the result
    then holds the entities of the second kind, one per row, in the order
    of the rows. *)
Theorem selectWhere_one_entity_per_row :
  forall where_ options w rows,
    respond (connection this) (issued w)
      {| sql := fst (selectWhere_statement this where_ options);
         params := snd (selectWhere_statement this where_ options) |}
    = Returned (Rows rows) ->
    forall es,
      fst (selectWhere rt this where_ options w) = Returned es
      <-> Forall (fun row => exists e,
                    construct rt (EntityClass this) row = Constructed e) rows
          /\ Forall2
               (fun row e =>
                  construct rt (EntityClass this)
                    (demultiplex
                       (opt_list (match options with
                                  | Some o => fields o | None => None end))
                       (opt_list (match options with
                                  | Some o => joins o | None => None end))
                       row)
                  = Constructed e)
               rows es.
Proof.
  intros where_ options w rows H es.
  exact (selectWhere_returns_iff where_ options w rows es H).
Qed.

(** The statement of a read by one comparison, without options. *)
Lemma selectWhere_statement_one_comparison field value :
  selectWhere_statement this (Some (WhereCondition field value None)) None
  = ("SELECT " +++ entityName this +++ ".* FROM ?? WHERE ??.?? = ?",
     [PStr (entityName this); PStr (entityName this); PStr field; PVal value]).
Proof.
  unfold selectWhere_statement, selectWhere_ordered.
  cbn [opt_list fold_left buildWhereClause app fst snd WhereOperator_str].
  f_equal. cbn [append]. f_equal. now rewrite !append_assoc.
Qed.

(** X7. [selectWhereID]: when the connection resolves with rows, [null]
    is returned exactly when there is no row.  When there is a first row
    the call resolves exactly when every row passes the constructor, as it
    came and with its join columns gathered under [_joins], and it then
    resolves with the entity built from the first row; without options
    the statement compares the column [id] of the DAO's own table with the
    identifier given. *)
Theorem selectWhereID_first_entity_or_null :
  forall id options w rows,
    respond (connection this) (issued w)
      {| sql := fst (selectWhere_statement this
                       (Some (WhereCondition "id" id None)) options);
         params := snd (selectWhere_statement this
                          (Some (WhereCondition "id" id None)) options) |}
    = Returned (Rows rows) ->
    (rows = [] -> fst (selectWhereID rt this id options w) = Returned None)
    /\ (forall row rest,
          rows = row :: rest ->
          fst (selectWhereID rt this id options w) <> Returned None
          /\ forall e,
               fst (selectWhereID rt this id options w) = Returned (Some e)
               <-> Forall (fun row => exists e',
                             construct rt (EntityClass this) row
                             = Constructed e') rows
                   /\ Forall
                        (fun row => exists e',
                           construct rt (EntityClass this)
                             (demultiplex
                                (opt_list (match options with
                                           | Some o => fields o
                                           | None => None end))
                                (opt_list (match options with
                                           | Some o => joins o
                                           | None => None end))
                                row)
                           = Constructed e') rows
                   /\ construct rt (EntityClass this)
                        (demultiplex
                           (opt_list (match options with
                                      | Some o => fields o | None => None end))
                           (opt_list (match options with
                                      | Some o => joins o | None => None end))
                           row)
                      = Constructed e)
    /\ selectWhere_statement this (Some (WhereCondition "id" id None)) None
       = ("SELECT " +++ entityName this +++ ".* FROM ?? WHERE ??.?? = ?",
          [PStr (entityName this); PStr (entityName this); PStr "id"; PVal id]).
Proof.
  intros id options w rows H.
  pose proof (fun es => selectWhere_returns_iff
                          (Some (WhereCondition "id" id None)) options w rows es H)
    as Hiff.
  set (g := demultiplex
              (opt_list (match options with
                         | Some o => fields o | None => None end))
              (opt_list (match options with
                         | Some o => joins o | None => None end))) in *.
  unfold selectWhereID, bind.
  destruct (selectWhere rt this (Some (WhereCondition "id" id None)) options w)
    as [[es|err] w1]; cbn [fst] in *.
  - destruct (proj1 (Hiff es) eq_refl) as [Hraw Hes].
    split; [|split].
    + intros ->. inversion Hes. reflexivity.
    + intros row rest ->.
      inversion Hes as [|? e0 ? es' H1 H2]; subst.
      unfold ret. cbn [fst]. split; [discriminate|].
      intros e. split.
      * intros [= ->]. split; [exact Hraw|]. split; [|exact H1].
        apply (Forall2_constructed g). now exists (e :: es').
      * intros [_ [_ He]]. rewrite H1 in He. now injection He as ->.
    + apply selectWhere_statement_one_comparison.
  - split; [|split].
    + intros ->. exfalso.
      destruct (Hiff []) as [_ Hback].
      discriminate Hback. split; constructor.
    + intros row rest ->. split; [discriminate|].
      intros e. split; [discriminate|].
      intros [Hraw [Hall _]]. exfalso.
      apply (Forall2_constructed g) in Hall as [es Hes].
      destruct (Hiff es) as [_ Hback].
      discriminate Hback. now split.
    + apply selectWhere_statement_one_comparison.
Qed.

End Reading.

Section ReadingExamples.
Import JS Types EntityModel DAO.

(** One valid row and one whose user name is too short: the whole read
    fails. *)
Lemma selectAll_short_user_name_fails :
  respond (connection
             (Fixtures.usersDAO
                (Fixtures.answering
                   (Returned (Rows [Fixtures.row_ann; Fixtures.row_bo])))))
    (issued Fixtures.fresh)
    {| sql :=
         fst (selectAll_statement
                (Fixtures.usersDAO
                   (Fixtures.answering
                      (Returned
                         (Rows [Fixtures.row_ann; Fixtures.row_bo]))))
                None);
       params :=
         snd (selectAll_statement
                (Fixtures.usersDAO
                   (Fixtures.answering
                      (Returned
                         (Rows [Fixtures.row_ann; Fixtures.row_bo]))))
                None) |}
  = Returned (Rows [Fixtures.row_ann; Fixtures.row_bo])
  /\ exists err,
       fst (selectAll Fixtures.utc
              (Fixtures.usersDAO
                 (Fixtures.answering
                    (Returned
                       (Rows [Fixtures.row_ann; Fixtures.row_bo]))))
              None Fixtures.fresh)
       = Thrown err.
Proof.
  split; [reflexivity|].
  apply (proj2 (proj2 (selectAll_one_entity_per_row Fixtures.utc
                         (Fixtures.usersDAO
                            (Fixtures.answering
                               (Returned
                                  (Rows [Fixtures.row_ann; Fixtures.row_bo]))))
                         None Fixtures.fresh
                         [Fixtures.row_ann; Fixtures.row_bo] eq_refl))).
  apply Exists_cons_tl, Exists_cons_hd. eexists. reflexivity.
Defined.

(** A user read with the title of a joined post: the title moves under
    [_joins.posts]. *)
Lemma selectWhere_ann_with_post :
  respond (connection
             (Fixtures.usersDAO
                (Fixtures.answering (Returned (Rows [Fixtures.row_ann])))))
    (issued Fixtures.fresh)
    {| sql :=
         fst (selectWhere_statement
                (Fixtures.usersDAO
                   (Fixtures.answering
                      (Returned (Rows [Fixtures.row_ann]))))
                (Some (WhereCondition "id" (VNum 1) None))
                (Fixtures.joining Fixtures.titledPosts));
       params :=
         snd (selectWhere_statement
                (Fixtures.usersDAO
                   (Fixtures.answering
                      (Returned (Rows [Fixtures.row_ann]))))
                (Some (WhereCondition "id" (VNum 1) None))
                (Fixtures.joining Fixtures.titledPosts)) |}
  = Returned (Rows [Fixtures.row_ann])
  /\ fst (selectWhere Fixtures.utc
            (Fixtures.usersDAO
               (Fixtures.answering (Returned (Rows [Fixtures.row_ann]))))
            (Some (WhereCondition "id" (VNum 1) None))
            (Fixtures.joining Fixtures.titledPosts) Fixtures.fresh)
     = Returned
         [[("id", VNum 1); ("username", VStr "ann");
           ("settings", VArr [VNum 1; VNum 2]);
           ("_joins",
            VObj [("posts", VObj [("title", VStr "hello")])])]].
Proof.
  split; [reflexivity|].
  apply (proj2 (selectWhere_one_entity_per_row Fixtures.utc
                  (Fixtures.usersDAO
                     (Fixtures.answering
                        (Returned (Rows [Fixtures.row_ann]))))
                  (Some (WhereCondition "id" (VNum 1) None))
                  (Fixtures.joining Fixtures.titledPosts) Fixtures.fresh
                  [Fixtures.row_ann] eq_refl _)).
  split.
  - constructor; [|constructor]. eexists. reflexivity.
  - constructor; [reflexivity|constructor].
Defined.

(** The user with identifier 1 is read from its row; no user has the
    identifier 7, and [null] is returned. *)
Lemma selectWhereID_known_and_unknown_user :
  (respond (connection
              (Fixtures.usersDAO
                 (Fixtures.answering (Returned (Rows [Fixtures.row_ann])))))
     (issued Fixtures.fresh)
     {| sql :=
          fst (selectWhere_statement
                 (Fixtures.usersDAO
                    (Fixtures.answering (Returned (Rows [Fixtures.row_ann]))))
                 (Some (WhereCondition "id" (VNum 1) None)) None);
        params :=
          snd (selectWhere_statement
                 (Fixtures.usersDAO
                    (Fixtures.answering (Returned (Rows [Fixtures.row_ann]))))
                 (Some (WhereCondition "id" (VNum 1) None)) None) |}
   = Returned (Rows [Fixtures.row_ann])
   /\ fst (selectWhereID Fixtures.utc
             (Fixtures.usersDAO
                (Fixtures.answering (Returned (Rows [Fixtures.row_ann]))))
             (VNum 1) None Fixtures.fresh)
      = Returned
          (Some [("id", VNum 1); ("username", VStr "ann");
                 ("settings", VArr [VNum 1; VNum 2]);
                 ("posts_title", VStr "hello"); ("_joins", VObj [])]))
  /\ (respond (connection (Fixtures.usersDAO Fixtures.empty_table))
        (issued Fixtures.fresh)
        {| sql :=
             fst (selectWhere_statement (Fixtures.usersDAO Fixtures.empty_table)
                    (Some (WhereCondition "id" (VNum 7) None)) None);
           params :=
             snd (selectWhere_statement (Fixtures.usersDAO Fixtures.empty_table)
                    (Some (WhereCondition "id" (VNum 7) None)) None) |}
      = Returned (Rows [])
      /\ fst (selectWhereID Fixtures.utc (Fixtures.usersDAO Fixtures.empty_table)
                (VNum 7) None Fixtures.fresh)
         = Returned None).
Proof.
  split; (split; [reflexivity|]).
  - apply (proj2 (proj1 (proj2 (selectWhereID_first_entity_or_null Fixtures.utc
                                  (Fixtures.usersDAO
                                     (Fixtures.answering
                                        (Returned (Rows [Fixtures.row_ann]))))
                                  (VNum 1) None Fixtures.fresh
                                  [Fixtures.row_ann] eq_refl))
                    Fixtures.row_ann [] eq_refl)).
    split; [|split].
    + constructor; [|constructor]. eexists. reflexivity.
    + constructor; [|constructor]. eexists. reflexivity.
    + reflexivity.
  - exact (proj1 (selectWhereID_first_entity_or_null Fixtures.utc
                    (Fixtures.usersDAO Fixtures.empty_table) (VNum 7) None
                    Fixtures.fresh [] eq_refl) eq_refl).
Defined.

End ReadingExamples.

(** ** Counting, inserting, updating, deleting *)

Section Writing.
Import JS Types EntityModel DAO.

Variable rt : Runtime.
Variable this : GenericDAO.

(** *** count, countWhere *)

Lemma countWhere_statement_open where_ :
  open (fst (countWhere_statement this where_))
       (length (snd (countWhere_statement this where_))).
Proof.
  unfold countWhere_statement.
  assert (H0 : open "SELECT COUNT(*) AS count FROM ??"
                    (length [PStr (entityName this)])).
  { intros rest Hc. cbn -[close_run]. now rewrite (scan_clean_start 2 rest Hc). }
  destruct where_ as [w|]; [|exact H0].
  pose proof (append_where_open this " WHERE " w None
                ("SELECT COUNT(*) AS count FROM ??", [PStr (entityName this)])
                eq_refl eq_refl H0) as H.
  cbn [fst snd] in H.
  destruct (buildWhereClause this w [PStr (entityName this)] None). exact H.
Qed.

(** X9. [countWhere]: one statement, in which placeholders and parameters
    match in number; the call resolves with the [count] column of the
    first row, and throws a TypeError when no row comes back. *)
Theorem countWhere_statement_and_result :
  forall where_ w,
    countPlaceholders (fst (countWhere_statement this where_))
    = length (snd (countWhere_statement this where_))
    /\ issued (snd (countWhere this where_ w))
       = issued w
         ++ [{| sql := fst (countWhere_statement this where_);
                params := snd (countWhere_statement this where_) |}]
    /\ (forall row rows,
          respond (connection this) (issued w)
            {| sql := fst (countWhere_statement this where_);
               params := snd (countWhere_statement this where_) |}
          = Returned (Rows (row :: rows)) ->
          fst (countWhere this where_ w) = Returned (get row "count"))
    /\ (respond (connection this) (issued w)
          {| sql := fst (countWhere_statement this where_);
             params := snd (countWhere_statement this where_) |}
        = Returned (Rows []) ->
        exists msg, fst (countWhere this where_ w) = Thrown (TypeError msg)).
Proof.
  intros where_ w. split; [apply open_count, countWhere_statement_open|].
  unfold countWhere.
  destruct (countWhere_statement this where_) as [q ps]; cbn [fst snd].
  unfold bind, connection_query. split; [|split].
  - destruct (respond _ _ _) as [[[|row rows]|h]|e]; reflexivity.
  - intros row rows ->. reflexivity.
  - intros ->. eexists. reflexivity.
Qed.

(** X10. [count()]: the pair the connection resolves with is indexed, not
    destructured, so [count] is read off the array of rows: whenever the
    connection resolves with rows, whatever they hold, the call resolves
    with [undefined]. *)
Theorem count_of_rows_is_undefined :
  forall w rows,
    respond (connection this) (issued w)
      {| sql := "SELECT COUNT(*) AS count FROM ??";
         params := [PStr (entityName this)] |}
    = Returned (Rows rows) ->
    count this w
    = (Returned VUndefined,
       {| issued := issued w
                    ++ [{| sql := "SELECT COUNT(*) AS count FROM ??";
                           params := [PStr (entityName this)] |}];
          console := console w |}).
Proof.
  intros w rows H. unfold count, bind, connection_query. now rewrite H.
Qed.

(** *** insert *)

(** X11. [insert]: one statement, [INSERT INTO ?? SET ?], bound to the table
    and the record of the entity.  The call resolves only with the
    [insertId] of a result header that has one, and then nothing is
    logged; every failure -- the connection's or the missing identifier --
    is logged once and thrown on. *)
Theorem insert_returns_identifier_or_logs :
  forall entity w,
    issued (snd (insert rt this entity w))
    = issued w
      ++ [{| sql := "INSERT INTO ?? SET ?";
             params := [PStr (entityName this);
                        PVal (VObj (toDBRecord rt (EntityClass this) entity))] |}]
    /\ (forall v,
          fst (insert rt this entity w) = Returned v ->
          console (snd (insert rt this entity w)) = console w
          /\ exists h,
               respond (connection this) (issued w)
                 {| sql := "INSERT INTO ?? SET ?";
                    params := [PStr (entityName this);
                               PVal (VObj (toDBRecord rt (EntityClass this) entity))] |}
               = Returned (ResultSetHeader h)
               /\ hasOwnProperty h "insertId" = true
               /\ v = get h "insertId")
    /\ (forall e,
          fst (insert rt this entity w) = Thrown e ->
          console (snd (insert rt this entity w))
          = console w ++ [("Insert error:", e)]).
Proof.
  intros entity w.
  unfold insert, try_catch, bind, connection_query, console_error, throw, ret.
  destruct (respond (connection this) (issued w) _) as [[rows|h]|err] eqn:Hr;
    cbn [fst snd issued console].
  - split; [reflexivity|]. split; [discriminate|]. now intros e [= <-].
  - destruct (hasOwnProperty h "insertId") eqn:Hid; cbn [fst snd issued console].
    + split; [reflexivity|]. split; [|discriminate].
      intros v Hv. injection Hv as <-. split; [reflexivity|]. now exists h.
    + split; [reflexivity|]. split; [discriminate|]. now intros e [= <-].
  - split; [reflexivity|]. split; [discriminate|]. now intros e [= <-].
Qed.

(** *** insertAll, upsertAll *)

Lemma qfree_prefix_rclosed a s n :
  qfree a = true -> rclosed s n -> rclosed (a +++ s) n.
Proof.
  intros Ha Hs. change n with (0 + n)%nat.
  apply rclosed_app_rclosed; [now apply qfree_rclosed|exact Hs].
Qed.

Lemma list_sum_const {A} (c : nat) (l : list A) :
  list_sum (map (fun _ => c) l) = (length l * c)%nat.
Proof.
  induction l as [|a l IH]; [reflexivity|].
  cbn [map length]. change (list_sum (c :: ?l'))%nat with (c + list_sum l')%nat.
  rewrite IH. cbn [Nat.mul]. reflexivity.
Qed.

(** [(?, ?, ?)]: one placeholder per column. *)
Lemma tuple_rclosed (columns : list string) :
  rclosed ("(" +++ join ", " (map (fun _ : string => "?") columns) +++ ")")
          (length columns).
Proof.
  apply qfree_prefix_rclosed; [reflexivity|].
  rewrite <- (Nat.add_0_r (length columns)).
  apply open_app_rclosed; [|reflexivity|apply qfree_rclosed; reflexivity].
  rewrite <- (Nat.mul_1_r (length columns)), <- (list_sum_const 1 columns).
  apply join_open; [reflexivity|discriminate|].
  induction columns as [|c columns IH]; cbn [map]; constructor; [|exact IH].
  intros rest Hc. cbn -[close_run]. now rewrite (scan_clean_start 1 rest Hc).
Qed.

Lemma tuples_rclosed {A} (columns : list string) (values : list A) :
  rclosed
    (join ", "
       (map (fun _ => "(" +++ join ", " (map (fun _ : string => "?") columns) +++ ")")
            values))
    (length values * length columns).
Proof.
  rewrite <- (list_sum_const (length columns) values).
  apply join_rclosed; [reflexivity|].
  induction values as [|v values IH]; cbn [map]; constructor;
    [apply tuple_rclosed|exact IH].
Qed.

Lemma length_concat_rows {A B C} (f : A -> B -> C) (columns : list B) (l : list A) :
  length (concat (map (fun a => map (f a) columns) l))
  = (length l * length columns)%nat.
Proof.
  induction l as [|a l IH]; [reflexivity|].
  cbn [map concat length]. rewrite length_app, length_map, IH. reflexivity.
Qed.

Lemma qfree_update_clauses (columns : list string) :
  forallb qfree columns = true ->
  qfree (join ", "
           (map (fun col => "`" +++ col +++ "` = VALUES(`" +++ col +++ "`)") columns))
  = true.
Proof.
  intros H. apply qfree_join; [reflexivity|].
  induction columns as [|c columns IH]; [reflexivity|].
  cbn [forallb map] in *. apply andb_prop in H as [Hc H].
  rewrite !qfree_append, Hc. cbn. now apply IH.
Qed.

(** X12. [insertAll]: nothing is issued for an empty list.  Otherwise one
    statement is issued; when the table name and the column names (the
    keys of the first entity's record) hold no question mark, its
    placeholders and its parameters are both the number of entities times
    the number of columns.  At most one identifier is returned. *)
Theorem insertAll_one_statement_one_identifier :
  forall first rest w,
    insertAll rt this [] w = (Returned [], w)
    /\ (qfree (entityName this) = true ->
        forallb qfree (keys (toDBRecord rt (EntityClass this) first)) = true ->
        exists statement,
          issued (snd (insertAll rt this (first :: rest) w))
          = issued w ++ [statement]
          /\ countPlaceholders (sql statement) = length (params statement)
          /\ length (params statement)
             = (length (first :: rest)
                * length (keys (toDBRecord rt (EntityClass this) first)))%nat)
    /\ (forall ids,
          fst (insertAll rt this (first :: rest) w) = Returned ids ->
          (length ids <= 1)%nat).
Proof.
  intros first rest w. split; [reflexivity|]. split.
  - intros Hname Hcols. cbn [insertAll].
    set (columns := keys (toDBRecord rt (EntityClass this) first)) in *.
    set (entities := first :: rest).
    match goal with
    | |- context [connection_query _ ?q ?ps] =>
        exists {| sql := q; params := ps |}
    end.
    cbn [sql params]. split; [|split].
    + unfold bind, connection_query.
      destruct (respond _ _ _) as [[rows|h]|e]; cbn [snd issued]; try reflexivity.
      destruct (truthy (get h "insertId")); reflexivity.
    + rewrite length_map, length_concat_rows.
      apply open_count, rclosed_open.
      apply qfree_prefix_rclosed; [reflexivity|].
      apply qfree_prefix_rclosed; [exact Hname|].
      apply qfree_prefix_rclosed; [reflexivity|].
      apply qfree_prefix_rclosed; [apply qfree_join; [reflexivity|exact Hcols]|].
      apply qfree_prefix_rclosed; [reflexivity|].
      pose proof (tuples_rclosed columns
                    (map (fun entity =>
                            map (fun col =>
                                   get (toDBRecord rt (EntityClass this) entity) col)
                                columns) entities)) as H.
      now rewrite length_map in H.
    + now rewrite length_map, length_concat_rows.
  - intros ids. cbn [insertAll]. unfold bind, connection_query, ret.
    destruct (respond _ _ _) as [[rows|h]|e]; cbn [fst].
    + intros [= <-]. cbn. lia.
    + destruct (truthy (get h "insertId")); intros [= <-]; cbn; lia.
    + discriminate.
Qed.

(** X13. [upsertAll]: the one statement issued for a non-empty list holds as
    many placeholders as parameters, the number of entities times the
    number of columns, when the table name and the column names hold no
    question mark: the column list and the [ON DUPLICATE KEY UPDATE]
    assignments are written into the text and bind nothing. *)
Theorem upsertAll_statement_placeholders_match_parameters :
  forall first rest w,
    qfree (entityName this) = true ->
    forallb qfree (keys (toDBRecord rt (EntityClass this) first)) = true ->
    exists statement,
      issued (snd (upsertAll rt this (first :: rest) w)) = issued w ++ [statement]
      /\ countPlaceholders (sql statement) = length (params statement)
      /\ length (params statement)
         = (length (first :: rest)
            * length (keys (toDBRecord rt (EntityClass this) first)))%nat.
Proof.
  intros first rest w Hname Hcols. cbn [upsertAll].
  change (hd [] (map (toDBRecord rt (EntityClass this)) (first :: rest)))
    with (toDBRecord rt (EntityClass this) first).
  set (columns := keys (toDBRecord rt (EntityClass this) first)) in *.
  set (dbRecords := map (toDBRecord rt (EntityClass this)) (first :: rest)).
  assert (Hrecords : length dbRecords = length (first :: rest))
    by apply length_map.
  match goal with
  | |- context [connection_query _ ?q ?ps] =>
      exists {| sql := q; params := ps |}
  end.
  cbn [sql params]. split; [|split].
  - unfold try_catch, bind, connection_query, console_error, throw, ret.
    destruct (respond _ _ _) as [r|e]; reflexivity.
  - rewrite length_map, length_concat_rows.
    apply open_count, rclosed_open.
    apply qfree_prefix_rclosed; [reflexivity|].
    apply qfree_prefix_rclosed; [reflexivity|].
    apply qfree_prefix_rclosed; [exact Hname|].
    apply qfree_prefix_rclosed; [reflexivity|].
    apply qfree_prefix_rclosed; [apply qfree_join; [reflexivity|exact Hcols]|].
    apply qfree_prefix_rclosed; [reflexivity|].
    apply qfree_prefix_rclosed; [reflexivity|].
    apply qfree_prefix_rclosed; [reflexivity|].
    rewrite <- (Nat.add_0_r (_ * _)).
    apply rclosed_app_rclosed.
    + pose proof (tuples_rclosed columns
                    (map (fun record : Obj =>
                            map (fun col => get record col) columns) dbRecords))
        as H.
      now rewrite length_map in H.
    + apply qfree_rclosed. rewrite !qfree_append.
      rewrite (qfree_update_clauses columns Hcols). reflexivity.
  - now rewrite length_map, length_concat_rows, Hrecords.
Qed.

End Writing.

(** ** update, deleteWhereID, delete *)

Section UpdateDelete.
Import JS Types EntityModel DAO.

Variable rt : Runtime.

(** What [init] assigns is left alone when it is assigned again: a parsed
    JSON text is an object, a parsed date is a Date, and only strings are
    converted. *)
Lemma finalValue_idempotent cls k v :
  finalValue rt cls k (finalValue rt cls k v) = finalValue rt cls k v.
Proof.
  unfold finalValue.
  destruct (getPropertyType cls k) as [[|]|]; destruct v; try reflexivity.
  - destruct (JSON_parse s) as [parsed|[|]|] eqn:Hp.
    + destruct (typeof_object parsed && negb (is_null parsed)) eqn:Hobj.
      * destruct parsed; try reflexivity; discriminate.
      * now rewrite Hp, Hobj.
    + reflexivity.
    + now rewrite Hp.
    + now rewrite Hp.
  - destruct (new_Date rt (VStr s)) as [t|] eqn:Hd; [reflexivity|now rewrite Hd].
Qed.

Lemma init_idempotent cls (attributes : Obj) :
  distinct (keys attributes) = true ->
  init rt cls [] (init rt cls [] attributes) = init rt cls [] attributes.
Proof.
  intros Hd. rewrite (init_distinct rt cls attributes Hd).
  rewrite init_distinct by (now rewrite keys_map).
  rewrite map_map. apply map_ext. intros [k v]. cbn [fst snd].
  now rewrite finalValue_idempotent.
Qed.

(** An entity that came out of the constructor passes the constructor
    again, unchanged. *)
Lemma construct_idempotent cls (attributes entity : Obj) :
  distinct (keys attributes) = true ->
  construct rt cls attributes = Constructed entity ->
  construct rt cls entity = Constructed entity.
Proof.
  unfold construct. intros Hd H.
  destruct (validate cls (init rt cls [] attributes)) eqn:Hv; [|discriminate].
  injection H as <-. now rewrite init_idempotent, Hv.
Qed.

(** X14. [update(entity)]: one statement, [UPDATE ?? SET ? WHERE id = ?], bound
    to the table, the record of the entity and the entity's [id]; when it
    resolves, an entity that came out of the constructor is handed back
    as it is -- rebuilding it converts nothing twice and cannot fail
    validation. *)
Theorem update_returns_the_entity :
  forall this (attributes entity : Obj) w r,
    distinct (keys attributes) = true ->
    construct rt (EntityClass this) attributes = Constructed entity ->
    respond (connection this) (issued w)
      {| sql := "UPDATE ?? SET ? WHERE id = ?";
         params := [PStr (entityName this);
                    PVal (VObj (toDBRecord rt (EntityClass this) entity));
                    PVal (get entity "id")] |}
    = Returned r ->
    update rt this entity w
    = (Returned entity,
       {| issued := issued w
                    ++ [{| sql := "UPDATE ?? SET ? WHERE id = ?";
                           params :=
                             [PStr (entityName this);
                              PVal (VObj (toDBRecord rt (EntityClass this) entity));
                              PVal (get entity "id")] |}];
          console := console w |}).
Proof.
  intros this attributes entity w r Hd Hc Hr.
  unfold update, bind, connection_query. rewrite Hr.
  unfold new_Entity. now rewrite (construct_idempotent _ attributes entity Hd Hc).
Qed.

(** With a condition, [deleteWhere] does not resolve with null. *)
Lemma deleteWhere_with_condition_not_null this cond w :
  fst (deleteWhere rt this (Some cond) w) <> Returned None.
Proof.
  unfold deleteWhere. unfold bind at 1.
  destruct (selectWhere rt this (Some cond) None w) as [[rows|e] w1];
    [|discriminate].
  destruct (buildWhereClause this cond [PStr (entityName this)] None) as [cl ps].
  unfold bind, connection_query, ret.
  destruct (respond _ _ _); discriminate.
Qed.

(** [deleteWhereID] hands on a condition, so it never sees null. *)
Lemma deleteWhereID_not_null this id w :
  fst (deleteWhereID rt this id w) <> Returned JsNull.
Proof.
  pose proof (deleteWhere_with_condition_not_null this
                (WhereCondition "ID" id None) w) as Hn.
  unfold deleteWhereID, bind.
  destruct (deleteWhere rt this (Some (WhereCondition "ID" id None)) w)
    as [[[[|e es]|]|err] w1]; cbn [fst] in *; try discriminate.
  congruence.
Qed.

(** X15. [deleteWhereID(id)]: the rows are looked for by the column [ID] of
    the DAO's table; the call never resolves with null; and when the read
    finds no row and the DELETE resolves, it resolves with [undefined],
    the first element of an empty array. *)
Theorem deleteWhereID_reads_by_ID_never_null :
  forall this id w,
    (exists later,
       issued (snd (deleteWhereID rt this id w))
       = issued w
         ++ {| sql := "SELECT " +++ entityName this +++ ".* FROM ?? WHERE ??.?? = ?";
               params := [PStr (entityName this); PStr (entityName this);
                          PStr "ID"; PVal id] |} :: later)
    /\ fst (deleteWhereID rt this id w) <> Returned JsNull
    /\ (forall r,
          respond (connection this) (issued w)
            {| sql := "SELECT " +++ entityName this +++ ".* FROM ?? WHERE ??.?? = ?";
               params := [PStr (entityName this); PStr (entityName this);
                          PStr "ID"; PVal id] |}
          = Returned (Rows []) ->
          respond (connection this)
            (issued w
             ++ [{| sql := "SELECT " +++ entityName this
                           +++ ".* FROM ?? WHERE ??.?? = ?";
                    params := [PStr (entityName this); PStr (entityName this);
                               PStr "ID"; PVal id] |}])
            {| sql := "DELETE FROM ?? WHERE ??.?? = ?";
               params := [PStr (entityName this); PStr (entityName this);
                          PStr "ID"; PVal id] |}
          = Returned r ->
          fst (deleteWhereID rt this id w) = Returned JsUndefined).
Proof.
  intros this id w. split; [|split].
  - unfold deleteWhereID, deleteWhere. unfold bind at 1 2.
    pose proof (selectWhere_world rt this (Some (WhereCondition "ID" id None)) None w)
      as Hw.
    rewrite selectWhere_statement_one_comparison in Hw. cbn [fst snd] in Hw.
    destruct (selectWhere rt this (Some (WhereCondition "ID" id None)) None w)
      as [[rows|e] w1]; cbn [snd] in Hw; subst w1.
    + cbn [buildWhereClause]. unfold bind, connection_query, ret.
      cbn [issued].
      destruct (respond _ _ _); cbn [snd issued]; rewrite <- app_assoc;
        eexists; reflexivity.
    + cbn [snd issued]. eexists. reflexivity.
  - apply deleteWhereID_not_null.
  - intros r Hsel Hdel.
    unfold deleteWhereID, deleteWhere, selectWhere.
    rewrite selectWhere_statement_one_comparison.
    cbn [buildWhereClause].
    unfold bind, connection_query. rewrite Hsel. cbn [mapM ret issued].
    unfold ret. cbn [issued].
    change ("DELETE FROM ?? WHERE " +++ "??.?? " +++ WhereOperator_str OpEq +++ " ?")
      with "DELETE FROM ?? WHERE ??.?? = ?".
    change ([PStr (entityName this)] ++ [PStr (entityName this); PStr "ID"; PVal id])
      with [PStr (entityName this); PStr (entityName this); PStr "ID"; PVal id].
    now rewrite Hdel.
Qed.

(** X16. [delete(entity)] resolves with null exactly when the entity's [id]
    is falsy (missing, [undefined], [null], [0]), and then nothing is
    issued. *)
Theorem delete_null_iff_no_id :
  forall this (entity : Obj) w,
    (fst (delete_ rt this entity w) = Returned JsNull
     <-> truthy (get entity "id") = false)
    /\ (truthy (get entity "id") = false ->
        snd (delete_ rt this entity w) = w).
Proof.
  intros this entity w. unfold delete_.
  destruct (truthy (get entity "id")) eqn:Hid.
  - split; [|discriminate]. split; [|discriminate].
    intros H.
    now destruct (deleteWhereID_not_null this (get entity "id") w).
  - split; [|reflexivity]. split; reflexivity.
Qed.

End UpdateDelete.

Section WritingExamples.
Import JS Types EntityModel DAO.

(** Seven rows counted under a condition. *)
Lemma countWhere_seven_active :
  respond (connection (Fixtures.usersDAO Fixtures.seven_rows))
    (issued Fixtures.fresh)
    {| sql := fst (countWhere_statement (Fixtures.usersDAO Fixtures.seven_rows)
                     (Some (WhereCondition "isActive" (VNum 1) None)));
       params := snd (countWhere_statement (Fixtures.usersDAO Fixtures.seven_rows)
                        (Some (WhereCondition "isActive" (VNum 1) None))) |}
  = Returned (Rows [[("count", VNum 7)]])
  /\ countWhere_statement (Fixtures.usersDAO Fixtures.seven_rows)
       (Some (WhereCondition "isActive" (VNum 1) None))
     = ("SELECT COUNT(*) AS count FROM ?? WHERE ??.?? = ?",
        [PStr "users"; PStr "users"; PStr "isActive"; PNum 1])
  /\ fst (countWhere (Fixtures.usersDAO Fixtures.seven_rows)
            (Some (WhereCondition "isActive" (VNum 1) None)) Fixtures.fresh)
     = Returned (VNum 7).
Proof.
  split; [reflexivity|]. split; [reflexivity|].
  exact (proj1 (proj2 (proj2 (countWhere_statement_and_result
                                (Fixtures.usersDAO Fixtures.seven_rows)
                                (Some (WhereCondition "isActive" (VNum 1) None))
                                Fixtures.fresh)))
           [("count", VNum 7)] [] eq_refl).
Defined.

(** The same connection asked for the total: [undefined]. *)
Lemma count_seven_rows_undefined :
  respond (connection (Fixtures.usersDAO Fixtures.seven_rows))
    (issued Fixtures.fresh)
    {| sql := "SELECT COUNT(*) AS count FROM ??";
       params := [PStr (entityName (Fixtures.usersDAO Fixtures.seven_rows))] |}
  = Returned (Rows [[("count", VNum 7)]])
  /\ fst (count (Fixtures.usersDAO Fixtures.seven_rows) Fixtures.fresh)
     = Returned VUndefined.
Proof.
  split; [reflexivity|].
  exact (f_equal fst
           (count_of_rows_is_undefined (Fixtures.usersDAO Fixtures.seven_rows)
              Fixtures.fresh [[("count", VNum 7)]] eq_refl)).
Defined.

(** An insert that the connection acknowledges with identifier 42. *)
Lemma insert_first_user :
  fst (insert Fixtures.utc (Fixtures.usersDAO Fixtures.inserted_42)
         Fixtures.first_user Fixtures.fresh)
  = Returned (VNum 42)
  /\ console (snd (insert Fixtures.utc (Fixtures.usersDAO Fixtures.inserted_42)
                     Fixtures.first_user Fixtures.fresh))
     = console Fixtures.fresh.
Proof.
  split; [reflexivity|].
  exact (proj1 (proj1 (proj2 (insert_returns_identifier_or_logs Fixtures.utc
                                (Fixtures.usersDAO Fixtures.inserted_42)
                                Fixtures.first_user Fixtures.fresh))
                  (VNum 42) eq_refl)).
Defined.

(** Two users inserted at once: four placeholders, four parameters. *)
Lemma insertAll_two_users :
  qfree (entityName (Fixtures.usersDAO Fixtures.inserted_42)) = true
  /\ forallb qfree
       (keys (toDBRecord Fixtures.utc
                (EntityClass (Fixtures.usersDAO Fixtures.inserted_42))
                Fixtures.first_user))
     = true
  /\ exists statement,
       issued (snd (insertAll Fixtures.utc (Fixtures.usersDAO Fixtures.inserted_42)
                      [Fixtures.first_user; Fixtures.second_user] Fixtures.fresh))
       = issued Fixtures.fresh ++ [statement]
       /\ countPlaceholders (sql statement) = length (params statement)
       /\ length (params statement)
          = (length [Fixtures.first_user; Fixtures.second_user]
             * length (keys (toDBRecord Fixtures.utc
                               (EntityClass (Fixtures.usersDAO Fixtures.inserted_42))
                               Fixtures.first_user)))%nat.
Proof.
  split; [reflexivity|]. split; [reflexivity|].
  exact (proj1 (proj2 (insertAll_one_statement_one_identifier Fixtures.utc
                         (Fixtures.usersDAO Fixtures.inserted_42)
                         Fixtures.first_user [Fixtures.second_user] Fixtures.fresh))
           eq_refl eq_refl).
Defined.

(** The same two users upserted. *)
Lemma upsertAll_two_users_aligned :
  qfree (entityName (Fixtures.usersDAO Fixtures.inserted_42)) = true
  /\ forallb qfree
       (keys (toDBRecord Fixtures.utc
                (EntityClass (Fixtures.usersDAO Fixtures.inserted_42))
                Fixtures.first_user))
     = true
  /\ exists statement,
       issued (snd (upsertAll Fixtures.utc (Fixtures.usersDAO Fixtures.inserted_42)
                      [Fixtures.first_user; Fixtures.second_user] Fixtures.fresh))
       = issued Fixtures.fresh ++ [statement]
       /\ countPlaceholders (sql statement) = length (params statement)
       /\ length (params statement)
          = (length [Fixtures.first_user; Fixtures.second_user]
             * length (keys (toDBRecord Fixtures.utc
                               (EntityClass (Fixtures.usersDAO Fixtures.inserted_42))
                               Fixtures.first_user)))%nat.
Proof.
  split; [reflexivity|]. split; [reflexivity|].
  exact (upsertAll_statement_placeholders_match_parameters Fixtures.utc
           (Fixtures.usersDAO Fixtures.inserted_42)
           Fixtures.first_user [Fixtures.second_user] Fixtures.fresh
           eq_refl eq_refl).
Defined.

(** A user read from a row and written back: the entity comes back as it
    went in, the settings still an array. *)
Lemma update_ann :
  distinct (keys Fixtures.row_ann) = true
  /\ construct Fixtures.utc
       (EntityClass (Fixtures.usersDAO Fixtures.three_rows_affected))
       Fixtures.row_ann
     = Constructed
         [("id", VNum 1); ("username", VStr "ann");
          ("settings", VArr [VNum 1; VNum 2]); ("posts_title", VStr "hello")]
  /\ fst (update Fixtures.utc (Fixtures.usersDAO Fixtures.three_rows_affected)
            [("id", VNum 1); ("username", VStr "ann");
             ("settings", VArr [VNum 1; VNum 2]); ("posts_title", VStr "hello")]
            Fixtures.fresh)
     = Returned
         [("id", VNum 1); ("username", VStr "ann");
          ("settings", VArr [VNum 1; VNum 2]); ("posts_title", VStr "hello")].
Proof.
  split; [reflexivity|]. split; [reflexivity|].
  exact (f_equal fst
           (update_returns_the_entity Fixtures.utc
              (Fixtures.usersDAO Fixtures.three_rows_affected)
              Fixtures.row_ann
              [("id", VNum 1); ("username", VStr "ann");
               ("settings", VArr [VNum 1; VNum 2]); ("posts_title", VStr "hello")]
              Fixtures.fresh
              (ResultSetHeader [("affectedRows", VNum 3)])
              eq_refl eq_refl eq_refl)).
Defined.

(** Deleting by an identifier no row has: [undefined], after a read and
    a DELETE. *)
Lemma deleteWhereID_unknown_user :
  respond (connection (Fixtures.usersDAO Fixtures.empty_table))
    (issued Fixtures.fresh)
    {| sql := "SELECT " +++ entityName (Fixtures.usersDAO Fixtures.empty_table)
              +++ ".* FROM ?? WHERE ??.?? = ?";
       params := [PStr (entityName (Fixtures.usersDAO Fixtures.empty_table));
                  PStr (entityName (Fixtures.usersDAO Fixtures.empty_table));
                  PStr "ID"; PVal (VNum 7)] |}
  = Returned (Rows [])
  /\ fst (deleteWhereID Fixtures.utc (Fixtures.usersDAO Fixtures.empty_table)
            (VNum 7) Fixtures.fresh)
     = Returned JsUndefined.
Proof.
  split; [reflexivity|].
  exact (proj2 (proj2 (deleteWhereID_reads_by_ID_never_null Fixtures.utc
                         (Fixtures.usersDAO Fixtures.empty_table) (VNum 7)
                         Fixtures.fresh))
           (ResultSetHeader [("affectedRows", VNum 0)]) eq_refl eq_refl).
Defined.

(** An entity whose identifier is zero is not deleted. *)
Lemma delete_user_zero :
  truthy (get [("id", VNum 0); ("username", VStr "ann")] "id") = false
  /\ delete_ Fixtures.utc (Fixtures.usersDAO Fixtures.empty_table)
       [("id", VNum 0); ("username", VStr "ann")] Fixtures.fresh
     = (Returned JsNull, Fixtures.fresh).
Proof.
  split; [reflexivity|].
  pose proof (delete_null_iff_no_id Fixtures.utc
                (Fixtures.usersDAO Fixtures.empty_table)
                [("id", VNum 0); ("username", VStr "ann")] Fixtures.fresh)
    as [[_ Hnull] Hworld].
  apply injective_projections; [exact (Hnull eq_refl)|exact (Hworld eq_refl)].
Defined.

End WritingExamples.

(** ** Entities: assignment, filtering, records *)

Section Entities.
Import JS Types EntityModel.

(** *** Reading after writing *)

Lemma lookup_set (o : Obj) k v k' :
  lookup (set o k v) k' = if String.eqb k k' then Some v else lookup o k'.
Proof.
  induction o as [|[a b] o IH]; cbn [set lookup]; [reflexivity|].
  destruct (String.eqb_spec a k) as [->|Hak]; cbn [lookup].
  - destruct (String.eqb k k'); reflexivity.
  - rewrite IH. destruct (String.eqb_spec a k') as [->|Hak'].
    + destruct (String.eqb_spec k k'); [congruence|reflexivity].
    + reflexivity.
Qed.

Lemma hasOwnProperty_lookup (o : Obj) k :
  hasOwnProperty o k = match lookup o k with Some _ => true | None => false end.
Proof.
  induction o as [|[a b] o IH]; cbn; [reflexivity|].
  destruct (String.eqb a k); [reflexivity|exact IH].
Qed.

Lemma hasOwnProperty_set (o : Obj) k v k' :
  hasOwnProperty (set o k v) k' = String.eqb k k' || hasOwnProperty o k'.
Proof.
  rewrite !hasOwnProperty_lookup, lookup_set.
  destruct (String.eqb k k'); reflexivity.
Qed.

Lemma hasOwnProperty_delete (o : Obj) j k :
  hasOwnProperty (delete o j) k = negb (String.eqb j k) && hasOwnProperty o k.
Proof.
  induction o as [|[a b] o IH]; cbn [delete hasOwnProperty].
  - now rewrite andb_false_r.
  - destruct (String.eqb_spec a j) as [->|Haj].
    + rewrite IH. destruct (String.eqb j k); reflexivity.
    + cbn [hasOwnProperty]. rewrite IH.
      destruct (String.eqb_spec a k) as [->|Hak]; [|reflexivity].
      destruct (String.eqb_spec j k); [congruence|reflexivity].
Qed.

Lemma keys_delete (o : Obj) j :
  keys (delete o j) = filter (fun k => negb (String.eqb k j)) (keys o).
Proof.
  induction o as [|[a b] o IH]; cbn [delete keys map fst filter]; [reflexivity|].
  destruct (String.eqb a j); cbn [negb keys map fst]; [exact IH|].
  f_equal. exact IH.
Qed.

Lemma get_of_lookup (o : Obj) k v : lookup o k = Some v -> get o k = v.
Proof. unfold get. now intros ->. Qed.

(** The loop shared by [init] and [set]: every attribute is assigned,
    converted by [f]; nothing else is touched. *)
Lemma assign_loop_lookup (f : string -> Value -> Value) (attributes : Obj)
    (ks : list string) :
  (forall p, In p ks -> hasOwnProperty attributes p = true) ->
  forall (this : Obj) k,
    lookup
      (fold_left
         (fun this prop =>
            if hasOwnProperty attributes prop
            then set this prop (f prop (get attributes prop))
            else this)
         ks this) k
    = if existsb (String.eqb k) ks
      then option_map (f k) (lookup attributes k)
      else lookup this k.
Proof.
  induction ks as [|p ks IH]; intros Hin this k; cbn [fold_left existsb];
    [reflexivity|].
  rewrite (Hin p (or_introl eq_refl)).
  rewrite IH by (intros q Hq; apply Hin; now right).
  rewrite lookup_set.
  destruct (existsb (String.eqb k) ks); [now rewrite orb_true_r|].
  rewrite orb_false_r, (String.eqb_sym k p).
  destruct (String.eqb_spec p k) as [->|]; [|reflexivity].
  pose proof (Hin k (or_introl eq_refl)) as Hk.
  rewrite hasOwnProperty_lookup in Hk. unfold get.
  destruct (lookup attributes k); [reflexivity|discriminate].
Qed.

Lemma existsb_keys (o : Obj) k :
  existsb (String.eqb k) (keys o) = hasOwnProperty o k.
Proof. symmetry. apply hasOwnProperty_existsb. Qed.

Lemma keys_own (o : Obj) p : In p (keys o) -> hasOwnProperty o p = true.
Proof.
  intros H. rewrite <- existsb_keys. apply existsb_exists.
  exists p. split; [exact H|apply String.eqb_refl].
Qed.

Lemma assign_all_lookup (f : string -> Value -> Value) (attributes this : Obj) k :
  lookup
    (fold_left
       (fun this prop =>
          if hasOwnProperty attributes prop
          then set this prop (f prop (get attributes prop))
          else this)
       (keys attributes) this) k
  = match lookup attributes k with
    | Some v => Some (f k v)
    | None => lookup this k
    end.
Proof.
  rewrite assign_loop_lookup by apply keys_own.
  rewrite existsb_keys, hasOwnProperty_lookup.
  destruct (lookup attributes k); reflexivity.
Qed.

(** *** set *)

(** X17. [set(attributes)]: every property given is assigned as it is -- no
    conversion, no validation -- and every other property of the entity
    keeps its value. *)
Theorem set_attributes_overwrites_given_properties :
  forall (this attributes : Obj) (k : string),
    lookup (set_attributes this attributes) k
    = match lookup attributes k with
      | Some v => Some v
      | None => lookup this k
      end.
Proof.
  intros this attributes k. unfold set_attributes.
  exact (assign_all_lookup (fun _ v => v) attributes this k).
Qed.

(** *** init *)

(** X18. [init(attributes)]: every attribute is assigned and every other
    property of the object is left as it was.  The value assigned is the
    attribute itself when it is no string or its field is not declared.
    A string in a field declared JSON is replaced by what [JSON.parse]
    reads from it when that is an object or an array, and is assigned as
    it is when the text does not parse or denotes null, a boolean, a
    number or a string.  A string in a field declared DATE is replaced by
    the Date [new Date] makes of it when that Date is valid, and is
    assigned as it is otherwise. *)
Theorem init_assigns_attributes_converting_strings :
  forall rt cls (this attributes : Obj) (k : string),
    (lookup attributes k = None ->
     lookup (init rt cls this attributes) k = lookup this k)
    /\ (forall v,
          lookup attributes k = Some v ->
          (typeof_string v = false \/ getPropertyType cls k = None ->
           lookup (init rt cls this attributes) k = Some v)
          /\ (forall s,
                v = VStr s ->
                getPropertyType cls k = Some JSON ->
                lookup (init rt cls this attributes) k
                = Some (match JSON_parse s with
                        | Reads parsed =>
                            if typeof_object parsed && negb (is_null parsed)
                            then parsed
                            else VStr s
                        | ReadsBeyond true => VBeyond (JSON_restringify rt s)
                        | ReadsBeyond false => VStr s
                        | SyntaxError => VStr s
                        end))
          /\ (forall s,
                v = VStr s ->
                getPropertyType cls k = Some DATE ->
                lookup (init rt cls this attributes) k
                = Some (match new_Date rt (VStr s) with
                        | Some t => VDate (Some t)
                        | None => VStr s
                        end))).
Proof.
  intros rt cls this attributes k. unfold init.
  rewrite (assign_all_lookup (finalValue rt cls) attributes this k).
  split.
  - now intros ->.
  - intros v ->. unfold finalValue. split; [|split].
    + intros [Hv|Hk].
      * destruct (getPropertyType cls k) as [[|]|]; destruct v;
          try reflexivity; discriminate.
      * now rewrite Hk.
    + intros s -> ->. reflexivity.
    + intros s -> ->. reflexivity.
Qed.

(** *** filterToEntity *)

Lemma filterToEntity_lookup (obj : Obj) (ks : list string) :
  forall (result : Obj) k,
    lookup
      (fold_left
         (fun result key =>
            if negb (is_undefined (get obj key))
            then set result key (get obj key)
            else result)
         ks result) k
    = if existsb (String.eqb k) ks && negb (is_undefined (get obj k))
      then Some (get obj k)
      else lookup result k.
Proof.
  induction ks as [|p ks IH]; intros result k; cbn [fold_left existsb];
    [reflexivity|].
  rewrite IH.
  destruct (existsb (String.eqb k) ks && negb (is_undefined (get obj k))) eqn:Hks.
  - apply andb_prop in Hks as [-> ->]. now rewrite orb_true_r.
  - rewrite (String.eqb_sym k p).
    destruct (String.eqb_spec p k) as [->|Hpk].
    + cbn [orb]. destruct (negb (is_undefined (get obj k))) eqn:Hu; cbn [andb].
      * now rewrite lookup_set, String.eqb_refl.
      * reflexivity.
    + cbn [orb]. rewrite Hks.
      destruct (negb (is_undefined (get obj p))); [|reflexivity].
      rewrite lookup_set. now destruct (String.eqb_spec p k).
Qed.

(** X19. [filterToEntity(obj, keys)]: the result has exactly the listed keys
    whose value in [obj] is not undefined, each with the value it has in
    [obj]; so no property of the result is undefined, and no key outside
    the list gets through. *)
Theorem filterToEntity_keeps_listed_defined_properties :
  forall (obj : Obj) (ks : list string) (k : string),
    lookup (filterToEntity obj ks) k
    = (if existsb (String.eqb k) ks && negb (is_undefined (get obj k))
       then Some (get obj k)
       else None)
    /\ lookup (filterToEntity obj ks) k <> Some VUndefined.
Proof.
  intros obj ks k. unfold filterToEntity. rewrite filterToEntity_lookup.
  cbn [lookup]. split; [reflexivity|].
  destruct (existsb (String.eqb k) ks); cbn [andb]; [|discriminate].
  destruct (get obj k); cbn; discriminate.
Qed.

(** *** toDBRecord *)

(** What [toDBRecord] writes for one value. *)
Lemma dbValue_not_undefined rt cls k v : dbValue rt cls k v <> VUndefined.
Proof.
  unfold dbValue, JSON_stringify.
  destruct (getPropertyType cls k) as [[|]|];
    destruct v as [| | | | | | |[t|]| |];
    cbn [is_undefined typeof_object is_null negb andb orb instanceof_Date
         instanceof_Buffer SerializeJSONProperty];
    try (destruct (new_Date rt _)); discriminate.
Qed.

Lemma object_has_json_text v :
  typeof_object v && negb (is_null v) = true ->
  exists s, SerializeJSONProperty v = Some s.
Proof.
  destruct v as [| | | | | | |[t|]| |]; cbn; try discriminate; eauto.
Qed.

(** X20. [toDBRecord]: the record has the entity's own keys in their order,
    without [_joins], and no value of it is undefined.  Field by field:
    undefined is written as null; a non-null object in a field declared
    JSON, and an array or plain object in an undeclared field, is written
    as its JSON text; a valid Date outside the fields declared JSON is
    written as its date text ['YYYY-MM-DD HH:MM:SS']; any other value in a
    field declared DATE is written as the date text of the Date made of
    it, when that Date is valid; everything else -- primitives, null,
    Buffers in undeclared fields, invalid Dates -- is written as it is. *)
Theorem toDBRecord_record_shape :
  forall rt cls (e : Obj),
    distinct (keys e) = true ->
    keys (toDBRecord rt cls e)
    = filter (fun k => negb (String.eqb k "_joins")) (keys e)
    /\ (forall k v,
          k <> "_joins" ->
          lookup e k = Some v ->
          exists v',
            lookup (toDBRecord rt cls e) k = Some v'
            /\ v' <> VUndefined
            /\ (v = VUndefined -> v' = VNull)
            /\ (typeof_object v && negb (is_null v) = true ->
                getPropertyType cls k = Some JSON
                \/ (getPropertyType cls k = None
                    /\ instanceof_Date v = false
                    /\ instanceof_Buffer v = false) ->
                exists s, SerializeJSONProperty v = Some s /\ v' = VStr s)
            /\ (forall t,
                  v = VDate (Some t) ->
                  getPropertyType cls k <> Some JSON ->
                  v' = VStr (formatDate t))
            /\ (getPropertyType cls k = Some DATE ->
                instanceof_Date v = false ->
                v <> VUndefined ->
                v' = match new_Date rt v with
                     | Some t => VStr (formatDate t)
                     | None => v
                     end)
            /\ (v <> VUndefined ->
                (getPropertyType cls k = Some JSON
                 /\ typeof_object v && negb (is_null v) = false)
                \/ (getPropertyType cls k = None
                    /\ (typeof_object v && negb (is_null v) = false
                        \/ instanceof_Buffer v = true))
                \/ (getPropertyType cls k <> Some JSON /\ v = VDate None) ->
                v' = v)).
Proof.
  intros rt cls e Hd. rewrite (toDBRecord_distinct rt cls e Hd). split.
  - now rewrite keys_delete, keys_map.
  - intros k v Hk Hl. exists (dbValue rt cls k v).
    rewrite lookup_delete, lookup_map, Hl by assumption.
    split; [reflexivity|]. split; [apply dbValue_not_undefined|].
    unfold dbValue, JSON_stringify.
    split; [|split; [|split; [|split]]].
    + now intros ->.
    + intros Hobj Hkind. destruct (object_has_json_text v Hobj) as [s Hs].
      exists s. split; [exact Hs|].
      replace (is_undefined v) with false by (now destruct v).
      destruct Hkind as [->|[-> [Hdate Hbuf]]].
      * now rewrite Hobj, Hs.
      * rewrite Hdate, Hobj, Hbuf, Hs. reflexivity.
    + intros t -> Hkind. cbn [is_undefined instanceof_Date orb].
      destruct (getPropertyType cls k) as [[|]|];
        [congruence|now rewrite ?orb_true_r..].
    + intros -> Hdate Hundef.
      replace (is_undefined v) with false by (now destruct v).
      cbn [orb]. now destruct v.
    + intros Hundef Hcase.
      replace (is_undefined v) with false by (now destruct v).
      destruct Hcase as [[-> Hobj]|[[-> Hcase]|[Hkind ->]]].
      * now rewrite Hobj.
      * destruct Hcase as [Hobj|Hbuf].
        -- rewrite Hobj. cbn [orb andb].
           destruct v as [| | | | | | |[t|]| |]; try reflexivity; discriminate.
        -- destruct v; try discriminate. reflexivity.
      * destruct (getPropertyType cls k) as [[|]|]; [congruence|reflexivity..].
Qed.

End Entities.

(** ** Rows with join columns *)

Section Demultiplex.
Import JS Types EntityModel DAO.

Variable row : Obj.

Lemma demultiplex_steps fields joins :
  demultiplex fields joins row
  = set (fst (fold_left (gather_join row) joins (own_fields fields row, [])))
        "_joins"
        (VObj (snd (fold_left (gather_join row) joins (own_fields fields row, [])))).
Proof.
  transitivity
    (let '(entityData, joinedData) :=
       fold_left (gather_join row) joins (own_fields fields row, []) in
     set entityData "_joins" (VObj joinedData)); [reflexivity|].
  now destruct (fold_left (gather_join row) joins (own_fields fields row, [])).
Qed.

Lemma own_fields_loop (ks : list string) :
  forall (acc : Obj) k,
    lookup
      (fold_left
         (fun entityData field =>
            if hasOwnProperty row field
            then set entityData field (get row field)
            else entityData)
         ks acc) k
    = if existsb (String.eqb k) ks && hasOwnProperty row k
      then lookup row k
      else lookup acc k.
Proof.
  induction ks as [|p ks IH]; intros acc k; cbn [fold_left existsb];
    [reflexivity|].
  rewrite IH.
  destruct (existsb (String.eqb k) ks && hasOwnProperty row k) eqn:Hks.
  - apply andb_prop in Hks as [-> ->]. now rewrite orb_true_r.
  - rewrite (String.eqb_sym k p).
    destruct (String.eqb_spec p k) as [->|Hpk]; cbn [orb].
    + destruct (hasOwnProperty row k) eqn:Hown; cbn [andb]; [|reflexivity].
      rewrite lookup_set, String.eqb_refl.
      rewrite hasOwnProperty_lookup in Hown. unfold get.
      now destruct (lookup row k).
    + rewrite Hks. destruct (hasOwnProperty row p); [|reflexivity].
      rewrite lookup_set. now destruct (String.eqb_spec p k).
Qed.

Lemma own_fields_lookup fields k :
  lookup (own_fields fields row) k
  = if match fields with [] => true | _ => existsb (String.eqb k) fields end
    then lookup row k
    else None.
Proof.
  unfold own_fields. rewrite own_fields_loop. cbn [lookup].
  assert (Hnone : hasOwnProperty row k = false -> lookup row k = None).
  { rewrite hasOwnProperty_lookup. now destruct (lookup row k). }
  destruct fields as [|f fields].
  - rewrite existsb_keys, andb_diag.
    destruct (hasOwnProperty row k) eqn:Hown; [reflexivity|].
    symmetry. now apply Hnone.
  - destruct (existsb (String.eqb k) (f :: fields)); [|reflexivity].
    cbn [andb]. destruct (hasOwnProperty row k) eqn:Hown; [reflexivity|].
    symmetry. now apply Hnone.
Qed.

(** *** What gathering keeps *)

Lemma get_set (o : Obj) k v k' :
  get (set o k v) k' = if String.eqb k k' then v else get o k'.
Proof. unfold get. rewrite lookup_set. now destruct (String.eqb k k'). Qed.

(** An entry of [_joins] stays an object. *)
Lemma gather_field_entry table t (st : Obj * Obj) field :
  (exists o, get (snd st) t = VObj o) ->
  exists o, get (snd (gather_field row table st field)) t = VObj o.
Proof.
  destruct st as [entityData joinedData]. unfold gather_field.
  intros H. destruct (hasOwnProperty row _); [|exact H].
  cbn [snd] in *. rewrite get_set.
  destruct (String.eqb table t); [eexists; reflexivity|exact H].
Qed.

Lemma gather_fields_entry table t fs :
  forall st : Obj * Obj,
    (exists o, get (snd st) t = VObj o) ->
    exists o, get (snd (fold_left (gather_field row table) fs st)) t = VObj o.
Proof.
  induction fs as [|f fs IH]; intros st H; cbn [fold_left]; [exact H|].
  apply IH. now apply gather_field_entry.
Qed.

Lemma gather_join_entry (st : Obj * Obj) j t :
  t = EntityName (rightTable j) \/ (exists o, get (snd st) t = VObj o) ->
  exists o, get (snd (gather_join row st j)) t = VObj o.
Proof.
  destruct st as [entityData joinedData]. unfold gather_join. cbv zeta.
  intros H.
  assert (H0 : exists o,
             get (snd (entityData,
                       set joinedData (EntityName (rightTable j)) (VObj []))) t
             = VObj o).
  { cbn [snd] in *. rewrite get_set.
    destruct (String.eqb_spec (EntityName (rightTable j)) t) as [E|E].
    - eexists; reflexivity.
    - destruct H as [->|H]; [congruence|exact H]. }
  destruct (j_fields j) as [fs|]; [|exact H0].
  now apply gather_fields_entry.
Qed.

Lemma gather_joins_entry joins :
  forall (st : Obj * Obj) t,
    (exists j, In j joins /\ t = EntityName (rightTable j))
    \/ (exists o, get (snd st) t = VObj o) ->
    exists o, get (snd (fold_left (gather_join row) joins st)) t = VObj o.
Proof.
  induction joins as [|j joins IH]; intros st t H; cbn [fold_left].
  - destruct H as [[j [[] _]]|H]. exact H.
  - apply IH. destruct H as [[j' [[<-|Hin] Ht]]|H].
    + right. apply gather_join_entry. now left.
    + left. now exists j'.
    + right. apply gather_join_entry. now right.
Qed.

(** A key that is gone stays gone. *)
Lemma gather_field_absent table (st : Obj * Obj) field k :
  hasOwnProperty (fst st) k = false
  \/ (k = table +++ "_" +++ field /\ hasOwnProperty row k = true) ->
  hasOwnProperty (fst (gather_field row table st field)) k = false.
Proof.
  destruct st as [entityData joinedData]. unfold gather_field. cbv zeta.
  intros [H|[-> H]].
  - destruct (hasOwnProperty row _); cbn [fst] in *; [|exact H].
    now rewrite hasOwnProperty_delete, H, andb_false_r.
  - rewrite H. cbn [fst]. now rewrite hasOwnProperty_delete, String.eqb_refl.
Qed.

Lemma gather_fields_absent table fs k :
  forall st : Obj * Obj,
    hasOwnProperty (fst st) k = false
    \/ (In k (map (fun field => table +++ "_" +++ field) fs)
        /\ hasOwnProperty row k = true) ->
    hasOwnProperty (fst (fold_left (gather_field row table) fs st)) k = false.
Proof.
  induction fs as [|f fs IH]; intros st H; cbn [fold_left].
  - destruct H as [H|[[] _]]. exact H.
  - apply IH. cbn [map] in H. destruct H as [H|[[<-|Hin] Hown]].
    + left. apply gather_field_absent. now left.
    + left. apply gather_field_absent. now right.
    + now right.
Qed.

Lemma gather_join_absent (st : Obj * Obj) j k :
  hasOwnProperty (fst st) k = false
  \/ (In k (alias_keys [j]) /\ hasOwnProperty row k = true) ->
  hasOwnProperty (fst (gather_join row st j)) k = false.
Proof.
  destruct st as [entityData joinedData]. unfold gather_join. cbv zeta.
  unfold alias_keys. cbn [flat_map]. rewrite app_nil_r.
  intros H. destruct (j_fields j) as [fs|]; cbn [opt_list map fst] in *.
  - apply gather_fields_absent. exact H.
  - destruct H as [H|[[] _]]. exact H.
Qed.

Lemma gather_joins_absent joins k :
  forall st : Obj * Obj,
    hasOwnProperty (fst st) k = false
    \/ (In k (alias_keys joins) /\ hasOwnProperty row k = true) ->
    hasOwnProperty (fst (fold_left (gather_join row) joins st)) k = false.
Proof.
  induction joins as [|j joins IH]; intros st H; cbn [fold_left].
  - destruct H as [H|[[] _]]. exact H.
  - apply IH. unfold alias_keys in H. cbn [flat_map] in H.
    destruct H as [H|[Hin Hown]].
    + left. apply gather_join_absent. now left.
    + apply in_app_or in Hin as [Hin|Hin].
      * left. apply gather_join_absent. right. split; [|exact Hown].
        unfold alias_keys. cbn [flat_map]. now rewrite app_nil_r.
      * right. now split.
Qed.

(** A key that is no alias is not touched. *)
Lemma gather_fields_other table fs k :
  ~ In k (map (fun field => table +++ "_" +++ field) fs) ->
  forall st : Obj * Obj,
    lookup (fst (fold_left (gather_field row table) fs st)) k = lookup (fst st) k.
Proof.
  induction fs as [|f fs IH]; intros Hk st; cbn [fold_left]; [reflexivity|].
  cbn [map] in Hk. rewrite IH by (intros H; apply Hk; now right).
  destruct st as [entityData joinedData]. unfold gather_field. cbv zeta.
  destruct (hasOwnProperty row _); [|reflexivity].
  cbn [fst]. apply lookup_delete. intros ->. apply Hk. now left.
Qed.

Lemma gather_joins_other joins k :
  ~ In k (alias_keys joins) ->
  forall st : Obj * Obj,
    lookup (fst (fold_left (gather_join row) joins st)) k = lookup (fst st) k.
Proof.
  induction joins as [|j joins IH]; intros Hk st; cbn [fold_left]; [reflexivity|].
  unfold alias_keys in Hk. cbn [flat_map] in Hk.
  rewrite IH by (intros H; apply Hk, in_or_app; now right).
  destruct st as [entityData joinedData]. unfold gather_join. cbv zeta.
  destruct (j_fields j) as [fs|]; [|reflexivity].
  rewrite gather_fields_other; [reflexivity|].
  intros H. apply Hk, in_or_app. now left.
Qed.

(** X8. [selectWhere]'s reshaping of a row: [_joins] holds an object for every
    joined table, selected columns or not; the aliased columns of the
    joined tables that the row holds are no properties of the entity
    data; and every other key of the row -- of the projection, when there
    is one -- is handed on with the value it has in the row. *)
Theorem demultiplex_separates_join_columns :
  forall (fields : list string) (joins : list Join),
    (exists joinedData,
       get (demultiplex fields joins row) "_joins" = VObj joinedData
       /\ forall j, In j joins ->
            exists o, get joinedData (EntityName (rightTable j)) = VObj o)
    /\ (forall k,
          In k (alias_keys joins) -> hasOwnProperty row k = true ->
          k <> "_joins" ->
          hasOwnProperty (demultiplex fields joins row) k = false)
    /\ (forall k,
          ~ In k (alias_keys joins) -> k <> "_joins" ->
          lookup (demultiplex fields joins row) k
          = if match fields with
               | [] => true
               | _ => existsb (String.eqb k) fields
               end
            then lookup row k
            else None).
Proof.
  intros fields joins. rewrite demultiplex_steps. split; [|split].
  - eexists. split; [rewrite get_set; reflexivity|].
    intros j Hin. apply gather_joins_entry. left. now exists j.
  - intros k Hin Hown Hk. rewrite hasOwnProperty_set.
    destruct (String.eqb_spec "_joins" k); [congruence|]. cbn [orb].
    apply gather_joins_absent. right. now split.
  - intros k Hin Hk. rewrite lookup_set.
    destruct (String.eqb_spec "_joins" k); [congruence|].
    rewrite gather_joins_other by assumption. cbn [fst].
    apply own_fields_lookup.
Qed.

End Demultiplex.

(** ** Dates: a record read and written again *)

Section DateReadWrite.
Import JS Types EntityModel.
Local Open Scope Z_scope.

Local Ltac div_mod_lia := Z.div_mod_to_equations; lia.

Lemma Day_whole_seconds t : Day (t - t mod 1000) = Day t.
Proof. unfold Day, msPerDay. div_mod_lia. Qed.

(** The milliseconds are not part of the SQL form. *)
Lemma formatDate_whole_seconds t :
  100 <= YearFromTime t <= 9999 ->
  formatDate (t - t mod 1000) = formatDate t.
Proof.
  intros Hy.
  assert (Hyear : YearFromTime (t - t mod 1000) = YearFromTime t)
    by (unfold YearFromTime; now rewrite Day_whole_seconds).
  assert (Hdiy : DayWithinYear (t - t mod 1000) = DayWithinYear t)
    by (unfold DayWithinYear; now rewrite Hyear, Day_whole_seconds).
  assert (Hmonth : MonthFromTime (t - t mod 1000) = MonthFromTime t)
    by (unfold MonthFromTime; now rewrite Hyear, Hdiy).
  assert (Hdate : DateFromTime (t - t mod 1000) = DateFromTime t)
    by (unfold DateFromTime; now rewrite Hyear, Hdiy, Hmonth).
  assert (Hhour : HourFromTime (t - t mod 1000) = HourFromTime t)
    by (unfold HourFromTime, msPerHour; div_mod_lia).
  assert (Hmin : MinFromTime (t - t mod 1000) = MinFromTime t)
    by (unfold MinFromTime, msPerMinute; div_mod_lia).
  assert (Hsec : SecFromTime (t - t mod 1000) = SecFromTime t)
    by (unfold SecFromTime, msPerSecond; div_mod_lia).
  rewrite !formatDate_sql_form by (rewrite ?Hyear; exact Hy).
  now rewrite Hyear, Hmonth, Hdate, Hhour, Hmin, Hsec.
Qed.

Lemma date_text_converted rt cls k t :
  getPropertyType cls k = Some DATE ->
  100 <= YearFromTime t <= 9999 ->
  -86400000 <= LocalTZA rt <= 86400000 ->
  dbValue rt cls k (finalValue rt cls k (VStr (formatDate t)))
  = VStr (formatDate (t - t mod 1000 - LocalTZA rt)).
Proof.
  intros Hk Hy Hz. unfold finalValue. rewrite Hk. cbn [new_Date].
  rewrite Date_parse_formatDate by assumption.
  pose proof (four_digit_year_range t Hy) as Hr.
  unfold TimeClip.
  replace (Z.abs (t - t mod 1000 - LocalTZA rt) <=? 8640000000000000) with true
    by (symmetry; apply Z.leb_le; lia).
  unfold dbValue. rewrite Hk. reflexivity.
Qed.

(** X21. A record read into an entity and written back: the text of a field
    declared DATE, in the SQL form, comes back moved by the offset of the
    host's time zone -- it was read as local time and is written as UTC --
    and so comes back as it was on a host in UTC. *)
Theorem date_text_read_then_written :
  forall rt cls (record : Obj) (k : string) (t : Z),
    distinct (keys record) = true ->
    k <> "_joins" ->
    getPropertyType cls k = Some DATE ->
    lookup record k = Some (VStr (formatDate t)) ->
    100 <= YearFromTime t <= 9999 ->
    -86400000 <= LocalTZA rt <= 86400000 ->
    lookup (toDBRecord rt cls (init rt cls [] record)) k
    = Some (VStr (formatDate (t - t mod 1000 - LocalTZA rt)))
    /\ (LocalTZA rt = 0 ->
        lookup (toDBRecord rt cls (init rt cls [] record)) k = lookup record k).
Proof.
  intros rt cls record k t Hd Hk Hdate Hl Hy Hz.
  assert (H : lookup (toDBRecord rt cls (init rt cls [] record)) k
              = Some (VStr (formatDate (t - t mod 1000 - LocalTZA rt)))).
  { rewrite (init_distinct rt cls record Hd).
    rewrite toDBRecord_distinct by (now rewrite keys_map).
    rewrite lookup_delete, !lookup_map, Hl by assumption. cbn [option_map].
    now rewrite date_text_converted. }
  split; [exact H|].
  intros H0. rewrite H, Hl, H0, Z.sub_0_r.
  now rewrite formatDate_whole_seconds.
Qed.

End DateReadWrite.

Section EntityExamples.
Import JS Types EntityModel DAO.

(** A creation time read and written back one hour ahead of UTC: it has
    moved back by the hour. *)
Lemma createdAt_moves_by_an_hour :
  lookup (toDBRecord Fixtures.utc_plus_one Fixtures.User
            (init Fixtures.utc_plus_one Fixtures.User []
               [("username", VStr "ann");
                ("createdAt", VStr "2024-01-15 10:30:00")]))
    "createdAt"
  = Some (VStr "2024-01-15 09:30:00").
Proof.
  exact (proj1 (date_text_read_then_written Fixtures.utc_plus_one Fixtures.User
                  [("username", VStr "ann");
                   ("createdAt", VStr "2024-01-15 10:30:00")]
                  "createdAt" 1705314600000%Z
                  eq_refl ltac:(discriminate) eq_refl eq_refl
                  ltac:(vm_compute; split; discriminate)
                  ltac:(vm_compute; split; discriminate))).
Defined.

(** The record of a user: the keys without [_joins], the name as it is,
    the settings as JSON text and the creation time as date text. *)
Lemma toDBRecord_bob_shape :
  distinct (keys Fixtures.bob) = true
  /\ keys (toDBRecord Fixtures.utc Fixtures.User Fixtures.bob)
     = ["username"; "settings"; "createdAt"]
  /\ lookup (toDBRecord Fixtures.utc Fixtures.User Fixtures.bob) "username"
     = Some (VStr "bob")
  /\ lookup (toDBRecord Fixtures.utc Fixtures.User Fixtures.bob) "settings"
     = Some (VStr ("{" +++ QuoteJSONString "theme" +++ ":"
                   +++ QuoteJSONString "dark" +++ ","
                   +++ QuoteJSONString "tags" +++ ":[1,null]}"))
  /\ lookup (toDBRecord Fixtures.utc Fixtures.User Fixtures.bob) "createdAt"
     = Some (VStr "2024-01-15 10:30:00").
Proof.
  split; [reflexivity|].
  destruct (toDBRecord_record_shape Fixtures.utc Fixtures.User Fixtures.bob
              eq_refl) as [Hkeys Hfields].
  split; [exact Hkeys|]. split; [|split].
  - destruct (Hfields "username" (VStr "bob") ltac:(discriminate) eq_refl)
      as [v' [Hl [_ [_ [_ [_ [_ Hsame]]]]]]].
    rewrite Hl. f_equal. apply Hsame; [discriminate|].
    right. left. split; [reflexivity|]. left. reflexivity.
  - destruct (Hfields "settings"
                (VObj [("theme", VStr "dark"); ("tags", VArr [VNum 1; VNull])])
                ltac:(discriminate) eq_refl)
      as [v' [Hl [_ [_ [Hjson _]]]]].
    destruct (Hjson eq_refl (or_introl eq_refl)) as [s [Hs ->]].
    rewrite Hl. injection Hs as <-. reflexivity.
  - destruct (Hfields "createdAt" (VDate (Some 1705314600123%Z))
                ltac:(discriminate) eq_refl)
      as [v' [Hl [_ [_ [_ [Hdate _]]]]]].
    rewrite Hl, (Hdate 1705314600123%Z eq_refl ltac:(vm_compute; discriminate)).
    reflexivity.
Defined.

(** A user row: the settings text becomes the array it denotes, the name
    stays; a creation time in the SQL form becomes a Date, and what the
    object held before is kept. *)
Lemma init_row_ann :
  lookup (init Fixtures.utc Fixtures.User [] Fixtures.row_ann) "settings"
  = Some (VArr [VNum 1; VNum 2])
  /\ lookup (init Fixtures.utc Fixtures.User [] Fixtures.row_ann) "username"
     = Some (VStr "ann")
  /\ lookup (init Fixtures.utc Fixtures.User [("id", VNum 7)]
               [("createdAt", VStr "2024-01-15 10:30:00")]) "createdAt"
     = Some (VDate (Some 1705314600000%Z))
  /\ lookup (init Fixtures.utc Fixtures.User [("id", VNum 7)]
               [("createdAt", VStr "2024-01-15 10:30:00")]) "id"
     = Some (VNum 7).
Proof.
  split; [|split; [|split]].
  - exact (proj1 (proj2 (proj2 (init_assigns_attributes_converting_strings
                                  Fixtures.utc Fixtures.User []
                                  Fixtures.row_ann "settings")
                           (VStr "[1,2]") eq_refl))
             "[1,2]" eq_refl eq_refl).
  - exact (proj1 (proj2 (init_assigns_attributes_converting_strings
                           Fixtures.utc Fixtures.User []
                           Fixtures.row_ann "username")
                    (VStr "ann") eq_refl)
             (or_intror eq_refl)).
  - exact (proj2 (proj2 (proj2 (init_assigns_attributes_converting_strings
                                  Fixtures.utc Fixtures.User [("id", VNum 7)]
                                  [("createdAt", VStr "2024-01-15 10:30:00")]
                                  "createdAt")
                           (VStr "2024-01-15 10:30:00") eq_refl))
             "2024-01-15 10:30:00" eq_refl eq_refl).
  - exact (proj1 (init_assigns_attributes_converting_strings
                    Fixtures.utc Fixtures.User [("id", VNum 7)]
                    [("createdAt", VStr "2024-01-15 10:30:00")] "id")
             eq_refl).
Defined.

(** The title of the joined post is no property of the user. *)
Lemma demultiplex_row_ann :
  In "posts_title" (alias_keys [Fixtures.titledPosts])
  /\ hasOwnProperty Fixtures.row_ann "posts_title" = true
  /\ hasOwnProperty (demultiplex [] [Fixtures.titledPosts] Fixtures.row_ann)
       "posts_title"
     = false.
Proof.
  split; [left; reflexivity|]. split; [reflexivity|].
  exact (proj1 (proj2 (demultiplex_separates_join_columns Fixtures.row_ann []
                         [Fixtures.titledPosts]))
           "posts_title" (or_introl eq_refl) eq_refl ltac:(discriminate)).
Defined.

End EntityExamples.

(** ** Transaction coordinator: failures outside the callback *)

Section TransactionFailures.
Import Types TransactionManager.

Variables DB R : Type.
Variable pool : Pool DB.
Variable callback : PoolConnection DB -> DB -> Outcome R * DB.

(** X22. [runInTransaction] when the pool gives no connection: the pool's
    error is thrown on, and nothing is begun, rolled back or released --
    the only call made is the one to the pool. *)
Theorem runInTransaction_without_connection :
  forall (w : World DB) e s1,
    getConnection pool (state w) = (Thrown e, s1) ->
    runInTransaction pool callback w
    = (Thrown e, {| log := log w ++ [GetConnection]; state := s1 |}).
Proof.
  intros w e s1 H. unfold runInTransaction, try_block, call. now rewrite H.
Qed.

(** X23. [runInTransaction] when the transaction cannot be begun: the callback
    is not called, a rollback is attempted all the same, and the error of
    the begin is thrown.  When the commit fails after the callback has
    resolved: a rollback follows, the error of the commit is thrown, and
    the callback's result is lost. *)
Theorem runInTransaction_begin_or_commit_fails :
  forall (w : World DB) (c : PoolConnection DB) (s1 : DB),
    getConnection pool (state w) = (Returned c, s1) ->
    (forall e s2 s3 s4,
       beginTransaction c s1 = (Thrown e, s2) ->
       rollback c s2 = (Returned tt, s3) ->
       release c s3 = (Returned tt, s4) ->
       runInTransaction pool callback w
       = (Thrown e,
          {| log := log w ++ [GetConnection; BeginTransaction; Rollback; Release];
             state := s4 |}))
    /\ (forall s2 result s3 e s4 s5 s6,
          beginTransaction c s1 = (Returned tt, s2) ->
          callback c s2 = (Returned result, s3) ->
          commit c s3 = (Thrown e, s4) ->
          rollback c s4 = (Returned tt, s5) ->
          release c s5 = (Returned tt, s6) ->
          runInTransaction pool callback w
          = (Thrown e,
             {| log := log w ++ [GetConnection; BeginTransaction; Callback;
                                 Commit; Rollback; Release];
                state := s6 |})).
Proof.
  intros w c s1 Hg. split.
  - intros e s2 s3 s4 Hb Hr Hl.
    unfold runInTransaction, try_block, catch_block, finally_block, call.
    rewrite Hg; cbn [state log]. rewrite Hb; cbn [state log].
    rewrite Hr; cbn [state log]. rewrite Hl. now rewrite <- !app_assoc.
  - intros s2 result s3 e s4 s5 s6 Hb Hc Hm Hr Hl.
    unfold runInTransaction, try_block, catch_block, finally_block, call.
    rewrite Hg; cbn [state log]. rewrite Hb; cbn [state log].
    rewrite Hc; cbn [state log]. rewrite Hm; cbn [state log].
    rewrite Hr; cbn [state log]. rewrite Hl. now rewrite <- !app_assoc.
Qed.

(** X24. [runInTransaction] when the connection cannot be released: the error
    of the release is what the caller gets, whatever went before -- a
    result, the callback's error, a failed rollback. *)
Theorem runInTransaction_release_error_wins :
  forall (w : World DB) (c : PoolConnection DB) (s1 : DB) e,
    getConnection pool (state w) = (Returned c, s1) ->
    (forall s, fst (release c s) = Thrown e) ->
    fst (runInTransaction pool callback w) = Thrown e.
Proof.
  intros w c s1 e Hg Hrel.
  unfold runInTransaction, try_block, catch_block, finally_block, call.
  rewrite Hg; cbn [state log].
  repeat match goal with
         | |- context [match ?op ?s with pair _ _ => _ end] =>
             lazymatch op with
             | release c =>
                 let H := fresh "H" in
                 pose proof (Hrel s) as H;
                 destruct (op s) as [[?|?] ?]; cbn [fst] in H;
                 [discriminate H|injection H as ->]
             | _ => destruct (op s) as [[?|?] ?]
             end; cbn [state log fst]
         end.
  all: reflexivity.
Qed.

End TransactionFailures.

Section TransactionExamples.
Import Types TransactionManager.

Lemma runInTransaction_pool_exhausted :
  getConnection Fixtures.exhausted (state Fixtures.idle)
  = (Thrown (Error "pool exhausted"), 1%nat)
  /\ runInTransaction Fixtures.exhausted Fixtures.counting_work Fixtures.idle
     = (Thrown (Error "pool exhausted"),
        {| log := [GetConnection]; state := 1%nat |}).
Proof.
  split; [reflexivity|].
  exact (runInTransaction_without_connection nat nat Fixtures.exhausted
           Fixtures.counting_work Fixtures.idle (Error "pool exhausted") 1%nat
           eq_refl).
Defined.

Lemma runInTransaction_commit_refused :
  getConnection (Fixtures.pool_of Fixtures.no_commit) (state Fixtures.idle)
  = (Returned Fixtures.no_commit, 1%nat)
  /\ runInTransaction (Fixtures.pool_of Fixtures.no_commit)
       Fixtures.counting_work Fixtures.idle
     = (Thrown (ExecutionError "ER_COMMIT"),
        {| log := [GetConnection; BeginTransaction; Callback; Commit; Rollback;
                   Release];
           state := 6%nat |}).
Proof.
  split; [reflexivity|].
  exact (proj2 (runInTransaction_begin_or_commit_fails nat nat
                  (Fixtures.pool_of Fixtures.no_commit) Fixtures.counting_work
                  Fixtures.idle Fixtures.no_commit 1%nat eq_refl)
           2%nat 2%nat 3%nat (ExecutionError "ER_COMMIT") 4%nat 5%nat 6%nat
           eq_refl eq_refl eq_refl eq_refl eq_refl).
Defined.

Lemma runInTransaction_release_refused :
  getConnection (Fixtures.pool_of Fixtures.no_release) (state Fixtures.idle)
  = (Returned Fixtures.no_release, 1%nat)
  /\ (forall s, fst (release Fixtures.no_release s)
                = Thrown (Error "released twice"))
  /\ fst (runInTransaction (Fixtures.pool_of Fixtures.no_release)
            Fixtures.counting_work Fixtures.idle)
     = Thrown (Error "released twice").
Proof.
  split; [reflexivity|]. split; [reflexivity|].
  exact (runInTransaction_release_error_wins nat nat
           (Fixtures.pool_of Fixtures.no_release) Fixtures.counting_work
           Fixtures.idle Fixtures.no_release 1%nat (Error "released twice")
           eq_refl (fun _ => eq_refl)).
Defined.

End TransactionExamples.

(** ** The shebang script *)

Section Shebang.
Import JS Types AddShebang.

Lemma startsWith_append p s : startsWith p (p +++ s) = true.
Proof.
  induction p as [|a p IH]; cbn [append startsWith]; [now destruct s|].
  now rewrite Ascii.eqb_refl.
Qed.

(** X25. The script is idempotent: after a run that did not fail the file
    begins with the shebang line, and a second run finds it there, writes
    nothing and leaves the file as it is.  A run that fails has written
    nothing. *)
Theorem add_shebang_idempotent :
  forall fs : FileSystem,
    (failed (fst (run fs)) = false ->
     (exists c, content (snd (run fs)) = Some c /\ startsWith SHEBANG c = true)
     /\ run (snd (run fs)) = (ShebangAlreadyPresent, snd (run fs)))
    /\ (failed (fst (run fs)) = true -> snd (run fs) = fs).
Proof.
  intros [[c|] wr]; unfold run, readFileSync, writeFileSync; cbn [content writable].
  - destruct (startsWith SHEBANG c) eqn:Hs; cbn [negb].
    + cbn [fst snd failed content]. split; [|discriminate]. intros _.
      split; [now exists c|]. now rewrite Hs.
    + destruct wr; cbn [fst snd failed content].
      * split; [|discriminate]. intros _.
        split; [eexists; split; [reflexivity|apply startsWith_append]|].
        now rewrite startsWith_append.
      * split; [discriminate|reflexivity].
  - cbn [fst snd failed]. split; [discriminate|reflexivity].
Qed.

(** The compiled generator: the line is put in front once. *)
Lemma add_shebang_compiled_script :
  failed (fst (run Fixtures.compiled_script)) = false
  /\ content (snd (run Fixtures.compiled_script))
     = Some (SHEBANG +++ "console.log(1);")
  /\ run (snd (run Fixtures.compiled_script))
     = (ShebangAlreadyPresent, snd (run Fixtures.compiled_script)).
Proof.
  split; [reflexivity|]. split; [reflexivity|].
  exact (proj2 (proj1 (add_shebang_idempotent Fixtures.compiled_script) eq_refl)).
Defined.

End Shebang.
